(** * JobSniffr: the resume parser and the job-field recommender

    A shallow embedding of [resumeparser-app/app.py]: the classes
    [JobFieldRecommender] (the weighted field scorer and its ranking) and
    [ResumeParser] (the regex-driven extractors and [parse_resume]).

    Conventions of the embedding.
    - A Python [str] is a [string]; each [ascii] stands for the code point
      of the same number, so the texts covered are those whose code points
      are below 256.  Character classes ([str.isspace], [\w], [\d],
      [str.lower], ...) follow CPython on that range.
    - A Python [float] is an IEEE 754 binary64 value, a [spec_float]
      with the operations of the Standard Library at precision 53.
    - A Python [int] is a [Z]; lengths are [nat].
    - A raised exception is the left summand of [result]. *)

From Stdlib Require Import ZArith NArith List String Ascii Bool Lia.
From Stdlib Require Import Permutation Sorted.
From Stdlib Require Import SpecFloat.
Import ListNotations.

Local Open Scope string_scope.
Local Open Scope list_scope.

(* ================================================================== *)
(** * Python primitives *)
(* ================================================================== *)

Module Py.

(** ** Exceptions *)

Inductive exn : Type :=
| ValueError (msg : string)
| ZeroDivisionError
| OverflowError
| IndexError
| Exception (msg : string).

Definition result (A : Type) : Type := (exn + A)%type.

Definition ret {A} (x : A) : result A := inr x.
Definition raise {A} (e : exn) : result A := inl e.
Definition bind {A B} (c : result A) (f : A -> result B) : result B :=
  match c with
  | inl e => inl e
  | inr x => f x
  end.

(** ** Characters *)

Definition code (c : ascii) : N := N_of_ascii c.

Definition between (lo hi : N) (c : ascii) : bool :=
  (N.leb lo (code c) && N.leb (code c) hi)%bool.

(** [str.isspace], the class [\s], and what [strip] and [split] remove. *)
Definition isspace (c : ascii) : bool :=
  (between 9 13 c || between 28 32 c || N.eqb (code c) 133
   || N.eqb (code c) 160)%bool.

(** The class [\d]: decimal digits. *)
Definition isdecimal (c : ascii) : bool := between 48 57 c.

Definition is_az (c : ascii) : bool := between 97 122 c.
Definition is_AZ (c : ascii) : bool := between 65 90 c.

(** [str.isupper] on one character. *)
Definition isupper (c : ascii) : bool :=
  (is_AZ c || between 192 214 c || between 216 222 c)%bool.

(** Lowercase letters that have an uppercase form below 256. *)
Definition has_upper (c : ascii) : bool :=
  (is_az c || between 224 246 c || between 248 254 c)%bool.

(** [str.islower] on one character. *)
Definition islower (c : ascii) : bool :=
  (is_az c || N.eqb (code c) 170 || N.eqb (code c) 181
   || N.eqb (code c) 186 || between 223 246 c || between 248 255 c)%bool.

Definition iscased (c : ascii) : bool := (isupper c || islower c)%bool.

(** The class [\w]: alphanumeric characters and the underscore. *)
Definition isword (c : ascii) : bool :=
  (between 48 57 c || is_AZ c || N.eqb (code c) 95 || is_az c
   || N.eqb (code c) 170 || between 178 179 c || N.eqb (code c) 181
   || between 185 186 c || between 188 190 c || between 192 214 c
   || between 216 246 c || between 248 255 c)%bool.

Definition lower_char (c : ascii) : ascii :=
  if isupper c then ascii_of_N (code c + 32) else c.

(** Uppercasing; the three letters whose uppercase form lies outside the
    range (181, 223, 255) are left as they are. *)
Definition upper_char (c : ascii) : ascii :=
  if has_upper c then ascii_of_N (code c - 32) else c.

(** ** Strings *)

Fixpoint map_str (f : ascii -> ascii) (s : string) : string :=
  match s with
  | EmptyString => EmptyString
  | String c s' => String (f c) (map_str f s')
  end.

(** [s.lower()] *)
Definition lower (s : string) : string := map_str lower_char s.

Fixpoint lstrip (s : string) : string :=
  match s with
  | EmptyString => EmptyString
  | String c s' => if isspace c then lstrip s' else s
  end.

Fixpoint rstrip (s : string) : string :=
  match s with
  | EmptyString => EmptyString
  | String c s' =>
      match rstrip s' with
      | EmptyString => if isspace c then EmptyString else String c EmptyString
      | r => String c r
      end
  end.

(** [s.strip()] *)
Definition strip (s : string) : string := rstrip (lstrip s).

(** Truth value of a string: non-empty. *)
Definition truthy (s : string) : bool :=
  match s with
  | EmptyString => false
  | String _ _ => true
  end.

(** [s.split(sep)] for a one-character separator. *)
Fixpoint split (sep : ascii) (s : string) : list string :=
  match s with
  | EmptyString => [EmptyString]
  | String c s' =>
      if Ascii.eqb c sep then EmptyString :: split sep s'
      else match split sep s' with
           | w :: ws => String c w :: ws
           | [] => [String c EmptyString]
           end
  end.

(** [s.split()]: the maximal runs of non-space characters. *)
Fixpoint split_ws (s : string) : list string :=
  match s with
  | EmptyString => []
  | String c s' =>
      if isspace c then split_ws s'
      else match s' with
           | EmptyString => [String c EmptyString]
           | String d _ =>
               if isspace d then String c EmptyString :: split_ws s'
               else match split_ws s' with
                    | w :: ws => String c w :: ws
                    | [] => [String c EmptyString]
                    end
           end
  end.

(** [sep.join(l)] *)
Fixpoint join (sep : string) (l : list string) : string :=
  match l with
  | [] => EmptyString
  | [s] => s
  | s :: l' => s ++ sep ++ join sep l'
  end.

Fixpoint startswith (p s : string) : bool :=
  match p, s with
  | EmptyString, _ => true
  | String a p', String b s' => (Ascii.eqb a b && startswith p' s')%bool
  | String _ _, EmptyString => false
  end.

(** [p in s] for strings: [p] occurs as a substring of [s]. *)
Fixpoint contains (p s : string) : bool :=
  (startswith p s ||
   match s with
   | EmptyString => false
   | String _ s' => contains p s'
   end)%bool.

(** [c in s] for a single character. *)
Fixpoint has_char (c : ascii) (s : string) : bool :=
  match s with
  | EmptyString => false
  | String d s' => (Ascii.eqb c d || has_char c s')%bool
  end.

(** [s.title()]: a cased character is uppercased when the character
    before it is not cased, lowercased otherwise. *)
Fixpoint title_from (prev_cased : bool) (s : string) : string :=
  match s with
  | EmptyString => EmptyString
  | String c s' =>
      String (if prev_cased then lower_char c else upper_char c)
             (title_from (iscased c) s')
  end.

Definition title (s : string) : string := title_from false s.

(** [s[:n]] *)
Fixpoint take (n : nat) (s : string) : string :=
  match n, s with
  | O, _ => EmptyString
  | S n', String c s' => String c (take n' s')
  | S _, EmptyString => EmptyString
  end.

(** [s.replace(a, b)] for one-character [a] and [b]. *)
Definition replace_char (a b : ascii) (s : string) : string :=
  map_str (fun c => if Ascii.eqb c a then b else c) s.

(** [s[0]] *)
Definition first_char (s : string) : result ascii :=
  match s with
  | EmptyString => raise IndexError
  | String c _ => ret c
  end.

(** [l[-1]] *)
Definition last_item {A} (l : list A) : result A :=
  match rev l with
  | [] => raise IndexError
  | x :: _ => ret x
  end.

(** [x in l] for a list of strings. *)
Definition mem (x : string) (l : list string) : bool :=
  existsb (String.eqb x) l.

(** ** Lists *)

(** The loop [for x in l: ...] over a body that may raise. *)
Fixpoint for_each {A B} (f : A -> result B) (l : list A) : result (list B) :=
  match l with
  | [] => ret []
  | x :: l' =>
      bind (f x) (fun y => bind (for_each f l') (fun ys => ret (y :: ys)))
  end.

(** [l.sort(key=key, reverse=True)] and [sorted(l, key=key, reverse=True)].
    The sort is stable, also with [reverse=True]: items with equal keys
    keep their order.  Any stable sort gives the same list; this one
    inserts each item before the first one whose key is not greater. *)
Fixpoint insert_desc {A} (key : A -> Z) (x : A) (l : list A) : list A :=
  match l with
  | [] => [x]
  | y :: l' =>
      if (key x <? key y)%Z then y :: insert_desc key x l' else x :: y :: l'
  end.

Fixpoint sort_desc {A} (key : A -> Z) (l : list A) : list A :=
  match l with
  | [] => []
  | x :: l' => insert_desc key x (sort_desc key l')
  end.

(** [a] may stand before [b] in a list in descending order of [key]. *)
Definition desc {A} (key : A -> Z) (a b : A) : Prop := (key b <= key a)%Z.

End Py.

Declare Scope py_scope.
Delimit Scope py_scope with py.
Notation "x <- c ;; k" := (Py.bind c (fun x => k))
  (at level 61, c at next level, right associativity) : py_scope.
Notation "' p <- c ;; k" := (Py.bind c (fun x => match x with p => k end))
  (at level 61, p pattern, c at next level, right associativity) : py_scope.

(* ================================================================== *)
(** * Python floats: IEEE 754 binary64 *)
(* ================================================================== *)

Module Float.
Import Py.
Local Open Scope Z_scope.

Definition prec : Z := 53.
Definition emax : Z := 1024.

Definition float : Type := spec_float.

Definition zero : float := S754_zero false.

(** An integer as an exact, not yet rounded, binary value. *)
Definition exact (z : Z) : float :=
  match z with
  | Z0 => S754_zero false
  | Zpos p => S754_finite false p 0
  | Zneg p => S754_finite true p 0
  end.

(** [float(z)]: the integer rounded to the nearest float. *)
Definition of_int (z : Z) : float := binary_normalize prec emax z 0 false.

Definition is_inf (x : float) : bool :=
  match x with
  | S754_infinity _ => true
  | _ => false
  end.

(** [a / b] on two ints: the correctly rounded quotient. *)
Definition int_truediv (a b : Z) : result float :=
  if b =? 0 then raise ZeroDivisionError
  else let q := SFdiv prec emax (exact a) (exact b) in
       if is_inf q then raise OverflowError else ret q.

(** [x + y] *)
Definition add (x y : float) : float := SFadd prec emax x y.

(** [x * y] *)
Definition mul (x y : float) : float := SFmul prec emax x y.

(** [x / y] on two floats. *)
Definition div (x y : float) : result float :=
  if SFeqb y zero then raise ZeroDivisionError
  else ret (SFdiv prec emax x y).

(** [x > y] *)
Definition gt (x y : float) : bool := SFltb y x.

(** Round a non-negative binary value [m * 2^e] to the nearest integer,
    ties to the even one. *)
Definition round_half_even (m : positive) (e : Z) : Z :=
  match e with
  | Zneg k =>
      let d := Z.pow_pos 2 k in
      let q := Z.pos m / d in
      let r := Z.pos m mod d in
      match 2 * r ?= d with
      | Lt => q
      | Gt => q + 1
      | Eq => if Z.even q then q else q + 1
      end
  | _ => Z.pos m * 2 ^ e
  end.

(** [round(x)] with one argument: a float to the nearest int. *)
Definition round (x : float) : result Z :=
  match x with
  | S754_nan => raise (ValueError "cannot convert float NaN to integer")
  | S754_infinity _ =>
      raise OverflowError
  | S754_zero _ => ret 0
  | S754_finite s m e =>
      let n := round_half_even m e in
      ret (if s then - n else n)
  end.

End Float.

(* ================================================================== *)
(** * class JobFieldRecommender *)
(* ================================================================== *)

Module JobFieldRecommender.
Import Py.
Local Open Scope py_scope.

(** One value of [self.job_fields]. *)
Record job_field : Type := {
  skills : list string;
  keywords : list string;
  weight : Float.float
}.

(** One item of the keyword list built by [extract_keywords]. *)
Record keyword : Type := {
  word : string;
  count : Z
}.

Record search_urls : Type := {
  linkedin : string;
  indeed : string;
  glassdoor : string
}.

Record recommendation : Type := {
  field : string;
  match_percentage : Z;
  job_search_url : search_urls
}.

Definition one : Float.float := Float.of_int 1.

(** [self.job_fields], in insertion order. *)
Definition job_fields : list (string * job_field) :=
  [ ("Software Engineer",
     {| skills := ["Python"; "Java"; "JavaScript"; "C++"; "C#"; "Go"; "Ruby";
                   "TypeScript"; "React"; "Angular"; "Vue.js"; "Node.js";
                   "Django"; "Flask"; "Spring"; "Git"; "Docker"; "Kubernetes";
                   "AWS"; "Azure"; "REST API"; "GraphQL"];
        keywords := ["software"; "developer"; "programming"; "coding";
                     "full-stack"; "backend"; "frontend"; "api";
                     "microservices"; "agile"; "scrum"];
        weight := one |});
    ("Data Scientist",
     {| skills := ["Python"; "R"; "Machine Learning"; "Deep Learning";
                   "TensorFlow"; "PyTorch"; "Scikit-learn"; "Pandas"; "NumPy";
                   "Matplotlib"; "Statistics"; "SQL"; "Jupyter"; "MATLAB";
                   "SAS"; "SPSS"; "NLP"; "Computer Vision"];
        keywords := ["data"; "analysis"; "machine learning"; "ai";
                     "artificial intelligence"; "predictive"; "modeling";
                     "statistics"; "research"; "algorithm"];
        weight := one |});
    ("Data Engineer",
     {| skills := ["Python"; "SQL"; "Apache Spark"; "Hadoop"; "Kafka";
                   "Airflow"; "ETL"; "AWS"; "Azure"; "GCP"; "MongoDB";
                   "PostgreSQL"; "Redis"; "Elasticsearch"; "Docker";
                   "Kubernetes"; "Scala"; "Java"; "Databricks"; "Snowflake"];
        keywords := ["data"; "pipeline"; "etl"; "warehouse"; "big data";
                     "streaming"; "database"; "infrastructure"; "architect";
                     "integration"];
        weight := one |});
    ("DevOps Engineer",
     {| skills := ["Docker"; "Kubernetes"; "Jenkins"; "Git"; "CI/CD";
                   "Terraform"; "Ansible"; "AWS"; "Azure"; "Linux"; "Bash";
                   "Python"; "Monitoring"; "Prometheus"; "Grafana";
                   "ELK Stack"; "Nginx"; "Apache"; "Security"];
        keywords := ["devops"; "automation"; "deployment"; "infrastructure";
                     "cloud"; "continuous"; "integration"; "monitoring";
                     "reliability"; "sre"];
        weight := one |});
    ("Cloud Architect",
     {| skills := ["AWS"; "Azure"; "GCP"; "Terraform"; "CloudFormation";
                   "Docker"; "Kubernetes"; "Serverless"; "Lambda";
                   "Microservices"; "API Gateway"; "Load Balancing";
                   "Security"; "Networking"; "Python"; "Java"; "Node.js"];
        keywords := ["cloud"; "architect"; "solution"; "infrastructure";
                     "scalability"; "migration"; "serverless"; "saas"; "paas";
                     "iaas"];
        weight := one |});
    ("Full Stack Developer",
     {| skills := ["JavaScript"; "React"; "Angular"; "Vue.js"; "Node.js";
                   "HTML5"; "CSS3"; "Python"; "Django"; "Flask"; "Java";
                   "Spring"; "SQL"; "MongoDB"; "REST API"; "GraphQL"; "Git";
                   "Docker"; "AWS"];
        keywords := ["full-stack"; "fullstack"; "frontend"; "backend"; "web";
                     "application"; "responsive"; "ui"; "ux"; "api"];
        weight := one |});
    ("Mobile Developer",
     {| skills := ["Swift"; "Kotlin"; "React Native"; "Flutter"; "iOS";
                   "Android"; "Java"; "Objective-C"; "Xcode"; "Android Studio";
                   "API"; "Firebase"; "SQLite"];
        keywords := ["mobile"; "ios"; "android"; "app"; "application";
                     "native"; "cross-platform"];
        weight := one |});
    ("Machine Learning Engineer",
     {| skills := ["Python"; "TensorFlow"; "PyTorch"; "Scikit-learn"; "MLflow";
                   "Kubeflow"; "Deep Learning"; "Neural Networks";
                   "Computer Vision"; "NLP"; "CUDA"; "Docker"; "Kubernetes";
                   "AWS SageMaker"; "Model Deployment"];
        keywords := ["machine learning"; "ml"; "ai"; "deep learning"; "neural";
                     "model"; "training"; "deployment"; "mlops"; "production"];
        weight := one |});
    ("Business Analyst",
     {| skills := ["SQL"; "Excel"; "Tableau"; "Power BI"; "Python"; "R"; "Jira";
                   "Confluence"; "Agile"; "Scrum"; "Requirements Analysis";
                   "Data Analysis"; "Visio"];
        keywords := ["business"; "analyst"; "requirements"; "stakeholder";
                     "process"; "improvement"; "strategy"; "reporting";
                     "dashboard"];
        weight := one |});
    ("QA Engineer",
     {| skills := ["Selenium"; "Jest"; "Cypress"; "JUnit"; "TestNG"; "Postman";
                   "JMeter"; "Python"; "Java"; "JavaScript"; "Git"; "CI/CD";
                   "Automation Testing"];
        keywords := ["qa"; "quality"; "testing"; "test"; "automation"; "bug";
                     "defect"; "validation"; "regression"; "performance"];
        weight := one |}) ].

(** The two loops of [calculate_match_score]:
[[
    for item in items:
        max_score += points / len(items)
        if item in user:
            score += points / len(items)
]]
    [rest] is the part of [items] still to visit; the state is
    [(score, max_score)]. *)
Fixpoint accumulate (points : Z) (items user rest : list string)
    (st : Float.float * Float.float) : result (Float.float * Float.float) :=
  match rest with
  | [] => ret st
  | item :: rest' =>
      let '(score, max_score) := st in
      share <- Float.int_truediv points (Z.of_nat (List.length items)) ;;
      let max_score := Float.add max_score share in
      score <- (if mem item user
                then share <- Float.int_truediv points
                                (Z.of_nat (List.length items)) ;;
                     ret (Float.add score share)
                else ret score) ;;
      accumulate points items user rest' (score, max_score)
  end.

Definition calculate_match_score (user_skills : list string)
    (user_keywords : list keyword) (job_field_data : job_field) : result Z :=
  let score := Float.zero in
  let max_score := Float.zero in
  let user_skills_lower := map lower user_skills in
  let user_keywords_lower := map (fun k => lower (word k)) user_keywords in
  let field_skills_lower := map lower (skills job_field_data) in
  '(score, max_score) <-
    accumulate 60 field_skills_lower user_skills_lower field_skills_lower
               (score, max_score) ;;
  let field_keywords_lower := map lower (keywords job_field_data) in
  '(score, max_score) <-
    accumulate 40 field_keywords_lower user_keywords_lower
               field_keywords_lower (score, max_score) ;;
  percentage <-
    (if Float.gt max_score Float.zero
     then q <- Float.div score max_score ;;
          ret (Float.mul q (Float.of_int 100))
     else ret Float.zero) ;;
  rounded <- Float.round percentage ;;
  ret (Z.min rounded 100).

Definition get_job_search_url (field_name : string) : search_urls :=
  let search_query := replace_char " " "+" field_name in
  {| linkedin :=
       "https://www.linkedin.com/jobs/search/?keywords=" ++ search_query;
     indeed := "https://www.indeed.com/jobs?q=" ++ search_query;
     glassdoor :=
       "https://www.glassdoor.com/Job/jobs.htm?sc.keyword=" ++ search_query |}.

(** The body of the loop of [get_job_recommendations]: the entry that is
    appended for one item of [self.job_fields]. *)
Definition field_match (skills : list string) (keywords : list keyword)
    (experience_text : string) (item : string * job_field)
    : result recommendation :=
  let '(field_name, field_data) := item in
  match_score <- calculate_match_score skills keywords field_data ;;
  let match_score :=
    if truthy experience_text then
      let experience_lower := lower experience_text in
      if contains (lower field_name) experience_lower
      then Z.min (match_score + 10) 100
      else match_score
    else match_score in
  ret {| field := field_name;
         match_percentage := match_score;
         job_search_url := get_job_search_url field_name |}.

(** The list [recommendations] as it stands before it is sorted. *)
Definition collect_matches (skills : list string) (keywords : list keyword)
    (experience_text : string) : result (list recommendation) :=
  for_each (field_match skills keywords experience_text) job_fields.

Definition get_job_recommendations (skills : list string)
    (keywords : list keyword) (experience_text : string)
    : result (list recommendation) :=
  recommendations <- collect_matches skills keywords experience_text ;;
  ret (sort_desc match_percentage recommendations).

End JobFieldRecommender.

(* ================================================================== *)
(** * The [re] module: backtracking regular expressions *)
(* ================================================================== *)

Module Re.
Import Py.

(** The patterns of the program use literals, classes, concatenation,
    alternation, greedy repetition and the assertion [\b]; groups are
    only read through [group()], the whole match. *)
Inductive regex : Type :=
| Eps
| Chr (c : ascii)
| Cls (p : ascii -> bool)
| Seq (r1 r2 : regex)
| Alt (r1 r2 : regex)
| Star (r : regex)
| WordB.

(** ** Pattern syntax *)

Definition never : regex := Cls (fun _ => false).

(** [r1 r2 ... rn] *)
Fixpoint seq (rs : list regex) : regex :=
  match rs with
  | [] => Eps
  | [r] => r
  | r :: rs' => Seq r (seq rs')
  end.

(** [r1|r2|...|rn] *)
Fixpoint alt (rs : list regex) : regex :=
  match rs with
  | [] => never
  | [r] => r
  | r :: rs' => Alt r (alt rs')
  end.

(** A literal string, which is also what [re.escape(s)] matches. *)
Fixpoint lit (s : string) : regex :=
  match s with
  | EmptyString => Eps
  | String c EmptyString => Chr c
  | String c s' => Seq (Chr c) (lit s')
  end.

Definition escape (s : string) : regex := lit s.

(** [r+], [r?], [r{n}], [r{n,}] *)
Definition plus (r : regex) : regex := Seq r (Star r).
Definition opt (r : regex) : regex := Alt r Eps.
Fixpoint rep (n : nat) (r : regex) : regex :=
  match n with
  | O => Eps
  | S O => r
  | S n' => Seq r (rep n' r)
  end.
Definition rep_min (n : nat) (r : regex) : regex := Seq (rep n r) (Star r).

(** [[...]]: the union of ranges, categories and single characters. *)
Definition cls (ps : list (ascii -> bool)) : regex :=
  Cls (fun c => existsb (fun p => p c) ps).
Definition range (lo hi : ascii) : ascii -> bool :=
  between (code lo) (code hi).
Definition chars (s : string) : ascii -> bool := fun c => has_char c s.

Definition d : regex := Cls isdecimal.
Definition w : regex := Cls isword.
Definition s : regex := Cls isspace.

(** ** Matching *)

Definition chr_match (ignorecase : bool) (c x : ascii) : bool :=
  if ignorecase then Ascii.eqb (lower_char c) (lower_char x)
  else Ascii.eqb c x.

Definition cls_match (ignorecase : bool) (p : ascii -> bool) (x : ascii)
    : bool :=
  (p x || (ignorecase && (p (lower_char x) || p (upper_char x))))%bool.

Definition word_before (prev : option ascii) : bool :=
  match prev with
  | Some c => isword c
  | None => false
  end.

Definition word_after (rest : string) : bool :=
  match rest with
  | String c _ => isword c
  | EmptyString => false
  end.

(** [\b]: exactly one of the two neighbours is a word character. *)
Definition at_boundary (prev : option ascii) (rest : string) : bool :=
  xorb (word_before prev) (word_after rest).

Section Exec.
Variable ignorecase : bool.
Variable A : Type.

(** [exec r k prev rest]: match [r] at the start of [rest], the character
    before it being [prev], then hand the position reached to [k]; on
    failure of [k] the next way of matching [r] is tried, in the order of
    a backtracking matcher: the left branch of an alternation first, one
    more round of a repetition first.  A round of [Star] has to consume
    at least one character. *)
Fixpoint exec (r : regex) (k : option ascii -> string -> option A)
    (prev : option ascii) (rest : string) {struct r} : option A :=
  match r with
  | Eps => k prev rest
  | Chr c =>
      match rest with
      | String x rest' =>
          if chr_match ignorecase c x then k (Some x) rest' else None
      | EmptyString => None
      end
  | Cls p =>
      match rest with
      | String x rest' =>
          if cls_match ignorecase p x then k (Some x) rest' else None
      | EmptyString => None
      end
  | Seq r1 r2 => exec r1 (exec r2 k) prev rest
  | Alt r1 r2 =>
      match exec r1 k prev rest with
      | Some a => Some a
      | None => exec r2 k prev rest
      end
  | Star r1 =>
      (fix rounds (fuel : nat) (prev : option ascii) (rest : string)
         {struct fuel} : option A :=
         match fuel with
         | O => k prev rest
         | S fuel' =>
             match exec r1
                     (fun prev' rest' =>
                        if Nat.ltb (String.length rest') (String.length rest)
                        then rounds fuel' prev' rest'
                        else None)
                     prev rest with
             | Some a => Some a
             | None => k prev rest
             end
         end) (String.length rest) prev rest
  | WordB => if at_boundary prev rest then k prev rest else None
  end.
End Exec.

(** A position in the subject: the character before it and what follows. *)
Definition position : Type := (option ascii * string)%type.

(** One match attempt at a fixed start.  With [must_advance] an empty
    match is refused. *)
Definition match_here (ignorecase : bool) (r : regex) (must_advance : bool)
    (prev : option ascii) (rest : string) : option position :=
  exec ignorecase position r
       (fun prev' rest' =>
          if (must_advance
              && Nat.eqb (String.length rest') (String.length rest))%bool
          then None else Some (prev', rest'))
       prev rest.

(** The leftmost match from a position on: its text and the position after
    it.  [must_advance] only binds the first start. *)
Fixpoint scan (ignorecase : bool) (r : regex) (must_advance : bool)
    (prev : option ascii) (rest : string) : option (string * position) :=
  match match_here ignorecase r must_advance prev rest with
  | Some (prev', rest') =>
      Some (take (String.length rest - String.length rest') rest,
            (prev', rest'))
  | None =>
      match rest with
      | EmptyString => None
      | String c rest' => scan ignorecase r false (Some c) rest'
      end
  end.

(** [re.search(pattern, text)]: [None] or the text of the match, which is
    what [.group()] returns. *)
Definition search (ignorecase : bool) (r : regex) (text : string)
    : option string :=
  option_map fst (scan ignorecase r false None text).

(** Truth value of the match object. *)
Definition found (m : option string) : bool :=
  match m with
  | Some _ => true
  | None => false
  end.

(** [re.findall(pattern, text)] for a pattern without groups: the texts
    of the successive matches; after an empty match the next one has to
    advance. *)
Fixpoint findall_loop (fuel : nat) (ignorecase : bool) (r : regex)
    (must_advance : bool) (prev : option ascii) (rest : string)
    : list string :=
  match fuel with
  | O => []
  | S fuel' =>
      match scan ignorecase r must_advance prev rest with
      | None => []
      | Some (g, (prev', rest')) =>
          g :: findall_loop fuel' ignorecase r (negb (truthy g)) prev' rest'
      end
  end.

Definition findall (ignorecase : bool) (r : regex) (text : string)
    : list string :=
  findall_loop (2 * String.length text + 2) ignorecase r false None text.

End Re.

(* ================================================================== *)
(** * class ResumeParser *)
(* ================================================================== *)

Module ResumeParser.
Import Py.
Local Open Scope py_scope.

(** [self.skills_database], in insertion order. *)
Definition skills_database : list (string * list string) :=
  [ ("programming_languages",
     ["Python"; "JavaScript"; "Java"; "C++"; "C#"; "PHP"; "Ruby"; "Go";
      "Swift"; "Kotlin"; "TypeScript"; "Scala"; "R"; "MATLAB"; "Perl"; "Rust";
      "Dart"; "Objective-C"; "C"; "VB.NET"; "F#"; "Haskell"; "Clojure";
      "Erlang"; "Elixir"; "Lua"; "Shell"; "Bash"]);
    ("web_technologies",
     ["React"; "Angular"; "Vue.js"; "Node.js"; "Express.js"; "Django"; "Flask";
      "Spring"; "ASP.NET"; "Laravel"; "Ruby on Rails"; "jQuery"; "Bootstrap";
      "Tailwind CSS"; "HTML5"; "CSS3"; "SASS"; "LESS"; "Webpack"; "Vite";
      "Next.js"; "Nuxt.js"; "Svelte"; "Ember.js"; "Backbone.js"; "Redux";
      "MobX"; "GraphQL"; "REST API"]);
    ("databases",
     ["MySQL"; "PostgreSQL"; "MongoDB"; "SQLite"; "Redis"; "Oracle";
      "SQL Server"; "Cassandra"; "DynamoDB"; "Firebase"; "Elasticsearch";
      "Neo4j"; "CouchDB"; "MariaDB"; "Amazon RDS"; "Google Cloud SQL";
      "Azure SQL Database"]);
    ("cloud_platforms",
     ["AWS"; "Azure"; "Google Cloud Platform"; "GCP"; "Digital Ocean";
      "Heroku"; "Vercel"; "Netlify"; "Firebase"; "Supabase"; "PlanetScale";
      "Railway"]);
    ("devops_tools",
     ["Docker"; "Kubernetes"; "Jenkins"; "Git"; "GitHub"; "GitLab";
      "Bitbucket"; "CI/CD"; "Terraform"; "Ansible"; "Chef"; "Puppet"; "Nginx";
      "Apache"; "Linux"; "Ubuntu"; "CentOS"; "RedHat"; "Vagrant"; "CircleCI";
      "Travis CI"]);
    ("data_science_ml",
     ["Machine Learning"; "Deep Learning"; "TensorFlow"; "PyTorch";
      "Scikit-learn"; "Pandas"; "NumPy"; "Matplotlib"; "Seaborn"; "Jupyter";
      "Tableau"; "Power BI"; "Apache Spark"; "Hadoop"; "Kafka"; "Airflow";
      "MLflow"; "Kubeflow"; "OpenCV"; "NLTK"; "spaCy"; "Hugging Face";
      "Computer Vision"; "NLP"]);
    ("soft_skills",
     ["Leadership"; "Team Management"; "Communication"; "Problem Solving";
      "Critical Thinking"; "Analytical Skills"; "Creativity"; "Adaptability";
      "Time Management"; "Strategic Planning"; "Negotiation"; "Presentation";
      "Training"; "Mentoring"; "Customer Service"; "Sales"; "Marketing"]) ].

Definition job_keywords : list string :=
  ["experienced"; "certified"; "expert"; "specialist"; "manager"; "developer";
   "engineer"; "architect"; "analyst"; "consultant"; "lead"; "senior";
   "junior"; "professional"; "agile"; "scrum"; "project"; "team"; "client";
   "business"; "technical"; "solution"; "implementation"; "development";
   "design"; "analysis"].

(** [self.all_skills]: every category's list, one after the other. *)
Definition all_skills : list string := flat_map snd skills_database.

(** ** The patterns *)

(** [\b[A-Za-z0-9._%+-]+@[A-Za-z0-9.-]+\.[A-Z|a-z]{2,}\b] *)
Definition email_pattern : Re.regex :=
  Re.seq
    [ Re.WordB;
      Re.plus (Re.cls [Re.range "A" "Z"; Re.range "a" "z"; Re.range "0" "9";
                       Re.chars "._%+-"]);
      Re.Chr "@";
      Re.plus (Re.cls [Re.range "A" "Z"; Re.range "a" "z"; Re.range "0" "9";
                       Re.chars ".-"]);
      Re.Chr ".";
      Re.rep_min 2 (Re.cls [Re.range "A" "Z"; Re.chars "|";
                            Re.range "a" "z"]);
      Re.WordB ].

Definition digit09 : Re.regex := Re.cls [Re.range "0" "9"].
Definition separator : Re.regex := Re.cls [Re.chars "-."; isspace].

(** [(\+?1?[-.\s]?)?\(?[0-9]{3}\)?[-.\s]?[0-9]{3}[-.\s]?[0-9]{4}] and
    [\b\d{3}[-.]?\d{3}[-.]?\d{4}\b] *)
Definition phone_patterns : list Re.regex :=
  [ Re.seq
      [ Re.opt (Re.seq [Re.opt (Re.Chr "+"); Re.opt (Re.Chr "1");
                        Re.opt separator]);
        Re.opt (Re.Chr "("); Re.rep 3 digit09; Re.opt (Re.Chr ")");
        Re.opt separator; Re.rep 3 digit09; Re.opt separator;
        Re.rep 4 digit09 ];
    Re.seq
      [ Re.WordB; Re.rep 3 Re.d; Re.opt (Re.cls [Re.chars "-."]);
        Re.rep 3 Re.d; Re.opt (Re.cls [Re.chars "-."]); Re.rep 4 Re.d;
        Re.WordB ] ].

(** [linkedin\.com/in/[\w-]+] *)
Definition linkedin_pattern : Re.regex :=
  Re.seq [ Re.lit "linkedin.com/in/";
           Re.plus (Re.cls [isword; Re.chars "-"]) ].

(** [\d{3}] *)
Definition three_digits : Re.regex := Re.rep 3 Re.d.

(** [\b] + the escaped text + [\b] *)
Definition whole_word (text : string) : Re.regex :=
  Re.seq [Re.WordB; Re.escape text; Re.WordB].

(** [\b(w1|w2|...)\b] *)
Definition any_word (words : list string) : Re.regex :=
  Re.seq [Re.WordB; Re.alt (map Re.lit words); Re.WordB].

(** [\b(experience|employment|work history)\b] *)
Definition experience_header : Re.regex :=
  any_word ["experience"; "employment"; "work history"].

(** [\b(education|skills|certifications)\b] *)
Definition experience_stop : Re.regex :=
  any_word ["education"; "skills"; "certifications"].

(** [\b(\d{4}|\w+\s*(Inc|LLC|Corp|Company|Ltd))\b] *)
Definition entry_boundary : Re.regex :=
  Re.seq
    [ Re.WordB;
      Re.alt [ Re.rep 4 Re.d;
               Re.seq [ Re.plus Re.w; Re.Star Re.s;
                        Re.alt (map Re.lit
                                  ["Inc"; "LLC"; "Corp"; "Company"; "Ltd"]) ] ];
      Re.WordB ].

(** [\b(Bachelor|Master|PhD|Ph\.D|MBA|Associate|Diploma)\b] and
    [\b(B\.S\.|B\.A\.|M\.S\.|M\.A\.|B\.E\.|B\.Tech|M\.Tech)\b] *)
Definition degree_patterns : list Re.regex :=
  [ any_word ["Bachelor"; "Master"; "PhD"; "Ph.D"; "MBA"; "Associate";
              "Diploma"];
    any_word ["B.S."; "B.A."; "M.S."; "M.A."; "B.E."; "B.Tech"; "M.Tech"] ].

(** [\beducation\b] *)
Definition education_header : Re.regex := any_word ["education"].

(** [\b(experience|skills|certifications|projects)\b] *)
Definition education_stop : Re.regex :=
  any_word ["experience"; "skills"; "certifications"; "projects"].

(** [\b[a-z]+\b] *)
Definition word_pattern : Re.regex :=
  Re.seq [Re.WordB; Re.plus (Re.cls [Re.range "a" "z"]); Re.WordB].

(** ** The extractors *)

(** The dict [contact_info]; a key that is not set is [None]. *)
Record contact_info : Type := {
  email : option string;
  phone : option string;
  linkedin : option string;
  name : option string
}.

(** The loop over [phone_patterns]: the first pattern that matches. *)
Fixpoint first_phone (patterns : list Re.regex) (text : string)
    : option string :=
  match patterns with
  | [] => None
  | pattern :: patterns' =>
      match Re.search false pattern text with
      | Some g => Some g
      | None => first_phone patterns' text
      end
  end.

(** [[line.strip() for line in text.split('\n') if line.strip()]] *)
Definition stripped_lines (text : string) : list string :=
  map strip (filter (fun line => truthy (strip line)) (split "010" text)).

(** The loop over [lines[:5]] that looks for the name. *)
Fixpoint find_name (lines : list string) : result (option string) :=
  match lines with
  | [] => ret None
  | line :: lines' =>
      if existsb (fun header => contains header (lower line))
                 ["objective"; "summary"; "experience"; "education"]
      then find_name lines'
      else if (has_char "@" line
               || Re.found (Re.search false three_digits line))%bool
      then find_name lines'
      else if (Nat.leb (List.length (split_ws line)) 4
               && Nat.ltb (String.length line) 50)%bool
      then c <- first_char line ;;
           if isupper c then ret (Some line) else find_name lines'
      else find_name lines'
  end.

Definition extract_contact_info (text : string) : result contact_info :=
  let email_match := Re.search false email_pattern text in
  let phone_match := first_phone phone_patterns text in
  let linkedin_match := Re.search true linkedin_pattern text in
  let lines := stripped_lines text in
  name_found <- find_name (firstn 5 lines) ;;
  ret {| email := email_match;
         phone := phone_match;
         linkedin := linkedin_match;
         name := name_found |}.

(** The state of the loop of [extract_experience]. *)
Record experience_state : Type := {
  exp_started : bool;
  current_exp : list string;
  experience : list string
}.

(** The loop of [extract_experience]; the result is the state at the end
    of the loop, by exhaustion or by [break]. *)
Fixpoint experience_loop (lines : list string) (st : experience_state)
    : experience_state :=
  match lines with
  | [] => st
  | line :: lines' =>
      let line := strip line in
      if negb (truthy line) then experience_loop lines' st
      else if Re.found (Re.search true experience_header line)
      then experience_loop lines'
             {| exp_started := true;
                current_exp := current_exp st;
                experience := experience st |}
      else if (exp_started st
               && Re.found (Re.search true experience_stop line))%bool
      then st
      else if exp_started st then
        if Re.found (Re.search false entry_boundary line) then
          match current_exp st with
          | _ :: _ =>
              experience_loop lines'
                {| exp_started := exp_started st;
                   current_exp := [line];
                   experience :=
                     experience st ++ [join " " (current_exp st)] |}
          | [] =>
              experience_loop lines'
                {| exp_started := exp_started st;
                   current_exp := current_exp st ++ [line];
                   experience := experience st |}
          end
        else
          match current_exp st with
          | _ :: _ =>
              experience_loop lines'
                {| exp_started := exp_started st;
                   current_exp := current_exp st ++ [line];
                   experience := experience st |}
          | [] => experience_loop lines' st
          end
      else experience_loop lines' st
  end.

Definition extract_experience (text : string) : list string :=
  let lines := split "010" text in
  let st := experience_loop lines
              {| exp_started := false; current_exp := [];
                 experience := [] |} in
  let experience :=
    match current_exp st with
    | _ :: _ => experience st ++ [join " " (current_exp st)]
    | [] => experience st
    end in
  firstn 5 experience.

Definition edu_keywords : list string :=
  ["university"; "college"; "institute"; "school"; "academy"].

(** [any(re.search(pattern, line, re.IGNORECASE)
         for pattern in degree_patterns)] *)
Definition has_degree (line : string) : bool :=
  existsb (fun pattern => Re.found (Re.search true pattern line))
          degree_patterns.

(** The loop of [extract_education], on the state
    [(edu_started, education)]. *)
Fixpoint education_loop (lines : list string) (edu_started : bool)
    (education : list string) : list string :=
  match lines with
  | [] => education
  | line :: lines' =>
      let line := strip line in
      if negb (truthy line) then education_loop lines' edu_started education
      else if Re.found (Re.search true education_header line)
      then education_loop lines' true education
      else if (edu_started
               && Re.found (Re.search true education_stop line))%bool
      then education
      else if (edu_started || has_degree line)%bool then
        if (existsb (fun keyword => contains keyword (lower line))
                    edu_keywords
            || has_degree line)%bool
        then education_loop lines' edu_started (education ++ [line])
        else education_loop lines' edu_started education
      else education_loop lines' edu_started education
  end.

Definition extract_education (text : string) : list string :=
  let lines := split "010" text in
  firstn 3 (education_loop lines false []).

(** [collections.Counter]: the counts, keyed in first-insertion order. *)
Fixpoint counter_add (word : string) (counts : list (string * Z))
    : list (string * Z) :=
  match counts with
  | [] => [(word, 1%Z)]
  | (k, n) :: counts' =>
      if String.eqb k word then (k, (n + 1)%Z) :: counts'
      else (k, n) :: counter_add word counts'
  end.

Definition Counter (words : list string) : list (string * Z) :=
  fold_left (fun counts word => counter_add word counts) words [].

(** [Counter.most_common(n)]: the [n] largest counts, ties in
    first-insertion order, as [sorted(..., reverse=True)[:n]]. *)
Definition most_common (n : nat) (counts : list (string * Z))
    : list (string * Z) :=
  firstn n (sort_desc snd counts).

(** The test of the loop of [extract_keywords] on one word. *)
Definition relevant (word : string) : bool :=
  if (mem word job_keywords && Nat.ltb 3 (String.length word))%bool
  then true
  else mem word (map lower all_skills).

Definition extract_keywords (text : string)
    : list JobFieldRecommender.keyword :=
  let text_lower := lower text in
  let words := Re.findall false word_pattern text_lower in
  let relevant_words := filter relevant words in
  let word_freq := Counter relevant_words in
  map (fun '(word, count) =>
         {| JobFieldRecommender.word := title word;
            JobFieldRecommender.count := count |})
      (most_common 20 word_freq).

(** The skills found, before [list(set(found_skills))]. *)
Definition found_skills (text : string) : list string :=
  let text_lower := lower text in
  filter (fun skill =>
            Re.found (Re.search false (whole_word (lower skill)) text_lower))
         all_skills.

(** ** [parse_resume] *)

(** The dict returned by [parse_resume]. *)
Record parsed : Type := {
  p_contact_info : contact_info;
  p_skills : list string;
  p_experience : list string;
  p_education : list string;
  p_keywords : list JobFieldRecommender.keyword;
  p_raw_text : string
}.

(** The five extractor methods [parse_resume] reaches through [self]. *)
Inductive extractor : Type :=
| ContactInfo | Skills | Experience | Education | Keywords.

Record methods : Type := {
  call_contact_info : string -> result contact_info;
  call_skills : string -> result (list string);
  call_experience : string -> result (list string);
  call_education : string -> result (list string);
  call_keywords : string -> result (list JobFieldRecommender.keyword)
}.

(** A computation that also records, in call order, which extractors
    were entered. *)
Definition traced (A : Type) : Type :=
  list extractor -> result A * list extractor.

Definition t_ret {A} (x : A) : traced A := fun log => (ret x, log).
Definition t_raise {A} (e : exn) : traced A := fun log => (raise e, log).
Definition t_lift {A} (c : result A) : traced A := fun log => (c, log).
Definition t_bind {A B} (c : traced A) (f : A -> traced B) : traced B :=
  fun log =>
    match c log with
    | (inl e, log') => (inl e, log')
    | (inr x, log') => f x log'
    end.

(** Entering the extractor [x]. *)
Definition call {A} (x : extractor) (c : result A) : traced A :=
  fun log => (c, log ++ [x]).

Section Environment.

(** The order in which [list(set(...))] lists the elements of a set is
    not fixed by the language. *)
Variable list_of_set : list string -> list string.

(** The readers [extract_text_from_pdf], [extract_text_from_docx] and
    [extract_text_from_txt] reach the file system and the libraries
    PyPDF2 and python-docx; each returns the text of the file or raises
    a [ValueError]. *)
Variable extract_text_from_pdf : string -> result string.
Variable extract_text_from_docx : string -> result string.
Variable extract_text_from_txt : string -> result string.

Definition extract_skills (text : string) : list string :=
  list_of_set (found_skills text).

(** [ResumeParser()], the object whose methods are the functions
    above. *)
Definition parser : methods :=
  {| call_contact_info := extract_contact_info;
     call_skills := fun text => ret (extract_skills text);
     call_experience := fun text => ret (extract_experience text);
     call_education := fun text => ret (extract_education text);
     call_keywords := fun text => ret (extract_keywords text) |}.

(** The first statements of [parse_resume]: the reader is chosen by the
    extension of [filename]. *)
Definition read_text (file_path filename : string) : result string :=
  file_extension <- last_item (split "." (lower filename)) ;;
  if String.eqb file_extension "pdf" then extract_text_from_pdf file_path
  else if mem file_extension ["docx"; "doc"]
  then extract_text_from_docx file_path
  else if String.eqb file_extension "txt"
  then extract_text_from_txt file_path
  else raise (ValueError ("Unsupported file format: " ++ file_extension)).

(** [parse_resume(self, file_path, filename)].  The values of the dict
    are evaluated in the order in which they are written. *)
Definition parse_resume (self : methods) (file_path filename : string)
    : traced parsed :=
  t_bind (t_lift (read_text file_path filename)) (fun text =>
  if negb (truthy (strip text))
  then t_raise (ValueError "Could not extract text from file")
  else
    t_bind (call ContactInfo (call_contact_info self text)) (fun c =>
    t_bind (call Skills (call_skills self text)) (fun s =>
    t_bind (call Experience (call_experience self text)) (fun x =>
    t_bind (call Education (call_education self text)) (fun e =>
    t_bind (call Keywords (call_keywords self text)) (fun k =>
    t_ret {| p_contact_info := c;
             p_skills := s;
             p_experience := x;
             p_education := e;
             p_keywords := k;
             p_raw_text := take 1000 text |})))))).

End Environment.

End ResumeParser.

(* ================================================================== *)
(** * Definitions used by the statements and the proofs *)
(* ================================================================== *)

Module Counts.
Import Py JobFieldRecommender.
Local Open Scope py_scope.

(** [share] added [n] times, one addition after the other. *)
Fixpoint add_times (n : nat) (share acc : Float.float) : Float.float :=
  match n with
  | O => acc
  | S n' => add_times n' share (Float.add acc share)
  end.

(** How many of [items] are in [user]. *)
Definition hits (user items : list string) : nat :=
  List.length (filter (fun item => mem item user) items).

(** One loop of [calculate_match_score] over [n] items of which [k] are
    matched. *)
Definition half (points : Z) (n k : nat) (st : Float.float * Float.float)
    : result (Float.float * Float.float) :=
  match n with
  | O => ret st
  | S _ =>
      share <- Float.int_truediv points (Z.of_nat n) ;;
      ret (add_times k share (fst st), add_times n share (snd st))
  end.

(** What [calculate_match_score] does after its two loops. *)
Definition finish (st : Float.float * Float.float) : result Z :=
  let '(score, max_score) := st in
  percentage <-
    (if Float.gt max_score Float.zero
     then q <- Float.div score max_score ;;
          ret (Float.mul q (Float.of_int 100))
     else ret Float.zero) ;;
  rounded <- Float.round percentage ;;
  ret (Z.min rounded 100).

(** The score of a field with [n] skills and [m] keywords of which [k]
    and [j] are matched. *)
Definition score_of_counts (n m k j : nat) : result Z :=
  st <- half 60 n k (Float.zero, Float.zero) ;;
  st <- half 40 m j st ;;
  finish st.

Definition is_100 (r : result Z) : bool :=
  match r with
  | inr s => (s =? 100)%Z
  | inl _ => false
  end.

(** [self.job_fields[name]] *)
Fixpoint lookup (name : string) (fields : list (string * job_field))
    : option job_field :=
  match fields with
  | [] => None
  | (k, v) :: fields' => if String.eqb k name then Some v else lookup name fields'
  end.

End Counts.

Module Scenario.
Import Py JobFieldRecommender.
Local Open Scope py_scope.

(** [lo/100 < x < hi/100] *)
Definition within_hundredths (lo hi : Z) (x : Float.float) : bool :=
  (SFltb (SFdiv Float.prec Float.emax (Float.exact lo) (Float.exact 100)) x
   && SFltb x (SFdiv Float.prec Float.emax (Float.exact hi)
                 (Float.exact 100)))%bool.

(** The state [(score, max_score)] after the first loop of
    [calculate_match_score], the one over the skills. *)
Definition after_skills (user_skills : list string) (fd : job_field)
    : result (Float.float * Float.float) :=
  accumulate 60 (map lower (skills fd)) (map lower user_skills)
             (map lower (skills fd)) (Float.zero, Float.zero).

(** The state after the second loop, the one over the keywords. *)
Definition after_keywords (user_keywords : list keyword) (fd : job_field)
    (st : Float.float * Float.float)
    : result (Float.float * Float.float) :=
  accumulate 40 (map lower (keywords fd))
             (map (fun k => lower (word k)) user_keywords)
             (map lower (keywords fd)) st.

Definition no_field : job_field :=
  {| skills := []; keywords := []; weight := one |}.

(** [self.job_fields[name]] for a name that is a key. *)
Definition field_named (name : string) : job_field :=
  match Counts.lookup name job_fields with
  | Some fd => fd
  | None => no_field
  end.

Definition software_engineer : job_field := field_named "Software Engineer".
Definition mobile_developer : job_field := field_named "Mobile Developer".

(** A candidate who has every skill and every keyword of the Mobile
    Developer field, in other cases. *)
Definition mobile_skills : list string :=
  ["swift"; "KOTLIN"; "React Native"; "Flutter"; "iOS"; "Android"; "Java";
   "Objective-C"; "Xcode"; "Android Studio"; "API"; "Firebase"; "SQLite";
   "Python"].
Definition mobile_keywords : list keyword :=
  [ {| word := "Mobile"; count := 3 |}; {| word := "Ios"; count := 2 |};
    {| word := "Android"; count := 2 |}; {| word := "App"; count := 1 |};
    {| word := "Application"; count := 1 |};
    {| word := "Native"; count := 1 |};
    {| word := "CROSS-PLATFORM"; count := 1 |} ].

(** A field that defines no skill. *)
Definition keywords_only : job_field :=
  {| skills := []; keywords := ["qa"; "testing"]; weight := one |}.

End Scenario.

Module Lang.
Import Py Re.

(** The texts a pattern can match, whatever stands around them. *)
Inductive matches (ignorecase : bool) : regex -> string -> Prop :=
| M_Eps : matches ignorecase Eps EmptyString
| M_Chr c x :
    chr_match ignorecase c x = true ->
    matches ignorecase (Chr c) (String x EmptyString)
| M_Cls p x :
    cls_match ignorecase p x = true ->
    matches ignorecase (Cls p) (String x EmptyString)
| M_Seq r1 r2 s1 s2 :
    matches ignorecase r1 s1 -> matches ignorecase r2 s2 ->
    matches ignorecase (Seq r1 r2) (s1 ++ s2)
| M_AltL r1 r2 s1 :
    matches ignorecase r1 s1 -> matches ignorecase (Alt r1 r2) s1
| M_AltR r1 r2 s2 :
    matches ignorecase r2 s2 -> matches ignorecase (Alt r1 r2) s2
| M_Star0 r : matches ignorecase (Star r) EmptyString
| M_StarS r s1 s2 :
    matches ignorecase r s1 -> matches ignorecase (Star r) s2 ->
    matches ignorecase (Star r) (s1 ++ s2)
| M_WordB : matches ignorecase WordB EmptyString.

(** Every character of [s] satisfies [p]. *)
Fixpoint all_chars (p : ascii -> bool) (s : string) : bool :=
  match s with
  | EmptyString => true
  | String c s' => (p c && all_chars p s')%bool
  end.

(** A letter of the basic alphabet, of either case. *)
Definition isletter (c : ascii) : bool := (is_az c || is_AZ c)%bool.

(** A non-empty run of the letters [a] to [z]. *)
Definition az_word (s : string) : Prop :=
  s <> EmptyString /\ all_chars is_az s = true.

End Lang.

Module Samples.
Import Py ResumeParser.

(** A reader that finds the given text in every file. *)
Definition reads (text : string) : string -> result string :=
  fun _ => ret text.

(** A reader for a format whose library is not installed. *)
Definition unsupported : string -> result string :=
  fun _ => raise (ValueError "support not available").

(** The text of the experience scenario. *)
Definition work_history : string :=
  "Work History
Software Engineer at Acme Inc 2019-2021
Built backend services
Education
BS Computer Science".

(** The same text up to the end of its education line. *)
Definition work_history_head : string :=
  "Work History
Software Engineer at Acme Inc 2019-2021
Built backend services
Education
".

(** A parser object whose skill extractor raises. *)
Definition failing_skills : methods :=
  {| call_contact_info := extract_contact_info;
     call_skills := fun _ => raise (Exception "skills");
     call_experience := fun text => ret (extract_experience text);
     call_education := fun text => ret (extract_education text);
     call_keywords := fun text => ret (extract_keywords text) |}.

(** The five extractors in the order [parse_resume] calls them. *)
Definition all_extractors : list extractor :=
  [ContactInfo; Skills; Experience; Education; Keywords].

End Samples.

Module Binary64.
Local Open Scope Z_scope.

(** The bits [(r, s)] of a location. *)
Definition loc_r (l : location) : bool :=
  match l with
  | loc_Inexact Eq | loc_Inexact Gt => true
  | _ => false
  end.

Definition loc_s (l : location) : bool :=
  match l with
  | loc_Inexact Lt | loc_Inexact Gt => true
  | _ => false
  end.

(** Round to nearest, ties to even, from the two bits. *)
Definition rne (q : Z) (r s : bool) : Z :=
  if r && (s || Z.odd q) then q + 1 else q.

(** The first shift of [binary_round_aux]. *)
Definition shifted (mx ex : Z) (l : location) : Z * bool * bool * Z :=
  let sh := SpecFloat.fexp 53 1024 (Zdigits2 mx + ex) - ex in
  if 0 <? sh
  then (mx / 2 ^ sh, Z.odd (mx / 2 ^ (sh - 1)),
        negb (mx mod 2 ^ (sh - 1) =? 0) || (loc_r l || loc_s l), ex + sh)
  else (mx, loc_r l, loc_s l, ex).

Definition finish_round (m3 e3 : Z) : spec_float :=
  match m3 with
  | Z0 => S754_zero false
  | Zpos p => if e3 <=? 971 then S754_finite false p e3
              else S754_infinity false
  | Zneg _ => S754_nan
  end.

(** The number of binary digits of a non-negative integer. *)
Definition digits (m : Z) : Z := Zdigits2 m.

(** A finite float that is not negative, with its value counted in units
    of [2^-1074], the smallest positive float. *)
Definition repr (f : spec_float) (N : Z) : Prop :=
  match f with
  | S754_zero false => N = 0
  | S754_finite false m e =>
      -1074 <= e /\ Z.pos m < 2 ^ 53 /\ N = Z.pos m * 2 ^ (e + 1074)
  | _ => False
  end.

(** The rounded value, in units, of [binary_round_aux]. *)
Definition rounded (mx ex : Z) (l : location) : Z :=
  let '(q, r, s, e') := shifted mx ex l in
  rne q r s * 2 ^ (e' + 1074).

(** Rounding to nearest, ties to even, of a value counted in units of
    [2^-1074]: the 53 leading binary digits are kept. *)
Definition rnd (N : Z) : Z :=
  let sh := digits N - 53 in
  if 0 <? sh then
    let q := N / 2 ^ sh in
    let rem := N mod 2 ^ sh in
    let half := 2 ^ (sh - 1) in
    (if (half <? rem) || ((half =? rem) && Z.odd q) then q + 1 else q)
    * 2 ^ sh
  else N.

End Binary64.

From Stdlib Require Import DecimalString.

(* ================================================================== *)
(** * Counting characters in the texts of a pattern *)
(* ================================================================== *)

Module Bounds.
Import Py Re.

(** The 256 characters. *)
Definition all_ascii : list ascii := map ascii_of_nat (List.seq 0 256).

(** Every character that passes [test] satisfies [q]. *)
Definition all_in (test q : ascii -> bool) : bool :=
  forallb (fun x => implb (test x) (q x)) all_ascii.

(** No character that passes [test] satisfies [q]. *)
Definition none_in (test q : ascii -> bool) : bool :=
  forallb (fun x => negb (test x && q x)) all_ascii.

(** How many characters of [s] satisfy [q]. *)
Fixpoint count (q : ascii -> bool) (s : string) : nat :=
  match s with
  | EmptyString => O
  | String c s' => ((if q c then 1 else 0) + count q s')%nat
  end.

(** A number of characters satisfying [q] that every text of the pattern
    reaches. *)
Fixpoint at_least (ignorecase : bool) (q : ascii -> bool) (r : regex) : nat :=
  match r with
  | Eps => 0
  | Chr c => if all_in (chr_match ignorecase c) q then 1 else 0
  | Cls p => if all_in (cls_match ignorecase p) q then 1 else 0
  | Seq r1 r2 => at_least ignorecase q r1 + at_least ignorecase q r2
  | Alt r1 r2 => Nat.min (at_least ignorecase q r1) (at_least ignorecase q r2)
  | Star _ => 0
  | WordB => 0
  end.

(** A number of characters satisfying [q] that no text of the pattern
    exceeds, when there is one. *)
Fixpoint at_most (ignorecase : bool) (q : ascii -> bool) (r : regex)
    : option nat :=
  match r with
  | Eps => Some 0
  | Chr c => Some (if none_in (chr_match ignorecase c) q then 0 else 1)
  | Cls p => Some (if none_in (cls_match ignorecase p) q then 0 else 1)
  | Seq r1 r2 =>
      match at_most ignorecase q r1, at_most ignorecase q r2 with
      | Some n1, Some n2 => Some (n1 + n2)
      | _, _ => None
      end
  | Alt r1 r2 =>
      match at_most ignorecase q r1, at_most ignorecase q r2 with
      | Some n1, Some n2 => Some (Nat.max n1 n2)
      | _, _ => None
      end
  | Star r1 =>
      match at_most ignorecase q r1 with
      | Some O => Some 0
      | _ => None
      end
  | WordB => Some 0
  end.

(** The last character of a text, the one a [\b] after it looks at. *)
Fixpoint last_char (s : string) : option ascii :=
  match s with
  | EmptyString => None
  | String c EmptyString => Some c
  | String _ s' => last_char s'
  end.

(** The character before the position reached after [s], when the one
    before [s] is [prev]. *)
Definition prev_after (prev : option ascii) (s : string) : option ascii :=
  match last_char s with
  | Some c => Some c
  | None => prev
  end.

(** [s[n:]] *)
Fixpoint drop (n : nat) (s : string) : string :=
  match n, s with
  | O, _ => s
  | S n', String _ s' => drop n' s'
  | S _, EmptyString => EmptyString
  end.

(** [text] is [before ++ part ++ after]: an occurrence of [part]. *)
Definition occurs (before part after text : string) : Prop :=
  text = (before ++ part ++ after)%string.

(** An occurrence of [part] with a [\b] on each side of it. *)
Definition whole_word_at (before part after : string) : Prop :=
  at_boundary (last_char before) (part ++ after)%string = true
  /\ at_boundary (last_char (before ++ part)%string) after = true.

End Bounds.

(* ================================================================== *)
(** * The scores of a field, by the numbers of matches *)
(* ================================================================== *)

Module Grid.
Import Py JobFieldRecommender Counts.

(** Both scores are computed and the first is not above the second. *)
Definition not_above (a b : result Z) : bool :=
  match a, b with
  | inr x, inr y => (x <=? y)%Z
  | _, _ => false
  end.

(** Each element of the list and the next one are in the relation. *)
Fixpoint chain {A} (R : A -> A -> bool) (l : list A) : bool :=
  match l with
  | a :: ((b :: _) as rest) => (R a b && chain R rest)%bool
  | _ => true
  end.

(** The elements at the same place of two lists are in the relation. *)
Fixpoint all2 {A} (R : A -> A -> bool) (l1 l2 : list A) : bool :=
  match l1, l2 with
  | a :: l1', b :: l2' => (R a b && all2 R l1' l2')%bool
  | _, _ => true
  end.

(** The scores of a field with [n] skills and [m] keywords: one row for
    each number of matched skills, one column for each number of matched
    keywords. *)
Definition scores (n m : nat) : list (list (result Z)) :=
  map (fun k => map (fun j => score_of_counts n m k j) (List.seq 0 (S m)))
      (List.seq 0 (S n)).

(** From any numbers of matched skills and keywords, one more matched
    keyword, or one more matched skill, does not lower the score. *)
Definition steps_up (n m : nat) : bool :=
  let rows := scores n m in
  (forallb (chain not_above) rows && chain (all2 not_above) rows)%bool.

End Grid.

(* ================================================================== *)
(** * The route [/api/upload] *)
(* ================================================================== *)

Module Routes.
Import Py.
Local Open Scope py_scope.

(** An answer that ends the request with an error: the [error] of the
    JSON body and the HTTP status. *)
Record rejection : Type := {
  error : string;
  status : Z
}.

(** The set [allowed_extensions]. *)
Definition allowed_extensions : list string := ["pdf"; "docx"; "doc"; "txt"].

Section Upload.

Variable list_of_set : list string -> list string.
Variable extract_text_from_pdf : string -> result string.
Variable extract_text_from_docx : string -> result string.
Variable extract_text_from_txt : string -> result string.

(** The checks [upload_resume] makes before it saves the file.  [file] is
    the name of [request.files['file']], [None] when the request has no
    such part.  The result is the answer that ends the request, [None]
    when the upload goes on. *)
Definition upload_checks (file : option string) : result (option rejection) :=
  match file with
  | None => ret (Some {| error := "No file provided"; status := 400 |})
  | Some filename =>
      if String.eqb filename ""
      then ret (Some {| error := "No file selected"; status := 400 |})
      else
        file_extension <- last_item (split "." (lower filename)) ;;
        if negb (mem file_extension allowed_extensions)
        then ret (Some {| error :=
                            "Invalid file type. Allowed: "
                            ++ join ", " (list_of_set allowed_extensions);
                          status := 400 |})
        else ret None
  end.

(** [' '.join(parsed_data['experience']) if parsed_data['experience']
    else ''] *)
Definition experience_text (parsed_data : ResumeParser.parsed) : string :=
  match ResumeParser.p_experience parsed_data with
  | [] => ""
  | _ :: _ => join " " (ResumeParser.p_experience parsed_data)
  end.

(** The analysis [upload_resume] runs on the saved file: the resume is
    parsed under the name the file was uploaded with, then the fields
    are ranked. *)
Definition analyse (file_path original_filename : string)
    : ResumeParser.traced
        (ResumeParser.parsed * list JobFieldRecommender.recommendation) :=
  ResumeParser.t_bind
    (ResumeParser.parse_resume
       extract_text_from_pdf extract_text_from_docx extract_text_from_txt
       (ResumeParser.parser list_of_set) file_path original_filename)
    (fun parsed_data =>
  ResumeParser.t_bind
    (ResumeParser.t_lift
       (JobFieldRecommender.get_job_recommendations
          (ResumeParser.p_skills parsed_data)
          (ResumeParser.p_keywords parsed_data)
          (experience_text parsed_data)))
    (fun job_recommendations =>
  ResumeParser.t_ret (parsed_data, job_recommendations))).

End Upload.

End Routes.

(* ================================================================== *)
(** * enhanced_ats_scraper.py: the fast scraper and [get_jobs_sync] *)
(* ================================================================== *)

Module Scraper.
Import Py.
Local Open Scope py_scope.
Local Open Scope Z_scope.

(** ** Dicts with string keys, in insertion order *)

Definition dict (V : Type) : Type := list (string * V).

(** [key in d] and [d.get(key)] *)
Fixpoint get {V} (d : dict V) (key : string) : option V :=
  match d with
  | [] => None
  | (k, v) :: d' => if String.eqb k key then Some v else get d' key
  end.

(** [d.get(key, default)] *)
Definition get_or {V} (d : dict V) (key : string) (default : V) : V :=
  match get d key with
  | Some v => v
  | None => default
  end.

(** [d[key]] *)
Definition item {V} (d : dict V) (key : string) : result V :=
  match get d key with
  | Some v => ret v
  | None => raise (Exception "KeyError")
  end.

(** [d[key] = v]: the value of a key that is there is replaced, a new
    key comes last. *)
Fixpoint set {V} (d : dict V) (key : string) (v : V) : dict V :=
  match d with
  | [] => [(key, v)]
  | (k, x) :: d' =>
      if String.eqb k key then (k, v) :: d' else (k, x) :: set d' key v
  end.

(** ** Strings and lists *)

(** An [int] in an f-string. *)
Definition str_of_int (z : Z) : string := NilZero.string_of_int (Z.to_int z).

(** [s.replace(old, new)] for a non-empty [old]: the occurrences of
    [old] are replaced from left to right, without overlap.  [skip] is
    the number of characters of [s] that still belong to the occurrence
    just replaced. *)
Fixpoint replace_from (old new : string) (skip : nat) (s : string) : string :=
  match s with
  | EmptyString => EmptyString
  | String c s' =>
      match skip with
      | S skip' => replace_from old new skip' s'
      | O =>
          if startswith old s
          then (new ++ replace_from old new (String.length old - 1) s')%string
          else String c (replace_from old new 0 s')
      end
  end.

Definition replace (old new s : string) : string := replace_from old new 0 s.

(** [l[:n]] for an int [n]: a negative [n] counts from the end. *)
Definition slice_to {A} (n : Z) (l : list A) : list A :=
  if 0 <=? n then firstn (Z.to_nat n) l
  else firstn (Z.to_nat (Z.of_nat (List.length l) + n)) l.

(** ** Randomness *)

(** A computation that draws from the random source and may raise: it
    is given the number of draws made so far and returns it updated. *)
Definition gen (A : Type) : Type := nat -> result (A * nat).

Definition g_ret {A} (x : A) : gen A := fun n => ret (x, n).
Definition g_lift {A} (c : result A) : gen A :=
  fun n => x <- c ;; ret (x, n).
Definition g_bind {A B} (c : gen A) (f : A -> gen B) : gen B :=
  fun n => '(x, n') <- c n ;; f x n'.

(** The loop [for x in l] over a body that draws and may raise. *)
Fixpoint g_for_each {A B} (f : A -> gen B) (l : list A) : gen (list B) :=
  match l with
  | [] => g_ret []
  | x :: l' =>
      g_bind (f x) (fun y =>
      g_bind (g_for_each f l') (fun ys => g_ret (y :: ys)))
  end.

(** ** The data *)

(** An item of [resume_data['keywords']]: a dict, with or without the
    key ['word'], or a string. *)
Inductive keyword_item : Type :=
| KeywordDict (word : option string)
| KeywordStr (s : string).

(** [resume_data]: the keys ['skills'] and ['keywords'], when they are
    there. *)
Record resume_data : Type := {
  r_skills : option (list string);
  r_keywords : option (list keyword_item)
}.

(** The dict built by [match_jobs_to_resume] for one job. *)
Record matched_job : Type := {
  j_id : string;
  j_title : string;
  j_company : string;
  j_location : string;
  j_url : string;
  j_department : string;
  j_experience_level : string;
  j_job_type : string;
  j_remote_type : string;
  j_ats_type : string;
  j_match_score : Z;
  j_matching_skills : list string;
  j_missing_skills : list string;
  j_recommendation : string
}.

(** The keyword arguments of [get_jobs_sync].  [max_jobs] is [None]
    when the argument is not given, [Some None] when it is [None]. *)
Record kwargs : Type := {
  experience_level : option string;
  location_type : option string;
  max_jobs : option (option Z)
}.

(** ** class FastATSJobScraper *)

Definition field_keywords : dict (list string) :=
  [ ("Software Engineer",
     ["software"; "engineer"; "developer"; "backend"; "frontend";
      "full stack"; "full-stack"; "swe"]);
    ("Data Scientist",
     ["data scientist"; "machine learning"; "ml engineer"; "ai";
      "data science"]);
    ("Data Engineer",
     ["data engineer"; "etl"; "pipeline"; "data platform";
      "data infrastructure"]);
    ("DevOps Engineer",
     ["devops"; "sre"; "infrastructure"; "platform engineer";
      "site reliability"]);
    ("Cloud Architect",
     ["cloud"; "architect"; "solutions architect"; "cloud engineer"]);
    ("Full Stack Developer",
     ["full stack"; "full-stack"; "fullstack"; "web developer"]);
    ("Mobile Developer",
     ["mobile"; "ios"; "android"; "react native"; "flutter"]);
    ("Machine Learning Engineer",
     ["machine learning"; "ml engineer"; "deep learning"; "ai engineer"]);
    ("Business Analyst",
     ["business analyst"; "business intelligence"; "bi analyst";
      "data analyst"]);
    ("QA Engineer",
     ["qa"; "quality"; "test"; "sdet"; "automation engineer"]) ].

Definition is_relevant_job (job_title job_field : string) : bool :=
  let title_lower := lower job_title in
  let keywords := get_or field_keywords job_field [lower job_field] in
  existsb (fun keyword => contains keyword title_lower) keywords.

(** [self.experience_levels], in insertion order. *)
Definition experience_levels : dict (list string) :=
  [ ("entry", ["intern"; "entry"; "junior"; "associate"; "new grad";
               "graduate"; "0-2 years"]);
    ("junior", ["junior"; "associate"; "1-3 years"; "2-4 years"]);
    ("mid", ["mid"; "senior"; "3-5 years"; "4-7 years"; "experienced"]);
    ("senior", ["senior"; "lead"; "principal"; "staff"; "5+ years";
                "7+ years"]);
    ("executive", ["director"; "vp"; "head of"; "chief"; "executive";
                   "manager"]) ].

(** The loop of [extract_experience_level] over the levels that are
    left. *)
Fixpoint first_level (levels : dict (list string)) (title_lower : string)
    : string :=
  match levels with
  | [] => "mid"
  | (level, keywords) :: levels' =>
      if existsb (fun keyword => contains keyword title_lower) keywords
      then level
      else first_level levels' title_lower
  end.

Definition extract_experience_level (job_title : string) : string :=
  let title_lower := lower job_title in
  first_level experience_levels title_lower.

(** ** class JobCache *)

Definition cache_duration : Z := 3600.

(** [self.cache]: for a job field, the jobs and the time they were
    stored at. *)
Definition cache (J : Type) : Type := dict (list J * Float.float).

(** [time.time() - timestamp < self.cache_duration] *)
Definition fresh (now timestamp : Float.float) : bool :=
  SFltb (SFsub Float.prec Float.emax now timestamp)
        (Float.of_int cache_duration).

(** [get_cached_jobs], called at the time [now]. *)
Definition get_cached_jobs {J} (self : cache J) (now : Float.float)
    (job_field : string) (max_age_hours : Z) : list J :=
  let cache_key := job_field in
  match get self cache_key with
  | Some (cached_data, timestamp) =>
      if fresh now timestamp then cached_data else []
  | None => []
  end.

(** [cache_jobs], called at the time [now]: the cache after the call. *)
Definition cache_jobs {J} (self : cache J) (now : Float.float)
    (jobs : list J) (job_field : string) : cache J :=
  let cache_key := job_field in
  set self cache_key (jobs, now).

Section Random.

(** The random source: the value behind the draw of each rank. *)
Variable entropy : nat -> Z.

(** [hash] on strings, which changes from one process to the next. *)
Variable hash : string -> Z.

(** [random.randint(a, b)], for [a <= b]: an integer from [a] to [b]. *)
Definition randint (a b : Z) : gen Z :=
  fun n => ret (a + entropy n mod (b - a + 1), S n).

(** [keyword.lower() in job_text] on the items of [resume_keywords];
    an item that is not a string has no method [lower]. *)
Fixpoint matching (job_text : string) (items : list (option string))
    : result (list string) :=
  match items with
  | [] => ret []
  | None :: _ =>
      raise (Exception "AttributeError: 'dict' object has no attribute 'lower'")
  | Some keyword :: items' =>
      rest <- matching job_text items' ;;
      ret (if contains (lower keyword) job_text then keyword :: rest
           else rest)
  end.

Definition calculate_simple_match_score (job : dict string)
    (resume_skills : list string) (resume_keywords : list (option string))
    : gen Z :=
  let score := 60 in
  let job_text :=
    lower (get_or job "title" "" ++ " " ++ get_or job "department" "")
          %string in
  let matching_skills :=
    filter (fun skill => contains (lower skill) job_text) resume_skills in
  let score := score + Z.of_nat (List.length matching_skills) * 5 in
  g_bind (g_lift (matching job_text resume_keywords))
    (fun matching_keywords =>
  let score := score + Z.of_nat (List.length matching_keywords) * 3 in
  g_bind (randint (-10) 15) (fun r =>
  let score := score + r in
  g_ret (Z.min score 100))).

(** The body of the loop of [match_jobs_to_resume]. *)
Definition match_job (resume_skills : list string)
    (resume_keywords : list (option string)) (job : dict string)
    : gen matched_job :=
  g_bind (calculate_simple_match_score job resume_skills resume_keywords)
    (fun match_score =>
  g_ret
    {| j_id :=
         get_or job "id"
           ("job_" ++ str_of_int (hash (get_or job "title" "")))%string;
       j_title := get_or job "title" "Software Engineer";
       j_company := get_or job "company" "TechCorp";
       j_location := get_or job "location" "Remote";
       j_url := get_or job "url" "https://example.com";
       j_department := get_or job "department" "Engineering";
       j_experience_level := get_or job "experience_level" "mid";
       j_job_type := get_or job "job_type" "Full-time";
       j_remote_type :=
         get_or job "remote_type"
           (if contains "remote" (lower (get_or job "location" ""))
            then "Remote" else "On-site");
       j_ats_type := get_or job "ats_type" "unknown";
       j_match_score := match_score;
       j_matching_skills :=
         filter (fun skill =>
                   contains (lower skill) (lower (get_or job "title" "")))
                (firstn 3 resume_skills);
       j_missing_skills := firstn 2 ["Docker"; "Kubernetes"; "AWS"];
       j_recommendation :=
         ((if (80 <=? match_score)%Z then "Excellent" else "Good")
          ++ " match for your skills")%string |}).

(** [k.get('word', k) if isinstance(k, dict) else k]: a string, or
    [None] for the dict itself. *)
Definition keyword_word (k : keyword_item) : option string :=
  match k with
  | KeywordDict (Some word) => Some word
  | KeywordDict None => None
  | KeywordStr s => Some s
  end.

Definition match_jobs_to_resume (jobs : list (dict string))
    (resume : resume_data) : gen (list matched_job) :=
  let resume_skills :=
    match r_skills resume with Some l => l | None => [] end in
  let resume_keywords :=
    map keyword_word
        (match r_keywords resume with Some l => l | None => [] end) in
  g_bind (g_for_each (match_job resume_skills resume_keywords) jobs)
    (fun matched_jobs =>
  g_ret (sort_desc j_match_score matched_jobs)).

(** ** [get_jobs_sync] *)

Definition base_jobs (job_field : string) : list (dict string) :=
  [ [ ("title", "Senior " ++ job_field); ("company", "Google");
      ("location", "Mountain View, CA");
      ("url", "https://careers.google.com/jobs/results/123");
      ("department", "Engineering"); ("experience_level", "senior");
      ("ats_type", "google") ];
    [ ("title", job_field ++ " - Remote"); ("company", "Stripe");
      ("location", "Remote");
      ("url", "https://stripe.com/jobs/listing/456");
      ("department", "Engineering"); ("experience_level", "mid");
      ("ats_type", "greenhouse") ];
    [ ("title", "Lead " ++ job_field); ("company", "Databricks");
      ("location", "San Francisco, CA");
      ("url", "https://databricks.com/company/careers/789");
      ("department", "Product Engineering"); ("experience_level", "senior");
      ("ats_type", "lever") ];
    [ ("title", "Junior " ++ job_field); ("company", "Airbnb");
      ("location", "Remote");
      ("url", "https://careers.airbnb.com/positions/101");
      ("department", "Engineering"); ("experience_level", "junior");
      ("ats_type", "workday") ];
    [ ("title", job_field ++ " Intern"); ("company", "Meta");
      ("location", "Menlo Park, CA");
      ("url", "https://www.metacareers.com/jobs/111");
      ("department", "AI Research"); ("experience_level", "entry");
      ("ats_type", "meta") ];
    [ ("title", "Principal " ++ job_field); ("company", "Amazon");
      ("location", "Seattle, WA");
      ("url", "https://amazon.jobs/en/jobs/222");
      ("department", "AWS"); ("experience_level", "senior");
      ("ats_type", "amazon") ] ]%string.

(** The body of the loop that gives every job a new title. *)
Definition retitle (job_field : string) (job : dict string)
    : result (dict string) :=
  if negb (contains "Engineer" job_field)
  then ret (set job "title" (job_field ++ " Engineer")%string)
  else
    title <- item job "title" ;;
    ret (set job "title" (replace "Software Engineer" job_field title)).

(** [[job for job in base_jobs
         if scraper.is_relevant_job(job['title'], job_field)]] *)
Fixpoint relevant_among (job_field : string) (jobs : list (dict string))
    : result (list (dict string)) :=
  match jobs with
  | [] => ret []
  | job :: jobs' =>
      title <- item job "title" ;;
      let keep := is_relevant_job title job_field in
      rest <- relevant_among job_field jobs' ;;
      ret (if keep then job :: rest else rest)
  end.

(** The jobs that are matched to the resume. *)
Definition relevant_jobs (job_field : string) : result (list (dict string)) :=
  relevant <- relevant_among job_field (base_jobs job_field) ;;
  match relevant with
  | [] => for_each (retitle job_field) (base_jobs job_field)
  | _ :: _ => ret relevant
  end.

(** [if experience_level: matched_jobs = [job for job in matched_jobs
    if job.get('experience_level') == experience_level]] *)
Definition filter_by_level (experience_level : option string)
    (matched_jobs : list matched_job) : list matched_job :=
  match experience_level with
  | Some level =>
      if truthy level
      then filter (fun job => String.eqb (j_experience_level job) level)
                  matched_jobs
      else matched_jobs
  | None => matched_jobs
  end.

(** The two tests on [location_type]. *)
Definition filter_by_location (location_type : option string)
    (matched_jobs : list matched_job) : list matched_job :=
  match location_type with
  | Some kind =>
      if String.eqb kind "remote"
      then filter (fun job => contains "remote" (lower (j_location job)))
                  matched_jobs
      else if String.eqb kind "onsite"
      then filter (fun job =>
                     negb (contains "remote" (lower (j_location job))))
                  matched_jobs
      else matched_jobs
  | None => matched_jobs
  end.

(** [matched_jobs[:max_jobs]], with [max_jobs = kwargs.get('max_jobs',
    50)]. *)
Definition cut (max_jobs : option (option Z))
    (matched_jobs : list matched_job) : list matched_job :=
  match max_jobs with
  | None => slice_to 50 matched_jobs
  | Some None => matched_jobs
  | Some (Some n) => slice_to n matched_jobs
  end.

(** The filters and the cut at the end of [get_jobs_sync]. *)
Definition apply_filters (args : kwargs) (matched_jobs : list matched_job)
    : list matched_job :=
  cut (max_jobs args)
      (filter_by_location (location_type args)
         (filter_by_level (experience_level args) matched_jobs)).

(** The body of the [try] of [get_jobs_sync]. *)
Definition jobs_or_error (job_field : string) (resume : resume_data)
    (args : kwargs) : gen (list matched_job) :=
  g_bind (g_lift (relevant_jobs job_field)) (fun jobs =>
  g_bind (match_jobs_to_resume jobs resume) (fun matched_jobs =>
  g_ret (apply_filters args matched_jobs))).

(** [get_jobs_sync(job_field, resume_data, **kwargs)], called after
    [draws] draws: an exception gives the empty list. *)
Definition get_jobs_sync (job_field : string) (resume : resume_data)
    (args : kwargs) (draws : nat) : list matched_job :=
  match jobs_or_error job_field resume args draws with
  | inr (jobs, _) => jobs
  | inl _ => []
  end.

End Random.

(** What [match_jobs_to_resume] makes of one job. *)
Definition matched (resume_skills : list string) (job : dict string)
    (m : matched_job) : Prop :=
  (50 <= j_match_score m <= 100)%Z
  /\ j_title m = get_or job "title" "Software Engineer"
  /\ j_company m = get_or job "company" "TechCorp"
  /\ j_location m = get_or job "location" "Remote"
  /\ j_experience_level m = get_or job "experience_level" "mid"
  /\ j_remote_type m
     = get_or job "remote_type"
         (if contains "remote" (lower (get_or job "location" ""))
          then "Remote" else "On-site")
  /\ j_matching_skills m
     = filter (fun skill =>
                 contains (lower skill) (lower (get_or job "title" "")))
              (firstn 3 resume_skills)
  /\ j_missing_skills m = ["Docker"; "Kubernetes"]
  /\ j_recommendation m
     = (if 80 <=? j_match_score m
        then "Excellent match for your skills"
        else "Good match for your skills").

End Scraper.

(* ================================================================== *)
(** * Lists: loops that may raise, and the stable sort *)
(* ================================================================== *)

Section Loops.
Import Py.
Context {A B : Type}.
Variable f : A -> result B.

Lemma for_each_ok (P : A -> B -> Prop) (l : list A) :
  Forall (fun x => exists y, f x = inr y /\ P x y) l ->
  exists ys, for_each f l = inr ys /\ Forall2 P l ys.
Proof.
  induction 1 as [|x l [y [Hy HP]] _ [ys [Hys HF]]].
  - exists []. split; [reflexivity|constructor].
  - exists (y :: ys). cbn [for_each]. rewrite Hy, Hys.
    split; [reflexivity|constructor; assumption].
Qed.

End Loops.

Section StableSort.
Import Py.
Local Open Scope Z_scope.
Context {A : Type}.
Variable key : A -> Z.

Lemma insert_desc_perm x l : Permutation (x :: l) (insert_desc key x l).
Proof.
  induction l as [|y l IH]; cbn [insert_desc].
  - apply Permutation_refl.
  - destruct (key x <? key y).
    + eapply perm_trans; [apply perm_swap|]. apply perm_skip, IH.
    + apply Permutation_refl.
Qed.

Lemma sort_desc_perm l : Permutation l (sort_desc key l).
Proof.
  induction l as [|x l IH]; cbn [sort_desc].
  - constructor.
  - eapply perm_trans; [apply perm_skip, IH|apply insert_desc_perm].
Qed.

Lemma insert_desc_sorted x l :
  StronglySorted (desc key) l -> StronglySorted (desc key) (insert_desc key x l).
Proof.
  induction 1 as [|y l Hsorted IH Hy]; cbn [insert_desc].
  - repeat constructor.
  - destruct (key x <? key y) eqn:Hlt.
    + constructor; [exact IH|].
      apply (Permutation_Forall (insert_desc_perm x l)).
      constructor; [|exact Hy].
      unfold desc. apply Z.ltb_lt in Hlt. lia.
    + apply Z.ltb_ge in Hlt.
      constructor; [constructor; assumption|].
      constructor; [exact Hlt|].
      eapply Forall_impl; [|exact Hy].
      unfold desc. intros z Hz. lia.
Qed.

Lemma sort_desc_sorted l : StronglySorted (desc key) (sort_desc key l).
Proof.
  induction l as [|x l IH]; cbn [sort_desc].
  - constructor.
  - apply insert_desc_sorted, IH.
Qed.

(** Stability: among the items of one key the order is untouched. *)
Lemma insert_desc_filter v x l :
  filter (fun a => key a =? v) (insert_desc key x l)
  = filter (fun a => key a =? v) (x :: l).
Proof.
  induction l as [|y l IH]; cbn [insert_desc].
  - reflexivity.
  - destruct (key x <? key y) eqn:Hlt; [|reflexivity].
    apply Z.ltb_lt in Hlt.
    cbn [filter] in *. rewrite IH.
    destruct (key y =? v) eqn:Hy; [|reflexivity].
    apply Z.eqb_eq in Hy.
    assert (Hx : (key x =? v) = false) by (apply Z.eqb_neq; lia).
    rewrite Hx. reflexivity.
Qed.

Lemma sort_desc_stable v l :
  filter (fun a => key a =? v) (sort_desc key l)
  = filter (fun a => key a =? v) l.
Proof.
  induction l as [|x l IH]; cbn [sort_desc].
  - reflexivity.
  - rewrite insert_desc_filter. cbn [filter]. rewrite IH. reflexivity.
Qed.

End StableSort.

(* ================================================================== *)
(** * Binary64 arithmetic: what the rounding of [SpecFloat] computes *)
(* ================================================================== *)

(** ** The shift of a mantissa, with its round and sticky bits *)

Section Shift.
Import Binary64.
Local Open Scope Z_scope.

Lemma iter_pos_nat {A} (f : A -> A) p x :
  iter_pos f p x = Nat.iter (Pos.to_nat p) f x.
Proof.
  revert x. induction p as [p IH|p IH|]; intros x; cbn [iter_pos].
  - rewrite !IH, Pos2Nat.inj_xI, <- Nat.iter_add.
    replace (S (2 * Pos.to_nat p)) with (S (Pos.to_nat p + Pos.to_nat p))
      by lia.
    rewrite Nat.iter_succ_r. reflexivity.
  - rewrite !IH, Pos2Nat.inj_xO, <- Nat.iter_add.
    replace (2 * Pos.to_nat p)%nat with (Pos.to_nat p + Pos.to_nat p)%nat
      by lia.
    reflexivity.
  - reflexivity.
Qed.

Lemma shr_1_spec m r s :
  0 <= m ->
  shr_1 {| shr_m := m; shr_r := r; shr_s := s |}
  = {| shr_m := m / 2; shr_r := Z.odd m; shr_s := r || s |}.
Proof.
  intros Hm. unfold shr_1.
  destruct m as [|[p|p|]|p]; try lia; cbn [Z.odd].
  - reflexivity.
  - rewrite Pos2Z.inj_xI. f_equal.
    apply Z.div_unique with (r := 1); lia.
  - rewrite Pos2Z.inj_xO. f_equal.
    apply Z.div_unique with (r := 0); lia.
  - reflexivity.
Qed.

Lemma pow2_pos k : 0 <= k -> 0 < 2 ^ k.
Proof. intros. apply Z.pow_pos_nonneg; lia. Qed.

Lemma odd_0_1 m : Z.odd m = negb (m mod 2 =? 0).
Proof.
  rewrite Zmod_odd. destruct (Z.odd m); reflexivity.
Qed.

Lemma sticky_step m k :
  0 <= k ->
  negb (m mod 2 ^ (k + 1) =? 0)
  = Z.odd (m / 2 ^ k) || negb (m mod 2 ^ k =? 0).
Proof.
  intros Hk. rewrite Z.pow_add_r, Z.pow_1_r by lia.
  assert (Hp := pow2_pos k Hk).
  rewrite Z.rem_mul_r by lia.
  rewrite odd_0_1.
  assert (H1 := Z.mod_pos_bound m (2 ^ k) Hp).
  assert (H2 := Z.mod_pos_bound (m / 2 ^ k) 2 ltac:(lia)).
  destruct (m mod 2 ^ k =? 0) eqn:Ha; destruct ((m / 2 ^ k) mod 2 =? 0) eqn:Hb;
    cbn [negb orb];
    rewrite ?Z.eqb_eq, ?Z.eqb_neq in *;
    try (apply negb_true_iff; apply Z.eqb_neq);
    try (apply negb_false_iff; apply Z.eqb_eq); nia.
Qed.

Lemma shr_iter_spec m r0 s0 k :
  0 <= m ->
  Nat.iter (S k) shr_1 {| shr_m := m; shr_r := r0; shr_s := s0 |}
  = {| shr_m := m / 2 ^ (Z.of_nat k + 1);
       shr_r := Z.odd (m / 2 ^ Z.of_nat k);
       shr_s := negb (m mod 2 ^ Z.of_nat k =? 0) || (r0 || s0) |}.
Proof.
  intros Hm. induction k as [|k IH].
  - cbn [Nat.iter]. rewrite shr_1_spec by exact Hm.
    cbn [Z.of_nat Z.add]. rewrite Z.pow_0_r, Z.pow_1_r, Z.div_1_r, Z.mod_1_r.
    reflexivity.
  - change (Nat.iter (S (S k)) shr_1 ?x)
      with (shr_1 (Nat.iter (S k) shr_1 x)).
    rewrite IH. rewrite shr_1_spec.
    2:{ apply Z.div_pos; [exact Hm|]. apply pow2_pos. lia. }
    replace (Z.of_nat (S k)) with (Z.of_nat k + 1) by lia.
    f_equal.
    + rewrite Z.div_div by (try apply pow2_pos; lia).
      rewrite (Z.pow_add_r 2 (Z.of_nat k + 1) 1) by lia. reflexivity.
    + rewrite (sticky_step m (Z.of_nat k)) by lia.
      rewrite orb_assoc. reflexivity.
Qed.

End Shift.

(** ** [binary_round_aux] as two shifts and a round to nearest even *)

Section RoundAux.
Import Binary64.
Local Open Scope Z_scope.

Lemma fexp_eq e : SpecFloat.fexp 53 1024 e = Z.max (e - 53) (-1074).
Proof. reflexivity. Qed.

Lemma shr_pos_spec m r0 s0 e p :
  0 <= m ->
  shr {| shr_m := m; shr_r := r0; shr_s := s0 |} e (Z.pos p)
  = ({| shr_m := m / 2 ^ Z.pos p;
        shr_r := Z.odd (m / 2 ^ (Z.pos p - 1));
        shr_s := negb (m mod 2 ^ (Z.pos p - 1) =? 0) || (r0 || s0) |},
     e + Z.pos p).
Proof.
  intros Hm. unfold shr. rewrite iter_pos_nat.
  destruct (Pos2Nat.is_succ p) as [k Hk]. rewrite Hk.
  rewrite shr_iter_spec by exact Hm.
  assert (Hz : Z.of_nat k = Z.pos p - 1) by lia.
  rewrite Hz. replace (Z.pos p - 1 + 1) with (Z.pos p) by lia.
  reflexivity.
Qed.

Lemma shr_record_of_loc_bits m l :
  shr_record_of_loc m l
  = {| shr_m := m; shr_r := loc_r l; shr_s := loc_s l |}.
Proof. destruct l as [|[]]; reflexivity. Qed.

Lemma round_nearest_even_bits q r s :
  round_nearest_even q
    (loc_of_shr_record {| shr_m := q; shr_r := r; shr_s := s |})
  = rne q r s.
Proof.
  unfold rne. destruct r, s; cbn; try reflexivity.
  rewrite <- Z.negb_even. destruct (Z.even q); reflexivity.
Qed.

Lemma shr_fexp_spec mx ex l :
  0 <= mx ->
  shr_fexp 53 1024 mx ex l
  = let '(q, r, s, e') := shifted mx ex l in
    ({| shr_m := q; shr_r := r; shr_s := s |}, e').
Proof.
  intros Hm. unfold shr_fexp, shifted.
  rewrite shr_record_of_loc_bits.
  destruct (SpecFloat.fexp 53 1024 (Zdigits2 mx + ex) - ex) as [|p|p] eqn:Hsh.
  - reflexivity.
  - rewrite shr_pos_spec by exact Hm.
    replace (0 <? Z.pos p) with true by (symmetry; apply Z.ltb_lt; lia).
    reflexivity.
  - reflexivity.
Qed.

Lemma binary_round_aux_spec mx ex l :
  0 <= mx ->
  binary_round_aux 53 1024 false mx ex l
  = let '(q, r, s, e') := shifted mx ex l in
    let m2 := rne q r s in
    let '(m3, _, _, e3) := shifted m2 e' loc_Exact in
    finish_round m3 e3.
Proof.
  intros Hm. unfold binary_round_aux.
  rewrite shr_fexp_spec by exact Hm.
  destruct (shifted mx ex l) as [[[q r] s] e'] eqn:Hsh.
  cbn [shr_m]. rewrite round_nearest_even_bits.
  assert (Hq : 0 <= q).
  { unfold shifted in Hsh. destruct (0 <? _) eqn:Hlt.
    - injection Hsh as <- _ _ _. apply Z.div_pos; [exact Hm|].
      apply pow2_pos. apply Z.ltb_lt in Hlt. lia.
    - injection Hsh as <- _ _ _. exact Hm. }
  assert (Hm2 : 0 <= rne q r s).
  { unfold rne. destruct (r && _); lia. }
  rewrite shr_fexp_spec by exact Hm2.
  destruct (shifted (rne q r s) e' loc_Exact) as [[[m3 r3] s3] e3].
  reflexivity.
Qed.

End RoundAux.

(** ** The number of binary digits *)

Section Digits.
Import Binary64.
Local Open Scope Z_scope.

Lemma digits2_pos_size p : digits2_pos p = Pos.size p.
Proof. induction p as [p IH|p IH|]; cbn; now rewrite ?IH. Qed.

Lemma digits_0 : digits 0 = 0.
Proof. reflexivity. Qed.

Lemma digits_pos_bounds m :
  0 < m -> 0 < digits m /\ 2 ^ (digits m - 1) <= m < 2 ^ digits m.
Proof.
  intros Hm. destruct m as [|p|p]; try lia.
  unfold digits, Zdigits2. rewrite digits2_pos_size.
  split; [lia|].
  assert (H1 := Pos.size_gt p). assert (H2 := Pos.size_le p).
  apply Pos2Z.pos_lt_pos in H1. apply Pos2Z.pos_le_pos in H2.
  rewrite Pos2Z.inj_pow in H1, H2.
  change (Z.pos p~0) with (2 * Z.pos p) in H2.
  split; [|exact H1].
  replace (Z.pos (Pos.size p)) with (Z.succ (Z.pos (Pos.size p) - 1)) in H2
    by lia.
  rewrite Z.pow_succ_r in H2 by lia. lia.
Qed.

Lemma digits_nonneg m : 0 <= m -> 0 <= digits m.
Proof.
  intros Hm. destruct (Z.eq_dec m 0) as [->|Hne]; [rewrite digits_0; lia|].
  destruct (digits_pos_bounds m); lia.
Qed.

(** [digits] is determined by the bounds. *)
Lemma digits_unique m d :
  0 < d -> 2 ^ (d - 1) <= m < 2 ^ d -> digits m = d.
Proof.
  intros Hd [Hlo Hhi].
  assert (Hm : 0 < m).
  { assert (0 < 2 ^ (d - 1)) by (apply pow2_pos; lia). lia. }
  destruct (digits_pos_bounds m Hm) as [Hd' [Hlo' Hhi']].
  destruct (Z.lt_trichotomy (digits m) d) as [Hlt|[Heq|Hgt]]; [|exact Heq|].
  - exfalso.
    assert (2 ^ digits m <= 2 ^ (d - 1)) by (apply Z.pow_le_mono_r; lia).
    lia.
  - exfalso.
    assert (2 ^ d <= 2 ^ (digits m - 1)) by (apply Z.pow_le_mono_r; lia).
    lia.
Qed.

Lemma digits_le_of_lt m d : 0 <= m -> 0 <= d -> m < 2 ^ d -> digits m <= d.
Proof.
  intros Hm Hd Hlt.
  destruct (Z.eq_dec m 0) as [->|Hne]; [rewrite digits_0; lia|].
  destruct (digits_pos_bounds m ltac:(lia)) as [Hd' [Hlo' Hhi']].
  destruct (Z_le_gt_dec (digits m) d) as [Hle|Hgt]; [exact Hle|].
  exfalso.
  assert (2 ^ d <= 2 ^ (digits m - 1)) by (apply Z.pow_le_mono_r; lia).
  lia.
Qed.

Lemma digits_mul_pow2 m k :
  0 < m -> 0 <= k -> digits (m * 2 ^ k) = digits m + k.
Proof.
  intros Hm Hk.
  destruct (digits_pos_bounds m Hm) as [Hd [Hlo Hhi]].
  assert (Hp := pow2_pos k Hk).
  apply digits_unique; [lia|].
  replace (digits m + k - 1) with (digits m - 1 + k) by lia.
  rewrite !Z.pow_add_r by lia. nia.
Qed.

Lemma digits_div_pow2 m k :
  0 < m -> 0 <= k -> k < digits m -> digits (m / 2 ^ k) = digits m - k.
Proof.
  intros Hm Hk Hlt.
  destruct (digits_pos_bounds m Hm) as [Hd [Hlo Hhi]].
  assert (Hp := pow2_pos k Hk).
  apply digits_unique; [lia|].
  split.
  - apply Z.div_le_lower_bound; [exact Hp|].
    rewrite <- Z.pow_add_r by lia.
    replace (k + (digits m - k - 1)) with (digits m - 1) by lia. exact Hlo.
  - apply Z.div_lt_upper_bound; [exact Hp|].
    rewrite <- Z.pow_add_r by lia.
    replace (k + (digits m - k)) with (digits m) by lia. exact Hhi.
Qed.

End Digits.

(** ** The result of rounding is a finite float, below the bound of its
    argument *)

Section Rounded.
Import Binary64.
Local Open Scope Z_scope.

Lemma rne_bounds q r s : q <= rne q r s <= q + 1.
Proof. unfold rne. destruct (r && _); lia. Qed.

Lemma shifted_inv mx ex l q r s e' :
  0 <= mx ->
  shifted mx ex l = (q, r, s, e') ->
  0 <= q /\ digits q <= 53 /\ -1074 <= e'.
Proof.
  intros Hm. unfold shifted. fold (digits mx).
  rewrite fexp_eq.
  destruct (0 <? _) eqn:Hlt; intros H; injection H as <- _ _ <-.
  - apply Z.ltb_lt in Hlt.
    set (sh := Z.max (digits mx + ex - 53) (-1074) - ex) in *.
    assert (Hp : 0 < 2 ^ sh) by (apply pow2_pos; lia).
    split; [apply Z.div_pos; lia|]. split; [|lia].
    destruct (Z.eq_dec mx 0) as [->|Hne].
    { rewrite Z.div_0_l by lia. rewrite digits_0. lia. }
    assert (Hd := digits_pos_bounds mx ltac:(lia)).
    destruct (Z_lt_le_dec sh (digits mx)) as [Hsd|Hsd].
    + rewrite digits_div_pow2 by lia. lia.
    + assert (Hq : mx / 2 ^ sh = 0).
      { apply Z.div_small. split; [lia|].
        assert (2 ^ digits mx <= 2 ^ sh) by (apply Z.pow_le_mono_r; lia).
        lia. }
      rewrite Hq, digits_0. lia.
  - apply Z.ltb_ge in Hlt. split; [exact Hm|]. lia.
Qed.

(** What the second shift of [binary_round_aux] does. *)
Lemma renormalized m2 e' :
  0 <= m2 -> m2 <= 2 ^ 53 -> -1074 <= e' ->
  exists m3 r3 s3 e3,
    shifted m2 e' loc_Exact = (m3, r3, s3, e3)
    /\ 0 <= m3 < 2 ^ 53 /\ -1074 <= e3
    /\ m3 * 2 ^ (e3 + 1074) = m2 * 2 ^ (e' + 1074).
Proof.
  intros H0 Hle He.
  unfold shifted. fold (digits m2). rewrite fexp_eq.
  destruct (Z.eq_dec m2 (2 ^ 53)) as [->|Hne].
  - assert (Hd : digits (2 ^ 53) = 54) by reflexivity.
    rewrite Hd.
    replace (Z.max (54 + e' - 53) (-1074) - e') with 1 by lia.
    cbn [Z.ltb Z.compare]. do 4 eexists. split; [reflexivity|].
    change (2 ^ 53 / 2 ^ 1) with (2 ^ 52).
    split; [split; [apply Z.pow_nonneg; lia|reflexivity]|].
    split; [lia|].
    replace (e' + 1 + 1074) with (e' + 1074 + 1) by lia.
    rewrite (Z.pow_add_r 2 (e' + 1074) 1) by lia.
    change (2 ^ 53) with (2 ^ 52 * 2 ^ 1). ring.
  - assert (Hlt : m2 < 2 ^ 53) by lia.
    assert (Hd : digits m2 <= 53) by (apply digits_le_of_lt; lia).
    replace (0 <? Z.max (digits m2 + e' - 53) (-1074) - e') with false
      by (symmetry; apply Z.ltb_ge; lia).
    do 4 eexists. split; [reflexivity|]. repeat split; lia.
Qed.

Lemma finish_round_repr m3 e3 :
  0 <= m3 < 2 ^ 53 -> -1074 <= e3 ->
  (0 < m3 -> e3 <= 971) ->
  repr (finish_round m3 e3) (m3 * 2 ^ (e3 + 1074)).
Proof.
  intros Hm He Hfin. unfold finish_round.
  destruct m3 as [|p|p]; [reflexivity| |lia].
  replace (e3 <=? 971) with true by (symmetry; apply Z.leb_le; lia).
  cbn [repr]. repeat split; lia.
Qed.

Lemma pos_pow2_bound m e b :
  0 < m -> 0 <= e -> m * 2 ^ e <= 2 ^ b -> e <= b.
Proof.
  intros Hm He Hle.
  destruct (Z_le_gt_dec e b) as [H|H]; [exact H|]. exfalso.
  destruct (Z_lt_le_dec b 0) as [Hb|Hb].
  - rewrite (Z.pow_neg_r 2 b) in Hle by lia.
    assert (0 < 2 ^ e) by (apply pow2_pos; lia). nia.
  - assert (2 ^ b < 2 ^ e) by (apply Z.pow_lt_mono_r; lia).
    assert (0 < 2 ^ b) by (apply pow2_pos; lia). nia.
Qed.

Lemma binary_round_aux_repr mx ex l :
  0 <= mx ->
  rounded mx ex l <= 2 ^ (971 + 1074) ->
  repr (binary_round_aux 53 1024 false mx ex l) (rounded mx ex l).
Proof.
  intros Hm Hsmall. rewrite binary_round_aux_spec by exact Hm.
  unfold rounded in *.
  destruct (shifted mx ex l) as [[[q r] s] e'] eqn:Hsh.
  destruct (shifted_inv _ _ _ _ _ _ _ Hm Hsh) as [Hq [Hdq He']].
  assert (Hq53 : q < 2 ^ 53).
  { destruct (Z.eq_dec q 0) as [->|Hne]; [reflexivity|].
    destruct (digits_pos_bounds q ltac:(lia)) as [_ [_ Hhi]].
    assert (2 ^ digits q <= 2 ^ 53) by (apply Z.pow_le_mono_r; lia). lia. }
  assert (Hb := rne_bounds q r s).
  destruct (renormalized (rne q r s) e' ltac:(lia) ltac:(lia) He')
    as [m3 [r3 [s3 [e3 [Hsh2 [Hm3 [He3 Hval]]]]]]].
  cbn zeta. rewrite Hsh2. rewrite <- Hval.
  apply finish_round_repr; [exact Hm3|exact He3|].
  intros Hpos. rewrite <- Hval in Hsmall.
  assert (H := pos_pow2_bound m3 (e3 + 1074) (971 + 1074) Hpos ltac:(lia) Hsmall).
  lia.
Qed.

(** An upper bound by a power of two: the value rounded lies below
    [2^b] as soon as the exact one does. *)
Lemma rounded_below mx ex l b :
  0 <= mx -> -1074 <= b ->
  mx + 1 <= 2 ^ (b - ex) ->
  rounded mx ex l <= 2 ^ (b + 1074).
Proof.
  intros Hm Hb Hle. unfold rounded.
  assert (Hbe : ex <= b).
  { destruct (Z_le_gt_dec ex b) as [H|H]; [exact H|].
    rewrite Z.pow_neg_r in Hle by lia. lia. }
  destruct (shifted mx ex l) as [[[q r] s] e'] eqn:Hsh.
  assert (Hr := rne_bounds q r s).
  unfold shifted in Hsh. fold (digits mx) in Hsh. rewrite fexp_eq in Hsh.
  destruct (0 <? _) eqn:Hlt; injection Hsh as <- _ _ <-.
  - apply Z.ltb_lt in Hlt.
    set (sh := Z.max (digits mx + ex - 53) (-1074) - ex) in *.
    assert (Hsb : ex + sh <= b).
    { destruct (Z_le_gt_dec (ex + sh) b) as [H|H]; [exact H|]. exfalso.
      assert (Hd : digits mx <= b - ex)
        by (apply digits_le_of_lt; lia).
      lia. }
    assert (Hp : 0 < 2 ^ sh) by (apply pow2_pos; lia).
    assert (Hq : mx / 2 ^ sh + 1 <= 2 ^ (b - ex - sh)).
    { assert (mx / 2 ^ sh < 2 ^ (b - ex - sh)); [|lia].
      apply Z.div_lt_upper_bound; [exact Hp|].
      rewrite <- Z.pow_add_r by lia.
      replace (sh + (b - ex - sh)) with (b - ex) by lia. lia. }
    assert (Hes : -1074 <= ex + sh) by (unfold sh; lia).
    replace (b + 1074) with ((b - ex - sh) + (ex + sh + 1074)) by lia.
    rewrite (Z.pow_add_r 2 (b - ex - sh) (ex + sh + 1074)) by lia.
    apply Z.mul_le_mono_nonneg_r; [apply Z.pow_nonneg; lia|lia].
  - apply Z.ltb_ge in Hlt.
    assert (He : -1074 <= ex) by lia.
    replace (b + 1074) with ((b - ex) + (ex + 1074)) by lia.
    rewrite (Z.pow_add_r 2 (b - ex) (ex + 1074)) by lia.
    apply Z.mul_le_mono_nonneg_r; [apply Z.pow_nonneg; lia|lia].
Qed.

(** An exact power of two is kept. *)
Lemma rounded_pow2 ex b :
  -1074 <= b -> ex <= b ->
  rounded (2 ^ (b - ex)) ex loc_Exact = 2 ^ (b + 1074).
Proof.
  intros Hb Hbe. unfold rounded, shifted.
  fold (digits (2 ^ (b - ex))). rewrite fexp_eq.
  assert (Hd : digits (2 ^ (b - ex)) = b - ex + 1).
  { apply digits_unique; [lia|].
    replace (b - ex + 1 - 1) with (b - ex) by lia.
    split; [lia|]. apply Z.pow_lt_mono_r; lia. }
  rewrite Hd.
  destruct (0 <? _) eqn:Hlt.
  - apply Z.ltb_lt in Hlt.
    set (sh := Z.max (b - ex + 1 + ex - 53) (-1074) - ex) in *.
    assert (Hsh : sh <= b - ex) by lia.
    assert (Hodd : Z.odd (2 ^ (b - ex) / 2 ^ (sh - 1)) = false).
    { rewrite <- Z.pow_sub_r by lia.
      replace (b - ex - (sh - 1)) with (Z.succ (b - ex - sh)) by lia.
      rewrite Z.pow_succ_r by lia. rewrite Z.odd_mul. reflexivity. }
    rewrite Hodd. unfold rne. cbn [andb].
    rewrite <- Z.pow_sub_r by lia. rewrite <- Z.pow_add_r by lia.
    f_equal. lia.
  - unfold rne. cbn [loc_r loc_s andb].
    rewrite <- Z.pow_add_r by lia. f_equal. lia.
Qed.

End Rounded.

(** ** Division and multiplication *)

Section DivMul.
Import Binary64.
Local Open Scope Z_scope.

Lemma pow2_cancel x y p q t :
  0 <= p -> 0 <= q -> 0 <= p + t -> 0 <= q + t ->
  x * 2 ^ p <= y * 2 ^ q -> x * 2 ^ (p + t) <= y * 2 ^ (q + t).
Proof.
  intros Hp Hq Hpt Hqt H.
  destruct (Z_le_gt_dec 0 t) as [Ht|Ht].
  - rewrite !Z.pow_add_r by lia.
    assert (0 < 2 ^ t) by (apply pow2_pos; lia). nia.
  - assert (Hu : 0 < 2 ^ (- t)) by (apply pow2_pos; lia).
    replace p with ((p + t) + (- t)) in H by lia.
    replace q with ((q + t) + (- t)) in H by lia.
    rewrite (Z.pow_add_r 2 (p + t)), (Z.pow_add_r 2 (q + t)) in H by lia.
    nia.
Qed.

Lemma shl_spec m s :
  0 <= s ->
  match s with
  | Z.pos _ => Z.shiftl m s
  | Z0 => m
  | Z.neg _ => 0
  end = m * 2 ^ s.
Proof.
  intros Hs. destruct s as [|p|p]; [|apply Z.shiftl_mul_pow2; lia|lia].
  rewrite Z.pow_0_r. lia.
Qed.

Lemma new_location_0 nb : new_location nb 0 = loc_Exact.
Proof.
  unfold new_location, new_location_even, new_location_odd.
  destruct (Z.even nb); reflexivity.
Qed.

(** A quotient that does not exceed [2^b] is rounded to a float that
    does not exceed [2^b]. *)
Lemma SFdiv_below m1 e1 m2 e2 b c :
  0 <= b <= 971 -> 0 <= e1 + c -> 0 <= e2 + c ->
  Z.pos m1 * 2 ^ (e1 + c) <= Z.pos m2 * 2 ^ (b + (e2 + c)) ->
  exists N,
    repr (SFdiv 53 1024 (S754_finite false m1 e1) (S754_finite false m2 e2)) N
    /\ N <= 2 ^ (b + 1074).
Proof.
  intros Hb H1 H2 Hle.
  cbn [SFdiv xorb]. unfold SFdiv_core_binary.
  fold (digits (Z.pos m1)). fold (digits (Z.pos m2)). rewrite fexp_eq.
  set (d1 := digits (Z.pos m1)). set (d2 := digits (Z.pos m2)).
  set (e' := Z.min (Z.max (d1 + e1 - (d2 + e2) - 53) (-1074)) (e1 - e2)).
  set (s := e1 - e2 - e').
  assert (Hs : 0 <= s) by (unfold s, e'; lia).
  destruct (digits_pos_bounds (Z.pos m1) ltac:(lia)) as [Hd1 [Hlo1 Hhi1]].
  destruct (digits_pos_bounds (Z.pos m2) ltac:(lia)) as [Hd2 [Hlo2 Hhi2]].
  fold d1 in Hd1, Hlo1, Hhi1. fold d2 in Hd2, Hlo2, Hhi2.
  (* the magnitude of the quotient *)
  assert (Hmag : d1 + e1 - (d2 + e2) <= b + 1).
  { assert (H : 2 ^ (d1 - 1 + (e1 + c)) < 2 ^ (d2 + (b + (e2 + c)))).
    { rewrite (Z.pow_add_r 2 (d1 - 1) (e1 + c)) by lia.
      rewrite (Z.pow_add_r 2 d2 (b + (e2 + c))) by lia.
      assert (0 < 2 ^ (e1 + c)) by (apply pow2_pos; lia).
      assert (0 < 2 ^ (b + (e2 + c))) by (apply pow2_pos; lia).
      nia. }
    apply Z.pow_lt_mono_r_iff in H; lia. }
  assert (He'b : e' <= b) by (unfold e'; lia).
  set (m' := match s with
             | Z.pos _ => Z.shiftl (Z.pos m1) s
             | Z0 => Z.pos m1
             | Z.neg _ => 0
             end).
  assert (Hm' : m' = Z.pos m1 * 2 ^ s) by (apply shl_spec; exact Hs).
  assert (Hbound : m' <= Z.pos m2 * 2 ^ (b - e')).
  { rewrite Hm'.
    replace s with ((e1 + c) + (- (e2 + c) - e')) by (unfold s; lia).
    replace (b - e') with ((b + (e2 + c)) + (- (e2 + c) - e')) by lia.
    apply pow2_cancel; lia. }
  assert (Hp : 0 < 2 ^ (b - e')) by (apply pow2_pos; lia).
  pose proof (Z_div_mod m' (Z.pos m2) ltac:(lia)) as Hdiv.
  destruct (Z.div_eucl m' (Z.pos m2)) as [q rm].
  destruct Hdiv as [Hq Hrm].
  assert (Hq0 : 0 <= q) by nia.
  assert (Hqle : q <= 2 ^ (b - e')) by nia.
  assert (Hsmall : 2 ^ (b + 1074) <= 2 ^ (971 + 1074))
    by (apply Z.pow_le_mono_r; lia).
  destruct (Z.eq_dec q (2 ^ (b - e'))) as [Heq|Hne].
  - assert (Hrm0 : rm = 0) by nia.
    rewrite Hrm0, new_location_0, Heq.
    exists (2 ^ (b + 1074)). split; [|lia].
    rewrite <- (rounded_pow2 e' b) by lia.
    apply binary_round_aux_repr; [lia|].
    rewrite rounded_pow2 by lia. exact Hsmall.
  - exists (rounded q e' (new_location (Z.pos m2) rm)).
    assert (Hr : rounded q e' (new_location (Z.pos m2) rm) <= 2 ^ (b + 1074))
      by (apply rounded_below; lia).
    split; [|exact Hr].
    apply binary_round_aux_repr; lia.
Qed.

(** The product of a float that does not exceed 1 by the float 100. *)
Lemma SFmul_100 q Q :
  repr q Q -> Q <= 2 ^ 1074 ->
  exists P, repr (SFmul 53 1024 q (binary_normalize 53 1024 100 0 false)) P.
Proof.
  intros Hq HQ.
  change (binary_normalize 53 1024 100 0 false)
    with (S754_finite false 7036874417766400 (-46)).
  destruct q as [[]|[]| |[] m e]; cbn [repr] in Hq; try contradiction.
  - exists 0. reflexivity.
  - destruct Hq as [He [Hm HN]]. subst Q.
    cbn [SFmul xorb].
    assert (He0 : e <= 0).
    { assert (H := pos_pow2_bound (Z.pos m) (e + 1074) 1074
                     ltac:(lia) ltac:(lia) HQ). lia. }
    assert (Hme : Z.pos m <= 2 ^ (- e)).
    { replace 1074 with ((- e) + (e + 1074)) in HQ at 2 by lia.
      rewrite (Z.pow_add_r 2 (- e) (e + 1074)) in HQ by lia.
      assert (0 < 2 ^ (e + 1074)) by (apply pow2_pos; lia). nia. }
    eexists. apply binary_round_aux_repr; [lia|].
    etransitivity; [apply (rounded_below _ _ _ 7); try lia|
                    apply Z.pow_le_mono_r; lia].
    rewrite Pos2Z.inj_mul.
    replace (7 - (e + -46)) with (53 + (- e)) by lia.
    rewrite (Z.pow_add_r 2 53 (- e)) by lia.
    change (2 ^ 53) with 9007199254740992.
    assert (0 < 2 ^ (- e)) by (apply pow2_pos; lia).
    nia.
Qed.

End DivMul.

(** ** The rounding of [SpecFloat] is [rnd] *)

Section Nearest.
Import Binary64.
Local Open Scope Z_scope.

(** The two bits of the shift say how the remainder compares with one
    half. *)
Lemma bits_compare N sh :
  0 <= N -> 0 < sh ->
  rne (N / 2 ^ sh) (Z.odd (N / 2 ^ (sh - 1)))
      (negb (N mod 2 ^ (sh - 1) =? 0) || (false || false))
  = if (2 ^ (sh - 1) <? N mod 2 ^ sh)
       || ((2 ^ (sh - 1) =? N mod 2 ^ sh) && Z.odd (N / 2 ^ sh))
    then N / 2 ^ sh + 1 else N / 2 ^ sh.
Proof.
  intros HN Hsh. unfold rne.
  set (half := 2 ^ (sh - 1)).
  assert (Hh : 0 < half) by (apply pow2_pos; lia).
  assert (H2 : 2 ^ sh = half * 2).
  { unfold half. replace sh with ((sh - 1) + 1) at 1 by lia.
    rewrite (Z.pow_add_r 2 (sh - 1) 1) by lia. reflexivity. }
  rewrite H2.
  rewrite (Z.rem_mul_r N half 2) by lia.
  rewrite <- (Z.div_div N half 2) by lia.
  set (a := N / half). set (lo := N mod half).
  assert (Hlo := Z.mod_pos_bound N half Hh). fold lo in Hlo.
  assert (Ha := Z.mod_pos_bound a 2 ltac:(lia)).
  rewrite (Zmod_odd a) in *.
  rewrite orb_false_r.
  destruct (Z.odd a) eqn:Hodd.
  - replace (half <? lo + half * 1) with (negb (lo =? 0)).
    2:{ destruct (lo =? 0) eqn:E; cbn [negb]; symmetry.
        - apply Z.eqb_eq in E. apply Z.ltb_ge. lia.
        - apply Z.eqb_neq in E. apply Z.ltb_lt. lia. }
    replace (half =? lo + half * 1) with (lo =? 0).
    2:{ destruct (lo =? 0) eqn:E; symmetry.
        - apply Z.eqb_eq in E. apply Z.eqb_eq. lia.
        - apply Z.eqb_neq in E. apply Z.eqb_neq. lia. }
    cbn [andb]. destruct (lo =? 0); reflexivity.
  - cbn [andb].
    replace (half <? lo + half * 0) with false
      by (symmetry; apply Z.ltb_ge; lia).
    replace (half =? lo + half * 0) with false
      by (symmetry; apply Z.eqb_neq; lia).
    reflexivity.
Qed.

Lemma rnd_exact m t :
  0 <= m < 2 ^ 53 -> 0 <= t -> rnd (m * 2 ^ t) = m * 2 ^ t.
Proof.
  intros Hm Ht. unfold rnd.
  destruct (Z.eq_dec m 0) as [->|Hne]; [reflexivity|].
  rewrite digits_mul_pow2 by lia.
  assert (Hd : digits m <= 53) by (apply digits_le_of_lt; lia).
  destruct (0 <? digits m + t - 53) eqn:Hlt; [|reflexivity].
  apply Z.ltb_lt in Hlt.
  set (sh := digits m + t - 53) in *.
  assert (Hp : 0 < 2 ^ sh) by (apply pow2_pos; lia).
  assert (Hsplit : m * 2 ^ t = (m * 2 ^ (t - sh)) * 2 ^ sh).
  { rewrite <- Z.mul_assoc, <- Z.pow_add_r by lia. f_equal. f_equal. lia. }
  assert (Hmod : (m * 2 ^ t) mod 2 ^ sh = 0)
    by (rewrite Hsplit; apply Z.mod_mul; lia).
  assert (Hdiv : (m * 2 ^ t) / 2 ^ sh = m * 2 ^ (t - sh))
    by (rewrite Hsplit; apply Z.div_mul; lia).
  rewrite Hmod, Hdiv.
  assert (Hh : 0 < 2 ^ (sh - 1)) by (apply pow2_pos; lia).
  replace (2 ^ (sh - 1) <? 0) with false by (symmetry; apply Z.ltb_ge; lia).
  replace (2 ^ (sh - 1) =? 0) with false by (symmetry; apply Z.eqb_neq; lia).
  cbn [orb andb]. symmetry. exact Hsplit.
Qed.

Lemma rounded_rnd mz ez :
  0 < mz -> -1074 <= ez ->
  rounded mz ez loc_Exact = rnd (mz * 2 ^ (ez + 1074)).
Proof.
  intros Hm He. unfold rounded, shifted. fold (digits mz). rewrite fexp_eq.
  destruct (digits_pos_bounds mz Hm) as [Hd [Hlo Hhi]].
  destruct (0 <? _) eqn:Hlt.
  - apply Z.ltb_lt in Hlt.
    assert (Hsh : Z.max (digits mz + ez - 53) (-1074) - ez = digits mz - 53)
      by lia.
    rewrite Hsh in *. set (sh := digits mz - 53) in *.
    cbn [loc_r loc_s].
    rewrite bits_compare by lia.
    unfold rnd. rewrite digits_mul_pow2 by lia.
    set (t := ez + 1074).
    replace (digits mz + t - 53) with (sh + t) by (unfold sh; lia).
    replace (0 <? sh + t) with true by (symmetry; apply Z.ltb_lt; lia).
    assert (Hpt : 0 < 2 ^ t) by (apply pow2_pos; lia).
    assert (Hps : 0 < 2 ^ sh) by (apply pow2_pos; lia).
    assert (Hph : 0 < 2 ^ (sh - 1)) by (apply pow2_pos; lia).
    rewrite (Z.pow_add_r 2 sh t) by lia.
    replace (sh + t - 1) with ((sh - 1) + t) by lia.
    rewrite (Z.pow_add_r 2 (sh - 1) t) by lia.
    rewrite Z.div_mul_cancel_r by lia.
    rewrite Z.mul_mod_distr_r by lia.
    replace (2 ^ (sh - 1) * 2 ^ t <? mz mod 2 ^ sh * 2 ^ t)
      with (2 ^ (sh - 1) <? mz mod 2 ^ sh).
    2:{ destruct (2 ^ (sh - 1) <? mz mod 2 ^ sh) eqn:E; symmetry.
        - apply Z.ltb_lt in E. apply Z.ltb_lt. nia.
        - apply Z.ltb_ge in E. apply Z.ltb_ge. nia. }
    replace (2 ^ (sh - 1) * 2 ^ t =? mz mod 2 ^ sh * 2 ^ t)
      with (2 ^ (sh - 1) =? mz mod 2 ^ sh).
    2:{ destruct (2 ^ (sh - 1) =? mz mod 2 ^ sh) eqn:E; symmetry.
        - apply Z.eqb_eq in E. apply Z.eqb_eq. nia.
        - apply Z.eqb_neq in E. apply Z.eqb_neq. nia. }
    unfold t. replace (ez + sh + 1074) with (sh + (ez + 1074)) by lia.
    rewrite (Z.pow_add_r 2 sh (ez + 1074)) by lia.
    reflexivity.
  - apply Z.ltb_ge in Hlt. unfold rne. cbn [loc_r loc_s andb].
    symmetry. apply rnd_exact; [|lia].
    split; [lia|].
    assert (2 ^ digits mz <= 2 ^ 53) by (apply Z.pow_le_mono_r; lia). lia.
Qed.

End Nearest.

(** ** Addition *)

Section Addition.
Import Binary64.
Local Open Scope Z_scope.

Lemma iter_xO_spec mx k : Z.pos (Pos.iter xO mx k) = Z.pos mx * 2 ^ Z.pos k.
Proof.
  change (Pos.iter xO mx k) with (shift_pos k mx).
  rewrite shift_pos_correct.
  change (Zpower_pos 2 k) with (2 ^ Z.pos k). ring.
Qed.

Lemma shl_align_spec mx ex ex' :
  exists mz ez,
    shl_align mx ex ex' = (mz, ez)
    /\ ez = Z.min ex ex' /\ Z.pos mz = Z.pos mx * 2 ^ (ex - ez).
Proof.
  unfold shl_align. destruct (ex' - ex) as [|d|d] eqn:Hd.
  - exists mx, ex. split; [reflexivity|]. split; [lia|].
    rewrite Z.sub_diag. cbn. lia.
  - exists mx, ex. split; [reflexivity|]. split; [lia|].
    rewrite Z.sub_diag. cbn. lia.
  - exists (Pos.iter xO mx d), ex'. split; [reflexivity|]. split; [lia|].
    rewrite iter_xO_spec. f_equal. f_equal. lia.
Qed.

Lemma binary_normalize_repr M E :
  0 < M -> -1074 <= E ->
  rnd (M * 2 ^ (E + 1074)) <= 2 ^ (971 + 1074) ->
  repr (binary_normalize 53 1024 M E false) (rnd (M * 2 ^ (E + 1074))).
Proof.
  intros HM HE Hsmall. destruct M as [|p|p]; try lia.
  cbn [binary_normalize]. unfold binary_round.
  destruct (shl_align_spec p E (SpecFloat.fexp 53 1024 (Z.pos (digits2_pos p) + E)))
    as [mz [ez [Hal [Hez Hmz]]]].
  rewrite Hal.
  assert (Hez' : -1074 <= ez /\ ez <= E).
  { rewrite Hez, fexp_eq. lia. }
  assert (Heq : rounded (Z.pos mz) ez loc_Exact
                = rnd (Z.pos p * 2 ^ (E + 1074))).
  { rewrite rounded_rnd by lia. f_equal. rewrite Hmz.
    rewrite <- Z.mul_assoc, <- Z.pow_add_r by lia. f_equal. f_equal. lia. }
  rewrite <- Heq. apply binary_round_aux_repr; [lia|].
  rewrite Heq. exact Hsmall.
Qed.

Lemma repr_nonneg f N : repr f N -> 0 <= N.
Proof.
  destruct f as [[]|[]| |[] m e]; cbn [repr]; try contradiction.
  - lia.
  - intros [He [Hm ->]].
    assert (0 < 2 ^ (e + 1074)) by (apply pow2_pos; lia). nia.
Qed.

Lemma repr_rnd f N : repr f N -> rnd N = N.
Proof.
  destruct f as [[]|[]| |[] m e]; cbn [repr]; try contradiction.
  - intros ->. reflexivity.
  - intros [He [Hm ->]]. apply rnd_exact; lia.
Qed.

(** The sum of two floats is the exact sum, rounded. *)
Lemma SFadd_repr a x A X :
  repr a A -> repr x X ->
  rnd (A + X) <= 2 ^ (971 + 1074) ->
  repr (SFadd 53 1024 a x) (rnd (A + X)).
Proof.
  intros Ha Hx Hsmall.
  destruct a as [[]|[]| |[] ma ea]; cbn [repr] in Ha; try contradiction;
    destruct x as [[]|[]| |[] mx ex] eqn:Ex; cbn [repr] in Hx;
    try contradiction.
  - subst A X. reflexivity.
  - subst A. cbn [SFadd]. rewrite Z.add_0_l.
    rewrite (repr_rnd (S754_finite false mx ex) X) by exact Hx. exact Hx.
  - subst X. cbn [SFadd]. rewrite Z.add_0_r.
    rewrite (repr_rnd (S754_finite false ma ea) A) by exact Ha. exact Ha.
  - destruct Ha as [Hea [Hma ->]]. destruct Hx as [Hex [Hmx ->]].
    cbn [SFadd cond_Zopp].
    set (ez := Z.min ea ex).
    destruct (shl_align_spec ma ea ez) as [m1 [e1 [H1 [He1 Hm1]]]].
    destruct (shl_align_spec mx ex ez) as [m2 [e2 [H2 [He2 Hm2]]]].
    rewrite H1, H2. cbn [fst].
    assert (He1' : e1 = ez) by (unfold ez in *; lia).
    assert (He2' : e2 = ez) by (unfold ez in *; lia).
    subst e1 e2.
    assert (Hsum : (Z.pos m1 + Z.pos m2) * 2 ^ (ez + 1074)
                   = Z.pos ma * 2 ^ (ea + 1074) + Z.pos mx * 2 ^ (ex + 1074)).
    { rewrite Hm1, Hm2, Z.mul_add_distr_r.
      rewrite <- !Z.mul_assoc, <- !Z.pow_add_r by (unfold ez; lia).
      f_equal; f_equal; f_equal; lia. }
    rewrite <- Hsum in *.
    apply binary_normalize_repr; [lia|unfold ez; lia|exact Hsmall].
Qed.

End Addition.

(** ** [rnd] is monotone, and stays on a power of two *)

Section Monotone.
Import Binary64.
Local Open Scope Z_scope.

Lemma digits_mono N1 N2 : 0 <= N1 <= N2 -> digits N1 <= digits N2.
Proof.
  intros [H1 H12].
  destruct (Z.eq_dec N1 0) as [->|Hne].
  - rewrite digits_0. apply digits_nonneg. lia.
  - destruct (digits_pos_bounds N1 ltac:(lia)) as [Hd1 [Hlo1 Hhi1]].
    destruct (digits_pos_bounds N2 ltac:(lia)) as [Hd2 [Hlo2 Hhi2]].
    destruct (Z_le_gt_dec (digits N1) (digits N2)) as [H|H]; [exact H|].
    exfalso.
    assert (2 ^ digits N2 <= 2 ^ (digits N1 - 1))
      by (apply Z.pow_le_mono_r; lia).
    lia.
Qed.

(** The parts of a value that has more than 53 digits. *)
Lemma rnd_parts N :
  0 <= N -> 0 < digits N - 53 ->
  let sh := digits N - 53 in
  let q := N / 2 ^ sh in
  let rem := N mod 2 ^ sh in
  0 < 2 ^ sh /\ N = q * 2 ^ sh + rem /\ 0 <= rem < 2 ^ sh
  /\ 2 ^ 52 <= q < 2 ^ 53
  /\ rnd N = (if (2 ^ (sh - 1) <? rem) || ((2 ^ (sh - 1) =? rem) && Z.odd q)
              then q + 1 else q) * 2 ^ sh.
Proof.
  intros HN0 Hsh sh q rem.
  assert (HN : 0 < N).
  { destruct (Z.eq_dec N 0) as [->|Hne]; [rewrite digits_0 in Hsh|]; lia. }
  destruct (digits_pos_bounds N HN) as [Hd [Hlo Hhi]].
  assert (Hp : 0 < 2 ^ sh) by (apply pow2_pos; lia).
  split; [exact Hp|].
  split; [unfold q, rem; rewrite Z.mul_comm; apply Z.div_mod; lia|].
  split; [apply Z.mod_pos_bound; exact Hp|].
  split.
  - assert (Hdq : digits q = 53).
    { unfold q. rewrite digits_div_pow2 by lia. unfold sh. lia. }
    assert (Hq0 : 0 <= q) by (apply Z.div_pos; lia).
    assert (Hq : 0 < q).
    { destruct (Z.eq_dec q 0) as [E|E]; [|lia].
      rewrite E, digits_0 in Hdq. lia. }
    destruct (digits_pos_bounds q Hq) as [_ Hb]. rewrite Hdq in Hb.
    exact Hb.
  - unfold rnd. fold sh.
    replace (0 <? sh) with true by (symmetry; apply Z.ltb_lt; lia).
    reflexivity.
Qed.

Lemma up_bounds (b : bool) q : q <= (if b then q + 1 else q) <= q + 1.
Proof. destruct b; lia. Qed.

Lemma rnd_small N : digits N - 53 <= 0 -> rnd N = N.
Proof.
  intros H. unfold rnd.
  replace (0 <? digits N - 53) with false
    by (symmetry; apply Z.ltb_ge; lia).
  reflexivity.
Qed.

Lemma rnd_mono N1 N2 : 0 <= N1 <= N2 -> rnd N1 <= rnd N2.
Proof.
  intros [H1 H12].
  assert (Hd := digits_mono N1 N2 ltac:(lia)).
  destruct (Z_le_gt_dec (digits N2 - 53) 0) as [Hs2|Hs2].
  - rewrite !rnd_small by lia. exact H12.
  - destruct (rnd_parts N2 ltac:(lia) ltac:(lia))
      as [Hp2 [HN2 [Hr2 [Hq2 Hrnd2]]]].
    set (sh2 := digits N2 - 53) in *.
    set (q2 := N2 / 2 ^ sh2) in *. set (rem2 := N2 mod 2 ^ sh2) in *.
    assert (Hlow2 : q2 * 2 ^ sh2 <= rnd N2).
    { rewrite Hrnd2. apply Z.mul_le_mono_nonneg_r; [lia|].
      apply up_bounds. }
    destruct (Z_le_gt_dec (digits N1 - 53) 0) as [Hs1|Hs1].
    + rewrite (rnd_small N1) by lia.
      assert (N1 < 2 ^ 53).
      { destruct (Z.eq_dec N1 0) as [->|Hne]; [reflexivity|].
        destruct (digits_pos_bounds N1 ltac:(lia)) as [_ [_ Hhi]].
        assert (2 ^ digits N1 <= 2 ^ 53) by (apply Z.pow_le_mono_r; lia).
        lia. }
      assert (2 ^ 1 <= 2 ^ sh2) by (apply Z.pow_le_mono_r; lia).
      change (2 ^ 1) with 2 in *. change (2 ^ 52) with 4503599627370496 in *.
      change (2 ^ 53) with 9007199254740992 in *. nia.
    + destruct (rnd_parts N1 ltac:(lia) ltac:(lia))
        as [Hp1 [HN1 [Hr1 [Hq1 Hrnd1]]]].
      set (sh1 := digits N1 - 53) in *.
      set (q1 := N1 / 2 ^ sh1) in *. set (rem1 := N1 mod 2 ^ sh1) in *.
      assert (Hup1 : rnd N1 <= (q1 + 1) * 2 ^ sh1).
      { rewrite Hrnd1. apply Z.mul_le_mono_nonneg_r; [lia|].
        apply up_bounds. }
      destruct (Z.eq_dec sh1 sh2) as [Heq|Hne].
      * (* the same exponent *)
        rewrite Heq in *.
        assert (Hq12 : q1 <= q2) by nia.
        destruct (Z.eq_dec q1 q2) as [Hqq|Hqq].
        -- rewrite Hqq in *.
           assert (Hrem : rem1 <= rem2) by nia.
           rewrite Hrnd1, Hrnd2.
           apply Z.mul_le_mono_nonneg_r; [lia|].
           destruct ((2 ^ (sh2 - 1) <? rem1)
                     || ((2 ^ (sh2 - 1) =? rem1) && Z.odd q2)) eqn:E1;
             [|apply up_bounds].
           replace ((2 ^ (sh2 - 1) <? rem2)
                    || ((2 ^ (sh2 - 1) =? rem2) && Z.odd q2)) with true;
             [lia|].
           symmetry. apply orb_true_iff in E1. apply orb_true_iff.
           destruct E1 as [E1|E1].
           ++ left. apply Z.ltb_lt in E1. apply Z.ltb_lt. lia.
           ++ apply andb_true_iff in E1. destruct E1 as [E1 Eo].
              apply Z.eqb_eq in E1.
              destruct (Z.eq_dec rem1 rem2) as [Hr|Hr].
              ** right. rewrite Eo, andb_true_r. apply Z.eqb_eq. lia.
              ** left. apply Z.ltb_lt. lia.
        -- assert ((q1 + 1) * 2 ^ sh2 <= q2 * 2 ^ sh2) by nia. lia.
      * (* a smaller exponent on the left *)
        assert (Hlt : sh1 < sh2) by (unfold sh1, sh2 in *; lia).
        assert (Hpow : 2 ^ sh1 * 2 <= 2 ^ sh2).
        { replace (2 ^ sh1 * 2) with (2 ^ (sh1 + 1))
            by (rewrite Z.pow_add_r by lia; reflexivity).
          apply Z.pow_le_mono_r; lia. }
        change (2 ^ 52) with 4503599627370496 in *.
        change (2 ^ 53) with 9007199254740992 in *. nia.
Qed.

(** Above a power of two and less than half a step away from it. *)
Lemma rnd_stay K N :
  53 <= K -> 2 ^ K <= N < 2 ^ K + 2 ^ (K - 53) -> rnd N = 2 ^ K.
Proof.
  intros HK [Hlo Hhi].
  assert (Hd : digits N = K + 1).
  { apply digits_unique; [lia|]. replace (K + 1 - 1) with K by lia.
    split; [exact Hlo|].
    assert (2 ^ (K - 53) < 2 ^ K) by (apply Z.pow_lt_mono_r; lia).
    rewrite (Z.pow_add_r 2 K 1) by lia. change (2 ^ 1) with 2. lia. }
  assert (HKp : 0 < 2 ^ K) by (apply pow2_pos; lia).
  destruct (rnd_parts N ltac:(lia) ltac:(lia)) as [Hp [HN [Hr [Hq Hrnd]]]].
  rewrite Hd in *. replace (K + 1 - 53) with (K - 52) in * by lia.
  set (sh := K - 52) in *. set (q := N / 2 ^ sh) in *.
  set (rem := N mod 2 ^ sh) in *.
  assert (HK2 : 2 ^ K = 2 ^ 52 * 2 ^ sh).
  { rewrite <- Z.pow_add_r by lia. f_equal. unfold sh. lia. }
  assert (Hh : 2 ^ (K - 53) * 2 = 2 ^ sh).
  { replace (2 ^ (K - 53) * 2) with (2 ^ (K - 53 + 1))
      by (rewrite Z.pow_add_r by lia; reflexivity).
    f_equal. unfold sh. lia. }
  replace (sh - 1) with (K - 53) in Hrnd by (unfold sh; lia).
  assert (Hhp : 0 < 2 ^ (K - 53)) by (apply pow2_pos; lia).
  assert (Hq52 : q = 2 ^ 52) by nia.
  assert (Hrem : rem < 2 ^ (K - 53)) by nia.
  rewrite Hrnd.
  replace (2 ^ (K - 53) <? rem) with false by (symmetry; apply Z.ltb_ge; lia).
  replace (2 ^ (K - 53) =? rem) with false by (symmetry; apply Z.eqb_neq; lia).
  cbn [orb andb]. rewrite Hq52. symmetry. exact HK2.
Qed.

End Monotone.

(* ================================================================== *)
(** * The scorer *)
(* ================================================================== *)

Section Scorer.
Import Py JobFieldRecommender Counts.
Local Open Scope py_scope.

Lemma accumulate_share points items user share :
  Float.int_truediv points (Z.of_nat (List.length items)) = inr share ->
  forall rest score max_score,
    accumulate points items user rest (score, max_score)
    = inr (add_times (hits user rest) share score,
           add_times (List.length rest) share max_score).
Proof.
  intros Hshare rest.
  induction rest as [|item rest IH]; intros score max_score.
  - reflexivity.
  - cbn [accumulate]. rewrite Hshare. cbn [bind].
    unfold hits. cbn [filter].
    destruct (mem item user); cbn [bind List.length add_times].
    + apply IH.
    + apply IH.
Qed.

Lemma accumulate_fail points items user e item rest st :
  Float.int_truediv points (Z.of_nat (List.length items)) = inl e ->
  accumulate points items user (item :: rest) st = inl e.
Proof.
  intros Hshare. destruct st as [score max_score].
  cbn [accumulate]. rewrite Hshare. reflexivity.
Qed.

Lemma accumulate_half points items user st :
  accumulate points items user items st
  = half points (List.length items) (hits user items) st.
Proof.
  destruct items as [|item items'].
  - reflexivity.
  - destruct (Float.int_truediv points
                (Z.of_nat (List.length (item :: items'))))
      as [e|share] eqn:Hshare.
    + rewrite (accumulate_fail _ _ _ _ _ _ _ Hshare).
      unfold half. cbn [List.length]. cbn [List.length] in Hshare.
      rewrite Hshare. reflexivity.
    + destruct st as [score max_score].
      rewrite (accumulate_share _ _ _ _ Hshare).
      unfold half. cbn [List.length]. cbn [List.length] in Hshare.
      rewrite Hshare. reflexivity.
Qed.

Lemma calculate_match_score_counts user_skills user_keywords fd :
  calculate_match_score user_skills user_keywords fd
  = score_of_counts
      (List.length (skills fd)) (List.length (keywords fd))
      (hits (map lower user_skills) (map lower (skills fd)))
      (hits (map (fun k => lower (word k)) user_keywords)
            (map lower (keywords fd))).
Proof.
  unfold calculate_match_score, score_of_counts.
  rewrite accumulate_half, length_map.
  destruct (half 60 _ _ _) as [e|[score max_score]]; [reflexivity|].
  cbn [bind].
  rewrite accumulate_half, length_map.
  destruct (half 40 _ _ _) as [e|[score' max_score']]; reflexivity.
Qed.

Lemma hits_le user items : (hits user items <= List.length items)%nat.
Proof. unfold hits. apply filter_length_le. Qed.

Lemma mem_In x l : mem x l = true <-> In x l.
Proof.
  unfold mem. rewrite existsb_exists. split.
  - intros [y [Hy Heq]]. apply String.eqb_eq in Heq. subst. exact Hy.
  - intros Hin. exists x. split; [exact Hin|apply String.eqb_refl].
Qed.

Lemma all_mem_In (f : string -> string) items user :
  forallb (fun item => mem (f item) user) items = true ->
  forall item, In item items -> In (f item) user.
Proof.
  intros H item Hin. rewrite forallb_forall in H.
  apply mem_In, H, Hin.
Qed.

Lemma hits_all user items :
  (forall item, In item items -> In item user) ->
  hits user items = List.length items.
Proof.
  intros H. unfold hits. f_equal.
  apply forallb_filter_id. apply forallb_forall.
  intros item Hin. apply mem_In, H, Hin.
Qed.

End Scorer.

(* ================================================================== *)
(** * The scorer is defined for every field definition *)
(* ================================================================== *)

Section ScoreDefined.
Import Py JobFieldRecommender Counts Binary64.
Local Open Scope Z_scope.

(** The two points totals, [60] and [40], are at most [64]; a share is at
    most [64], that is [2^1080] units. *)
Lemma int_truediv_repr P n :
  0 < P <= 64 -> (0 < n)%nat ->
  exists x X,
    Float.int_truediv P (Z.of_nat n) = inr x /\ repr x X /\ X <= 2 ^ 1080.
Proof.
  intros HP Hn. unfold Float.int_truediv.
  destruct (Z.eqb_spec (Z.of_nat n) 0) as [H0|_]; [lia|].
  destruct P as [|p|p]; try lia.
  destruct (Z.of_nat n) as [|p2|p2] eqn:Hp2; try lia.
  cbn [Float.exact].
  destruct (SFdiv_below p 0 p2 0 6 0) as (N & HN & Hle); try lia.
  change Float.prec with 53. change Float.emax with 1024.
  exists (SFdiv 53 1024 (S754_finite false p 0) (S754_finite false p2 0)), N.
  split; [|split; [exact HN | exact Hle]].
  destruct (SFdiv 53 1024 _ _) as [[]| | |[] ? ?]; cbn in HN |- *;
    try contradiction; reflexivity.
Qed.

(** Adding a share to a total of [2^61] leaves it unchanged, so no total
    of the loop, however long, passes [2^61] (that is [2^1135] units). *)
Lemma add_share_bound A X :
  0 <= A <= 2 ^ 1135 -> 0 <= X <= 2 ^ 1080 ->
  rnd (A + X) <= 2 ^ 1135.
Proof.
  intros HA HX.
  assert (Hlt : 2 ^ 1080 < 2 ^ (1135 - 53)).
  { apply Z.pow_lt_mono_r; lia. }
  rewrite <- (rnd_stay 1135 (2 ^ 1135 + X)) by lia.
  apply rnd_mono. lia.
Qed.

Lemma pow2_1135_finite : 2 ^ 1135 <= 2 ^ (971 + 1074).
Proof. apply Z.pow_le_mono_r; lia. Qed.

Lemma add_repr a x A X :
  repr a A -> repr x X -> A <= 2 ^ 1135 -> X <= 2 ^ 1080 ->
  repr (Float.add a x) (rnd (A + X)) /\ A <= rnd (A + X) <= 2 ^ 1135.
Proof.
  intros Ha Hx HA HX.
  pose proof (repr_nonneg _ _ Ha) as HA0.
  pose proof (repr_nonneg _ _ Hx) as HX0.
  pose proof (add_share_bound A X ltac:(lia) ltac:(lia)) as Hb.
  pose proof pow2_1135_finite as Hfin.
  split; [|split; [|exact Hb]].
  - unfold Float.add. change Float.prec with 53. change Float.emax with 1024.
    apply SFadd_repr; [exact Ha | exact Hx | lia].
  - rewrite <- (repr_rnd _ _ Ha) at 1. apply rnd_mono. lia.
Qed.

Lemma add_times_repr k : forall x X a A,
  repr x X -> X <= 2 ^ 1080 -> repr a A -> A <= 2 ^ 1135 ->
  exists A', repr (add_times k x a) A' /\ A <= A' <= 2 ^ 1135.
Proof.
  induction k as [|k IH]; intros x X a A Hx HX Ha HA; cbn [add_times].
  - exists A. split; [exact Ha | lia].
  - destruct (add_repr a x A X Ha Hx HA HX) as (H1 & H2 & H3).
    destruct (IH x X _ _ Hx HX H1 H3) as (A' & HA' & Hle).
    exists A'. split; [exact HA' | lia].
Qed.

(** Fewer additions from a smaller total give a smaller total. *)
Lemma add_times_le k : forall n x X a A b B,
  (k <= n)%nat ->
  repr x X -> X <= 2 ^ 1080 ->
  repr a A -> repr b B -> A <= B -> B <= 2 ^ 1135 ->
  exists A' B',
    repr (add_times k x a) A' /\ repr (add_times n x b) B'
    /\ A' <= B' /\ B' <= 2 ^ 1135.
Proof.
  induction k as [|k IH]; intros n x X a A b B Hkn Hx HX Ha Hb HAB HB.
  - destruct (add_times_repr n x X b B Hx HX Hb HB) as (B' & HB' & Hle).
    exists A, B'. cbn [add_times]. repeat split; [exact Ha | exact HB' | lia | lia].
  - destruct n as [|n]; [lia|]. cbn [add_times].
    destruct (add_repr a x A X Ha Hx ltac:(lia) HX) as (Ha1 & _ & _).
    destruct (add_repr b x B X Hb Hx HB HX) as (Hb1 & _ & Hb2).
    apply (IH n x X _ _ _ _ ltac:(lia) Hx HX Ha1 Hb1); [|exact Hb2].
    apply rnd_mono.
    pose proof (repr_nonneg _ _ Ha). pose proof (repr_nonneg _ _ Hx). lia.
Qed.

(** One loop keeps the score below the maximum. *)
Lemma half_repr P n k st S M :
  0 < P <= 64 -> (k <= n)%nat ->
  repr (fst st) S -> repr (snd st) M -> S <= M -> M <= 2 ^ 1135 ->
  exists st' S' M',
    half P n k st = inr st'
    /\ repr (fst st') S' /\ repr (snd st') M' /\ S' <= M' /\ M' <= 2 ^ 1135.
Proof.
  intros HP Hkn HS HM HSM HMB. unfold half.
  destruct n as [|n].
  - exists st, S, M. repeat split; assumption.
  - destruct (int_truediv_repr P (Datatypes.S n) HP ltac:(lia))
      as (x & X & Hdiv & Hx & HX).
    rewrite Hdiv. cbn [bind ret].
    destruct (add_times_le k (Datatypes.S n) x X _ _ _ _ Hkn Hx HX HS HM HSM HMB)
      as (S' & M' & H1 & H2 & H3 & H4).
    eexists _, S', M'. split; [reflexivity|].
    cbn [fst snd]. repeat split; assumption.
Qed.

Lemma round_half_even_nonneg m e : 0 <= Float.round_half_even m e.
Proof.
  unfold Float.round_half_even. destruct e as [|p|p].
  - lia.
  - pose proof (Z.pow_nonneg 2 (Z.pos p) ltac:(lia)). lia.
  - rewrite Z.pow_pos_fold.
    assert (Hd : 0 < 2 ^ Z.pos p) by (apply Z.pow_pos_nonneg; lia).
    pose proof (Z.div_pos (Z.pos m) (2 ^ Z.pos p) ltac:(lia) Hd) as Hq.
    destruct (2 * (Z.pos m mod 2 ^ Z.pos p) ?= 2 ^ Z.pos p);
      [destruct (Z.even _)|..]; lia.
Qed.

Lemma round_repr p N :
  repr p N -> exists r, Float.round p = inr r /\ 0 <= r.
Proof.
  destruct p as [[]| | |[] m e]; cbn; intros H; try contradiction.
  - exists 0. split; [reflexivity | lia].
  - eexists. split; [reflexivity | apply round_half_even_nonneg].
Qed.

(** The quotient of a score by a maximum above it. *)
Lemma div_repr sc mx S M :
  repr sc S -> repr mx M -> S <= M -> Float.gt mx Float.zero = true ->
  exists q Q, Float.div sc mx = inr q /\ repr q Q /\ Q <= 2 ^ 1074.
Proof.
  intros HS HM HSM Hgt. unfold Float.div.
  destruct mx as [[]| | |[] m e]; cbn in HM; try contradiction;
    try discriminate Hgt.
  replace (SFeqb (S754_finite false m e) Float.zero) with false
    by reflexivity.
  change Float.prec with 53. change Float.emax with 1024.
  destruct sc as [[]| | |[] m1 e1]; cbn in HS; try contradiction.
  - exists (S754_zero false), 0. split; [reflexivity|].
    split; [reflexivity|]. apply Z.pow_nonneg. lia.
  - destruct HS as (He1 & _ & ->). destruct HM as (He & _ & ->).
    destruct (SFdiv_below m1 e1 m e 0 1074) as (Q & HQ & Hle); try lia.
    { replace (0 + (e + 1074)) with (e + 1074) by lia. exact HSM. }
    eexists _, Q. split; [reflexivity|]. split; [exact HQ | exact Hle].
Qed.

Lemma finish_defined st S M :
  repr (fst st) S -> repr (snd st) M -> S <= M ->
  exists s, finish st = inr s /\ 0 <= s <= 100.
Proof.
  destruct st as [sc mx]. cbn [fst snd]. intros HS HM HSM. unfold finish.
  assert (Hp : exists p N,
    (if Float.gt mx Float.zero
     then q <- Float.div sc mx ;; ret (Float.mul q (Float.of_int 100))
     else ret Float.zero)%py = inr p /\ repr p N).
  { destruct (Float.gt mx Float.zero) eqn:Hgt.
    - destruct (div_repr sc mx S M HS HM HSM Hgt) as (q & Q & -> & Hq & HQ).
      cbn [bind ret].
      destruct (SFmul_100 q Q Hq HQ) as (P & HP).
      eexists _, P. split; [reflexivity|]. exact HP.
    - exists Float.zero, 0. split; reflexivity. }
  destruct Hp as (p & N & -> & Hp). cbn [bind].
  destruct (round_repr p N Hp) as (r & -> & Hr). cbn [bind ret].
  eexists. split; [reflexivity|]. lia.
Qed.

(** Whatever the lengths of the two lists and the numbers of matches,
    the score is computed, and is between 0 and 100. *)
Lemma score_of_counts_defined n m k j :
  (k <= n)%nat -> (j <= m)%nat ->
  exists s, score_of_counts n m k j = inr s /\ 0 <= s <= 100.
Proof.
  intros Hk Hj. unfold score_of_counts.
  assert (H0 : repr Float.zero 0) by reflexivity.
  assert (Hb : 0 <= 2 ^ 1135) by (apply Z.pow_nonneg; lia).
  destruct (half_repr 60 n k (Float.zero, Float.zero) 0 0
              ltac:(lia) Hk H0 H0 ltac:(lia) Hb)
    as (st1 & S1 & M1 & -> & HS1 & HM1 & HSM1 & HMB1).
  cbn [bind].
  destruct (half_repr 40 m j st1 S1 M1 ltac:(lia) Hj HS1 HM1 HSM1 HMB1)
    as (st2 & S2 & M2 & -> & HS2 & HM2 & HSM2 & _).
  cbn [bind].
  exact (finish_defined st2 S2 M2 HS2 HM2 HSM2).
Qed.

Lemma calculate_match_score_defined user_skills user_keywords fd :
  exists s,
    calculate_match_score user_skills user_keywords fd = inr s
    /\ 0 <= s <= 100.
Proof.
  rewrite calculate_match_score_counts.
  apply score_of_counts_defined.
  - rewrite <- (length_map lower (skills fd)). apply hits_le.
  - rewrite <- (length_map lower (keywords fd)). apply hits_le.
Qed.

End ScoreDefined.

Section Taxonomy.
Import Py JobFieldRecommender Counts.
Local Open Scope py_scope.
Local Open Scope Z_scope.

(** With every skill and every keyword matched the score is 100. *)
Lemma taxonomy_full_match :
  forallb (fun item =>
             let n := List.length (skills (snd item)) in
             let m := List.length (keywords (snd item)) in
             is_100 (score_of_counts n m n m))
          job_fields = true.
Proof. vm_compute. reflexivity. Qed.

Lemma field_match_defined user_skills user_keywords experience_text item :
  exists r, field_match user_skills user_keywords experience_text item = inr r
            /\ field r = fst item /\ 0 <= match_percentage r <= 100.
Proof.
  destruct (calculate_match_score_defined user_skills user_keywords (snd item))
    as [s [Hs Hrange]].
  destruct item as [field_name field_data]. cbn [snd fst] in *.
  unfold field_match. rewrite Hs. cbn [bind ret].
  eexists. split; [reflexivity|]. cbn [field match_percentage].
  split; [reflexivity|].
  destruct (truthy experience_text); [|exact Hrange].
  destruct (contains _ _); lia.
Qed.

Lemma collect_matches_taxonomy user_skills user_keywords experience_text :
  exists unsorted,
    collect_matches user_skills user_keywords experience_text = inr unsorted
    /\ Forall2 (fun item r => field r = fst item
                              /\ 0 <= match_percentage r <= 100)
               job_fields unsorted.
Proof.
  unfold collect_matches. apply for_each_ok.
  apply Forall_forall. intros item _.
  apply field_match_defined.
Qed.

Lemma Forall2_fields (items : list (string * job_field)) recs :
  Forall2 (fun item r => field r = fst item
                         /\ 0 <= match_percentage r <= 100) items recs ->
  map field recs = map fst items
  /\ Forall (fun r => 0 <= match_percentage r <= 100) recs.
Proof.
  induction 1 as [|item r items recs [Hf Hr] _ [IH1 IH2]].
  - split; [reflexivity|constructor].
  - cbn [map]. rewrite Hf, IH1. split; [reflexivity|].
    constructor; assumption.
Qed.

(** ** C1 *)

(** C1.  Whatever the skill list, the keyword list and the experience
    text, every field of the taxonomy gets a score, and that score, an
    integer, after rounding, the +10 bonus and clamping, lies between 0
    and 100; so does every entry of the list the recommender returns. *)
Theorem match_score_between_0_and_100 :
  forall (user_skills : list string) (user_keywords : list keyword)
         (experience_text : string),
    Forall (fun item =>
              exists r,
                field_match user_skills user_keywords experience_text item
                = inr r
                /\ 0 <= match_percentage r <= 100)
           job_fields
    /\ exists ranked,
         get_job_recommendations user_skills user_keywords experience_text
         = inr ranked
         /\ Forall (fun r => 0 <= match_percentage r <= 100) ranked.
Proof.
  intros user_skills user_keywords experience_text. split.
  - apply Forall_forall. intros item Hin.
    destruct (field_match_defined user_skills user_keywords experience_text
                item) as [r [Hr [_ Hrange]]].
    exists r. split; assumption.
  - destruct (collect_matches_taxonomy user_skills user_keywords
                experience_text) as [unsorted [Hc HF]].
    apply Forall2_fields in HF. destruct HF as [_ HF].
    unfold get_job_recommendations. rewrite Hc. cbn [bind ret].
    eexists. split; [reflexivity|].
    apply (Permutation_Forall (sort_desc_perm match_percentage unsorted)).
    exact HF.
Qed.

(** ** C4 *)

Lemma gt_zero_not_zero x :
  Float.gt x Float.zero = true -> SFeqb x Float.zero = false.
Proof.
  unfold Float.gt, Float.zero, SFltb, SFeqb.
  destruct x as [[]|[]| |[] m e]; cbn; congruence.
Qed.

Lemma int_truediv_not_zero_division a b :
  b <> 0 -> Float.int_truediv a b <> inl ZeroDivisionError.
Proof.
  intros Hb. unfold Float.int_truediv.
  apply Z.eqb_neq in Hb. rewrite Hb.
  destruct (Float.is_inf _); discriminate.
Qed.

Lemma half_not_zero_division points n k st :
  half points n k st <> inl ZeroDivisionError.
Proof.
  unfold half. destruct n as [|n']; [discriminate|].
  pose proof (int_truediv_not_zero_division points (Z.of_nat (S n'))) as H.
  destruct (Float.int_truediv points (Z.of_nat (S n'))) as [e|share].
  - cbn [bind]. intros Heq. apply H; [lia|]. congruence.
  - discriminate.
Qed.

Lemma finish_not_zero_division st : finish st <> inl ZeroDivisionError.
Proof.
  destruct st as [score max_score]. unfold finish.
  destruct (Float.gt max_score Float.zero) eqn:Hgt.
  - unfold Float.div. rewrite (gt_zero_not_zero _ Hgt). cbn [bind ret].
    destruct (Float.mul _ _) as [| | |sg m e]; cbn; discriminate.
  - cbn. discriminate.
Qed.

(** C4.  For every job-field definition, whatever the lengths of its two
    lists, the score computation never raises [ZeroDivisionError] and
    returns a score, an integer between 0 and 100: a loop over an empty
    skill list or an empty keyword list is skipped, it divides nothing
    and leaves both the numerator and the denominator as they are, so
    that the score is the one of the other loop alone; when both lists
    are empty the score is 0. *)
Theorem empty_half_is_skipped_without_division :
  forall (user_skills : list string) (user_keywords : list keyword)
         (fd : job_field),
    calculate_match_score user_skills user_keywords fd
    <> inl ZeroDivisionError
    /\ (exists s, calculate_match_score user_skills user_keywords fd = inr s
                  /\ 0 <= s <= 100)
    /\ (forall points user st, accumulate points [] user [] st = inr st)
    /\ (skills fd = [] ->
        calculate_match_score user_skills user_keywords fd
        = (st <- accumulate 40 (map lower (keywords fd))
                   (map (fun k => lower (word k)) user_keywords)
                   (map lower (keywords fd)) (Float.zero, Float.zero) ;;
           finish st)%py)
    /\ (keywords fd = [] ->
        calculate_match_score user_skills user_keywords fd
        = (st <- accumulate 60 (map lower (skills fd))
                   (map lower user_skills)
                   (map lower (skills fd)) (Float.zero, Float.zero) ;;
           finish st)%py)
    /\ (skills fd = [] -> keywords fd = [] ->
        calculate_match_score user_skills user_keywords fd = inr 0).
Proof.
  intros user_skills user_keywords fd.
  split; [|split; [|split; [|split; [|split]]]].
  - rewrite calculate_match_score_counts. unfold score_of_counts.
    destruct (half 60 _ _ _) as [e|st] eqn:H1.
    + cbn [bind]. intros Heq. injection Heq as ->.
      exact (half_not_zero_division _ _ _ _ H1).
    + cbn [bind]. destruct (half 40 _ _ _) as [e|st'] eqn:H2.
      * cbn [bind]. intros Heq. injection Heq as ->.
        exact (half_not_zero_division _ _ _ _ H2).
      * cbn [bind]. apply finish_not_zero_division.
  - apply calculate_match_score_defined.
  - reflexivity.
  - intros Hs. unfold calculate_match_score. rewrite Hs.
    cbn [map accumulate bind ret].
    destruct (accumulate 40 _ _ _ _) as [e|[score max_score]]; reflexivity.
  - intros Hk. unfold calculate_match_score. rewrite Hk. cbn [map].
    destruct (accumulate 60 _ _ _ _) as [e|[score max_score]]; reflexivity.
  - intros Hs Hk. unfold calculate_match_score. rewrite Hs, Hk. reflexivity.
Qed.

End Taxonomy.

Section Ranking.
Import Py JobFieldRecommender Counts Scenario.
Local Open Scope py_scope.
Local Open Scope Z_scope.

Lemma job_field_names_distinct : NoDup (map fst job_fields).
Proof.
  assert (H : nodup string_dec (map fst job_fields) = map fst job_fields)
    by (vm_compute; reflexivity).
  rewrite <- H. apply NoDup_nodup.
Qed.

(** ** C6 *)

(** C6.  Whatever the inputs, the recommender returns one entry for each
    field of the taxonomy and no other (the field names of the list
    before sorting are those of the taxonomy in its order, they are
    pairwise distinct, and sorting only permutes the entries), in
    descending order of score, and the entries that share a score stand
    in the order of the taxonomy. *)
Theorem recommendations_ranked_stably :
  forall (user_skills : list string) (user_keywords : list keyword)
         (experience_text : string),
  exists unsorted ranked,
    collect_matches user_skills user_keywords experience_text = inr unsorted
    /\ get_job_recommendations user_skills user_keywords experience_text
       = inr ranked
    /\ map field unsorted = map fst job_fields
    /\ NoDup (map fst job_fields)
    /\ Permutation unsorted ranked
    /\ List.length ranked = List.length job_fields
    /\ StronglySorted (desc match_percentage) ranked
    /\ forall v,
         filter (fun r => match_percentage r =? v) ranked
         = filter (fun r => match_percentage r =? v) unsorted.
Proof.
  intros user_skills user_keywords experience_text.
  destruct (collect_matches_taxonomy user_skills user_keywords
              experience_text) as [unsorted [Hc HF]].
  apply Forall2_fields in HF. destruct HF as [Hnames _].
  exists unsorted, (sort_desc match_percentage unsorted).
  split; [exact Hc|].
  split; [unfold get_job_recommendations; rewrite Hc; reflexivity|].
  split; [exact Hnames|].
  split.
  { exact job_field_names_distinct. }
  split; [apply sort_desc_perm|].
  split.
  { rewrite <- (Permutation_length (sort_desc_perm match_percentage unsorted)).
    rewrite <- (length_map field), Hnames, length_map. reflexivity. }
  split; [apply sort_desc_sorted|].
  intros v. apply sort_desc_stable.
Qed.

(** ** C7 *)

(** C7.  For a field of the taxonomy, when the candidate's skills hold,
    up to case, every skill of the field and the candidate's keyword
    words hold, up to case, every keyword of the field, the score
    computed before any experience bonus is exactly 100. *)
Theorem full_match_scores_100 :
  forall (field_name : string) (fd : job_field)
         (user_skills : list string) (user_keywords : list keyword),
    In (field_name, fd) job_fields ->
    (forall s, In s (skills fd) -> In (lower s) (map lower user_skills)) ->
    (forall k, In k (keywords fd) ->
               In (lower k) (map (fun u => lower (word u)) user_keywords)) ->
    calculate_match_score user_skills user_keywords fd = inr 100.
Proof.
  intros field_name fd user_skills user_keywords Hin Hs Hk.
  rewrite calculate_match_score_counts.
  rewrite !hits_all.
  - pose proof taxonomy_full_match as H.
    rewrite forallb_forall in H. specialize (H _ Hin).
    cbn [snd] in H. rewrite !length_map.
    destruct (score_of_counts _ _ _ _) as [e|s]; [discriminate|].
    cbn [is_100] in H. apply Z.eqb_eq in H. congruence.
  - intros item Hitem. apply in_map_iff in Hitem.
    destruct Hitem as [k [<- Hk']]. apply Hk, Hk'.
  - intros item Hitem. apply in_map_iff in Hitem.
    destruct Hitem as [s [<- Hs']]. apply Hs, Hs'.
Qed.

Lemma full_match_scores_100_witness :
  In ("Mobile Developer", mobile_developer) job_fields
  /\ (forall s, In s (skills mobile_developer) ->
                In (lower s) (map lower mobile_skills))
  /\ (forall k, In k (keywords mobile_developer) ->
                In (lower k) (map (fun u => lower (word u)) mobile_keywords))
  /\ calculate_match_score mobile_skills mobile_keywords mobile_developer
     = inr 100.
Proof.
  assert (H1 : In ("Mobile Developer", mobile_developer) job_fields)
    by (vm_compute; tauto).
  assert (H2 : forall s, In s (skills mobile_developer) ->
                         In (lower s) (map lower mobile_skills))
    by (apply all_mem_In; vm_compute; reflexivity).
  assert (H3 : forall k, In k (keywords mobile_developer) ->
                 In (lower k) (map (fun u => lower (word u)) mobile_keywords))
    by (apply all_mem_In; vm_compute; reflexivity).
  split; [exact H1|]. split; [exact H2|]. split; [exact H3|].
  exact (full_match_scores_100 "Mobile Developer" mobile_developer
           mobile_skills mobile_keywords H1 H2 H3).
Defined.

Lemma empty_half_is_skipped_without_division_witness :
  skills keywords_only = []
  /\ calculate_match_score ["Python"] [{| word := "Testing"; count := 4 |}]
       keywords_only <> inl ZeroDivisionError
  /\ exists s,
       calculate_match_score ["Python"] [{| word := "Testing"; count := 4 |}]
         keywords_only = inr s
       /\ 0 <= s <= 100.
Proof.
  destruct (empty_half_is_skipped_without_division
              ["Python"] [{| word := "Testing"; count := 4 |}] keywords_only)
    as [H1 [H2 _]].
  split; [reflexivity|]. split; [exact H1 | exact H2].
Defined.

End Ranking.

Section SoftwareEngineerScenario.
Import Py JobFieldRecommender Counts Scenario.
Local Open Scope py_scope.
Local Open Scope Z_scope.

Lemma hits_ext (p : string -> bool) user items :
  (forall item, In item items -> mem item user = p item) ->
  hits user items = List.length (filter p items).
Proof.
  intros H. unfold hits. f_equal. apply filter_ext_in. exact H.
Qed.

Lemma mem_eq_iff x l (b : bool) :
  (In x l <-> b = true) -> mem x l = b.
Proof.
  intros H. destruct b.
  - apply mem_In, H. reflexivity.
  - destruct (mem x l) eqn:Hm; [|reflexivity].
    apply mem_In in Hm. apply H in Hm. discriminate.
Qed.

(** ** C8 *)

(** C8, as the claim states it, fails: the Software Engineer field has 22
    skills, not 21, and with the skills Python and Docker the score after
    the skill loop lies between 5.45 and 5.46, not near 5.71.  Nor is it
    enough that the keyword words include "developer": with "agile" next
    to it the rounded score is 13. *)
Lemma software_engineer_has_22_skills :
  List.length (skills software_engineer) = 22%nat
  /\ List.length (skills software_engineer) <> 21%nat
  /\ (exists score max_score,
        after_skills ["Python"; "Docker"] software_engineer
        = inr (score, max_score)
        /\ within_hundredths 545 546 score = true
        /\ within_hundredths 570 572 score = false)
  /\ calculate_match_score
       ["Python"; "Docker"]
       [ {| word := "Developer"; count := 2 |};
         {| word := "Agile"; count := 1 |} ]
       software_engineer = inr 13.
Proof.
  split; [reflexivity|]. split; [discriminate|]. split.
  - eexists. eexists. split; [vm_compute; reflexivity|].
    split; vm_compute; reflexivity.
  - vm_compute. reflexivity.
Qed.

(** C8, amended.  For a candidate whose skills are exactly Python and
    Docker and whose keyword words hold "developer" and no other keyword
    of the field: the Software Engineer field has 22 skills and 11
    keywords; the skill loop leaves the score 60/22 + 60/22, between
    5.45 and 5.46; the keyword loop adds 40/11, between 3.63 and 3.64;
    and the rounded score before any bonus is 9. *)
Theorem software_engineer_python_docker_developer :
  forall (user_skills : list string) (user_keywords : list keyword),
    (forall s, In s user_skills <-> s = "Python" \/ s = "Docker") ->
    (forall k, In k (keywords software_engineer) ->
               (In k (map (fun u => lower (word u)) user_keywords)
                <-> k = "developer")) ->
    In ("Software Engineer", software_engineer) job_fields
    /\ List.length (skills software_engineer) = 22%nat
    /\ List.length (keywords software_engineer) = 11%nat
    /\ exists share60 share40 score max_score max_score',
         Float.int_truediv 60 22 = inr share60
         /\ Float.int_truediv 40 11 = inr share40
         /\ after_skills user_skills software_engineer
            = inr (score, max_score)
         /\ score = Float.add (Float.add Float.zero share60) share60
         /\ within_hundredths 545 546 score = true
         /\ within_hundredths 363 364 share40 = true
         /\ after_keywords user_keywords software_engineer (score, max_score)
            = inr (Float.add score share40, max_score')
         /\ calculate_match_score user_skills user_keywords software_engineer
            = inr 9.
Proof.
  intros user_skills user_keywords Hs Hk.
  assert (Hhs : hits (map lower user_skills)
                     (map lower (skills software_engineer)) = 2%nat).
  { rewrite (hits_ext (fun item => (String.eqb item "python"
                                    || String.eqb item "docker")%bool)).
    - vm_compute. reflexivity.
    - intros item _. apply mem_eq_iff.
      rewrite in_map_iff, orb_true_iff, !String.eqb_eq. split.
      + intros [s [<- Hin]]. apply Hs in Hin.
        destruct Hin as [->| ->]; [left|right]; reflexivity.
      + intros [->| ->]; [exists "Python"|exists "Docker"];
          (split; [reflexivity|apply Hs; tauto]). }
  assert (Hhk : hits (map (fun u => lower (word u)) user_keywords)
                     (map lower (keywords software_engineer)) = 1%nat).
  { rewrite (hits_ext (fun item => String.eqb item "developer")).
    - vm_compute. reflexivity.
    - intros item Hin. apply mem_eq_iff. rewrite String.eqb_eq.
      assert (Hlow : map lower (keywords software_engineer)
                     = keywords software_engineer)
        by (vm_compute; reflexivity).
      rewrite Hlow in Hin. apply Hk, Hin. }
  split; [vm_compute; tauto|].
  split; [reflexivity|]. split; [reflexivity|].
  eexists. eexists. eexists. eexists. eexists.
  split; [vm_compute; reflexivity|].
  split; [vm_compute; reflexivity|].
  split.
  { unfold after_skills. rewrite accumulate_half, Hhs.
    vm_compute. reflexivity. }
  split; [vm_compute; reflexivity|].
  split; [vm_compute; reflexivity|].
  split; [vm_compute; reflexivity|].
  split.
  { unfold after_keywords. rewrite accumulate_half, Hhk.
    vm_compute. reflexivity. }
  rewrite calculate_match_score_counts, Hhs, Hhk.
  vm_compute. reflexivity.
Qed.

Lemma software_engineer_python_docker_developer_witness :
  let user_skills := ["Docker"; "Python"] in
  let user_keywords := [ {| word := "Developer"; count := 2 |};
                         {| word := "Team"; count := 1 |} ] in
  (forall s, In s user_skills <-> s = "Python" \/ s = "Docker")
  /\ (forall k, In k (keywords software_engineer) ->
                (In k (map (fun u => lower (word u)) user_keywords)
                 <-> k = "developer"))
  /\ calculate_match_score user_skills user_keywords software_engineer
     = inr 9.
Proof.
  intros user_skills user_keywords.
  assert (H1 : forall s, In s user_skills <-> s = "Python" \/ s = "Docker").
  { intros s. cbn. intuition congruence. }
  assert (H2 : forall k, In k (keywords software_engineer) ->
                 (In k (map (fun u => lower (word u)) user_keywords)
                  <-> k = "developer")).
  { intros k Hin. vm_compute in Hin. vm_compute.
    intuition (subst; try discriminate; auto). }
  split; [exact H1|]. split; [exact H2|].
  pose proof (software_engineer_python_docker_developer
                user_skills user_keywords H1 H2) as H.
  decompose [and ex] H. assumption.
Defined.

End SoftwareEngineerScenario.

(* ================================================================== *)
(** * The matcher only returns texts of the pattern's language *)
(* ================================================================== *)

Section Strings.
Import Py.

Lemma append_assoc_s s1 s2 s3 :
  ((s1 ++ s2) ++ s3)%string = (s1 ++ (s2 ++ s3))%string.
Proof. induction s1 as [|c s1 IH]; cbn; [reflexivity|now rewrite IH]. Qed.

Lemma length_append s1 s2 :
  String.length (s1 ++ s2) = (String.length s1 + String.length s2)%nat.
Proof. induction s1 as [|c s1 IH]; cbn; [reflexivity|now rewrite IH]. Qed.

Lemma take_append s1 s2 :
  take (String.length (s1 ++ s2) - String.length s2) (s1 ++ s2) = s1.
Proof.
  rewrite length_append.
  replace (String.length s1 + String.length s2 - String.length s2)%nat
    with (String.length s1) by lia.
  induction s1 as [|c s1 IH]; cbn.
  - destruct s2; reflexivity.
  - now rewrite IH.
Qed.

End Strings.

Section Soundness.
Import Py Re Lang.
Variable ignorecase : bool.

Lemma exec_sound (A : Type) (r : regex) :
  forall (k : option ascii -> string -> option A) prev rest a,
    exec ignorecase A r k prev rest = Some a ->
    exists s1 s2 prev',
      rest = (s1 ++ s2)%string /\ matches ignorecase r s1
      /\ k prev' s2 = Some a.
Proof.
  induction r as [|c|p|r1 IH1 r2 IH2|r1 IH1 r2 IH2|r1 IH1|];
    intros k prev rest a H; cbn [exec] in H.
  - exists EmptyString, rest, prev. repeat split; [constructor|exact H].
  - destruct rest as [|x rest']; [discriminate|].
    destruct (chr_match ignorecase c x) eqn:Hc; [|discriminate].
    exists (String x EmptyString), rest', (Some x).
    repeat split; [constructor; exact Hc|exact H].
  - destruct rest as [|x rest']; [discriminate|].
    destruct (cls_match ignorecase p x) eqn:Hc; [|discriminate].
    exists (String x EmptyString), rest', (Some x).
    repeat split; [constructor; exact Hc|exact H].
  - apply IH1 in H. destruct H as [s1 [s2 [prev1 [-> [Hm1 H]]]]].
    apply IH2 in H. destruct H as [t1 [t2 [prev2 [-> [Hm2 H]]]]].
    exists (s1 ++ t1)%string, t2, prev2.
    split; [symmetry; apply append_assoc_s|].
    split; [constructor; assumption|exact H].
  - destruct (exec ignorecase A r1 k prev rest) as [a'|] eqn:H1.
    + injection H as <-. apply IH1 in H1.
      destruct H1 as [s1 [s2 [prev' [-> [Hm H]]]]].
      exists s1, s2, prev'. repeat split; [apply M_AltL; exact Hm|exact H].
    + apply IH2 in H. destruct H as [s1 [s2 [prev' [-> [Hm H]]]]].
      exists s1, s2, prev'. repeat split; [apply M_AltR; exact Hm|exact H].
  - revert H. generalize (String.length rest) at 1. intros fuel.
    revert prev rest a.
    induction fuel as [|fuel IHf]; intros prev rest a H.
    + exists EmptyString, rest, prev. repeat split; [constructor|exact H].
    + match type of H with
      | match ?e with Some _ => _ | None => _ end = _ =>
          destruct e as [a'|] eqn:H1
      end.
      * injection H as <-. apply IH1 in H1.
        destruct H1 as [s1 [s2 [prev1 [-> [Hm1 H]]]]].
        destruct (Nat.ltb _ _); [|discriminate].
        apply IHf in H. destruct H as [t1 [t2 [prev2 [-> [Hm2 H]]]]].
        exists (s1 ++ t1)%string, t2, prev2.
        split; [symmetry; apply append_assoc_s|].
        split; [apply M_StarS; assumption|exact H].
      * exists EmptyString, rest, prev.
        repeat split; [constructor|exact H].
  - destruct (at_boundary prev rest); [|discriminate].
    exists EmptyString, rest, prev. repeat split; [constructor|exact H].
Qed.

Lemma match_here_sound r must_advance prev rest prev' rest' :
  match_here ignorecase r must_advance prev rest = Some (prev', rest') ->
  exists g, rest = (g ++ rest')%string /\ matches ignorecase r g.
Proof.
  unfold match_here. intros H. apply exec_sound in H.
  destruct H as [s1 [s2 [p [-> [Hm H]]]]].
  destruct (_ && _)%bool; [discriminate|].
  injection H as _ <-. exists s1. split; [reflexivity|exact Hm].
Qed.

Lemma match_here_take r must_advance prev rest prev' rest' :
  match_here ignorecase r must_advance prev rest = Some (prev', rest') ->
  matches ignorecase r
          (take (String.length rest - String.length rest') rest).
Proof.
  intros H. apply match_here_sound in H.
  destruct H as [g [-> Hg]]. rewrite take_append. exact Hg.
Qed.

Lemma scan_sound r rest :
  forall must_advance prev g pos,
    scan ignorecase r must_advance prev rest = Some (g, pos) ->
    matches ignorecase r g.
Proof.
  induction rest as [|c rest IH]; intros must_advance prev g pos H;
    cbn [scan] in H.
  - destruct (match_here ignorecase r must_advance prev EmptyString)
      as [[prev' rest']|] eqn:Hm; [|discriminate].
    injection H as <- _. apply match_here_take in Hm. exact Hm.
  - destruct (match_here ignorecase r must_advance prev (String c rest))
      as [[prev' rest']|] eqn:Hm.
    + injection H as <- _. apply match_here_take in Hm. exact Hm.
    + eapply IH. exact H.
Qed.

Lemma findall_loop_sound r fuel :
  forall must_advance prev rest,
    Forall (matches ignorecase r)
           (findall_loop fuel ignorecase r must_advance prev rest).
Proof.
  induction fuel as [|fuel IH]; intros must_advance prev rest;
    cbn [findall_loop].
  - constructor.
  - destruct (scan ignorecase r must_advance prev rest)
      as [[g [prev' rest']]|] eqn:Hs; [|constructor].
    constructor; [eapply scan_sound; exact Hs|apply IH].
Qed.

Lemma findall_sound r text :
  Forall (matches ignorecase r) (findall ignorecase r text).
Proof. apply findall_loop_sound. Qed.

End Soundness.

(* ================================================================== *)
(** * The keyword extractor *)
(* ================================================================== *)

Section Characters.
Import Py Lang.

Ltac by_cases_on c :=
  destruct c as [[] [] [] [] [] [] [] []]; vm_compute;
  intros; solve [reflexivity | discriminate | congruence].

Lemma is_az_cased c : is_az c = true -> iscased c = true.
Proof. by_cases_on c. Qed.

Lemma is_az_lower c : is_az c = true -> lower_char c = c.
Proof. by_cases_on c. Qed.

Lemma is_az_upper c : is_az c = true -> is_AZ (upper_char c) = true.
Proof. by_cases_on c. Qed.

Lemma title_from_az s :
  all_chars is_az s = true -> title_from true s = s.
Proof.
  induction s as [|c s IH]; cbn [all_chars title_from]; [reflexivity|].
  intros H. apply andb_true_iff in H. destruct H as [Hc Hs].
  rewrite (is_az_lower c Hc), (is_az_cased c Hc), (IH Hs). reflexivity.
Qed.

Lemma all_chars_impl (p q : ascii -> bool) s :
  (forall c, p c = true -> q c = true) ->
  all_chars p s = true -> all_chars q s = true.
Proof.
  intros Hpq. induction s as [|c s IH]; cbn [all_chars]; [reflexivity|].
  intros H. apply andb_true_iff in H. destruct H as [Hc Hs].
  rewrite (Hpq c Hc), (IH Hs). reflexivity.
Qed.

Lemma all_chars_app p s1 s2 :
  all_chars p (s1 ++ s2) = (all_chars p s1 && all_chars p s2)%bool.
Proof.
  induction s1 as [|c s1 IH]; cbn [all_chars append]; [reflexivity|].
  rewrite IH. apply andb_assoc.
Qed.

(** The title-cased form of a run of [a]..[z]: its first letter in upper
    case, the others unchanged; only letters. *)
Lemma title_az_word token :
  az_word token ->
  title token <> EmptyString /\ all_chars isletter (title token) = true.
Proof.
  intros [Hne Haz]. destruct token as [|c s]; [congruence|].
  cbn [all_chars] in Haz. apply andb_true_iff in Haz.
  destruct Haz as [Hc Hs].
  unfold title. cbn [title_from].
  rewrite (is_az_cased c Hc), (title_from_az s Hs).
  split; [discriminate|].
  cbn [all_chars]. unfold isletter at 1.
  rewrite (is_az_upper c Hc), orb_true_r. cbn [andb].
  eapply all_chars_impl; [|exact Hs].
  intros x Hx. unfold isletter. rewrite Hx. reflexivity.
Qed.

End Characters.

Section Keywords.
Import Py Re Lang ResumeParser.

Lemma matches_seq_inv ic r1 r2 g :
  matches ic (Seq r1 r2) g ->
  exists g1 g2, g = (g1 ++ g2)%string /\ matches ic r1 g1 /\ matches ic r2 g2.
Proof. inversion 1; subst; eauto. Qed.

Lemma matches_wordb_inv ic g : matches ic WordB g -> g = EmptyString.
Proof. inversion 1; reflexivity. Qed.

Lemma matches_cls_inv ic p g :
  matches ic (Cls p) g ->
  exists x, g = String x EmptyString /\ cls_match ic p x = true.
Proof. inversion 1; subst; eauto. Qed.

Lemma az_class x :
  cls_match false (fun c => existsb (fun p => p c) [range "a" "z"]) x = true ->
  is_az x = true.
Proof.
  unfold cls_match. cbn. rewrite !orb_false_r. intros H. exact H.
Qed.

Lemma star_az_class g :
  matches false (Star (cls [range "a" "z"])) g -> all_chars is_az g = true.
Proof.
  intros H. remember (Star (cls [range "a" "z"])) as r eqn:Hr.
  induction H as [ | ? ? ? | ? ? ? | ? ? ? ? ? ? ? ? | ? ? ? ? ? | ? ? ? ? ?
                 | ? | ra ga gb Ha IHa Hb IHb | ];
    try discriminate.
  - reflexivity.
  - injection Hr as ->. rewrite all_chars_app, (IHb eq_refl), andb_true_r.
    apply matches_cls_inv in Ha. destruct Ha as [x [-> Hx]].
    cbn [all_chars]. rewrite (az_class x Hx). reflexivity.
Qed.

(** What [\b[a-z]+\b] matches is a non-empty run of [a]..[z]. *)
Lemma word_pattern_az g : matches false word_pattern g -> az_word g.
Proof.
  unfold word_pattern. cbn [seq plus]. intros H.
  apply matches_seq_inv in H. destruct H as [b1 [g1 [-> [Hb1 H]]]].
  apply matches_wordb_inv in Hb1. subst b1.
  apply matches_seq_inv in H. destruct H as [g2 [b2 [-> [H Hb2]]]].
  apply matches_wordb_inv in Hb2. subst b2.
  apply matches_seq_inv in H. destruct H as [g3 [g4 [-> [Hone Hstar]]]].
  apply star_az_class in Hstar.
  apply matches_cls_inv in Hone. destruct Hone as [x [-> Hx]].
  apply az_class in Hx.
  split.
  - cbn. discriminate.
  - cbn [append all_chars]. rewrite Hx, all_chars_app, Hstar. reflexivity.
Qed.

Lemma words_are_az text :
  Forall az_word (findall false word_pattern text).
Proof.
  eapply Forall_impl; [|apply findall_sound].
  intros g. apply word_pattern_az.
Qed.

Lemma counter_add_keys word counts w n :
  In (w, n) (counter_add word counts) ->
  w = word \/ exists n', In (w, n') counts.
Proof.
  induction counts as [|[k c] counts IH]; cbn [counter_add].
  - intros [H|[]]. injection H as <- _. left. reflexivity.
  - destruct (String.eqb k word) eqn:Hk.
    + apply String.eqb_eq in Hk. subst k.
      intros [H|H].
      * injection H as <- _. left. reflexivity.
      * right. exists n. right. exact H.
    + intros [H|H].
      * injection H as <- <-. right. exists c. left. reflexivity.
      * apply IH in H. destruct H as [H|[n' H]]; [left; exact H|].
        right. exists n'. right. exact H.
Qed.

Lemma Counter_keys words w n : In (w, n) (Counter words) -> In w words.
Proof.
  unfold Counter.
  assert (H : forall counts,
             In (w, n) (fold_left (fun c x => counter_add x c) words counts)
             -> In w words \/ exists n', In (w, n') counts).
  { induction words as [|x words IH]; intros counts; cbn [fold_left].
    - intros H. right. exists n. exact H.
    - intros H. apply IH in H. destruct H as [H|[n' H]].
      + left. right. exact H.
      + apply counter_add_keys in H. destruct H as [->|H].
        * left. left. reflexivity.
        * right. exact H. }
  intros Hin. apply H in Hin. destruct Hin as [Hin|[n' []]]. exact Hin.
Qed.

Lemma firstn_incl {A} n (l : list A) x : In x (firstn n l) -> In x l.
Proof.
  revert l. induction n as [|n IH]; intros [|y l]; cbn [firstn];
    try contradiction.
  intros [->|H]; [left; reflexivity|right; apply IH, H].
Qed.

Lemma most_common_keys n words w c :
  In (w, c) (most_common n (Counter words)) -> In w words.
Proof.
  unfold most_common. intros H. apply firstn_incl in H.
  apply (Permutation_in _ (Permutation_sym (sort_desc_perm snd _))) in H.
  eapply Counter_keys. exact H.
Qed.

Lemma extract_keywords_tokens text k :
  In k (extract_keywords text) ->
  exists token,
    In token (findall false word_pattern (lower text))
    /\ az_word token
    /\ JobFieldRecommender.word k = title token.
Proof.
  unfold extract_keywords. intros H. apply in_map_iff in H.
  destruct H as [[w c] [<- H]]. apply most_common_keys in H.
  apply filter_In in H. destruct H as [H _].
  exists w. split; [exact H|]. split; [|reflexivity].
  pose proof (words_are_az (lower text)) as Haz.
  rewrite Forall_forall in Haz. apply Haz, H.
Qed.

Lemma extract_keywords_letters text name :
  In name (map JobFieldRecommender.word (extract_keywords text)) ->
  name <> EmptyString /\ all_chars isletter name = true.
Proof.
  intros H. apply in_map_iff in H. destruct H as [k [<- Hk]].
  apply extract_keywords_tokens in Hk.
  destruct Hk as [token [_ [Haz ->]]]. apply title_az_word, Haz.
Qed.

(** ** C10 *)

(** C10.  For every text: the tokens are non-empty runs of the letters
    [a] to [z]; every word of the keyword-frequency output is the
    title-cased form of one such token, so it is made of letters only;
    and hence a skill name with a space, a digit or punctuation in it,
    such as "Machine Learning", "C++", "Node.js" or "HTML5", is never a
    word of the output, whatever the text contains. *)
Theorem keyword_words_are_title_cased_letter_runs :
  forall text : string,
    Forall az_word (findall false word_pattern (lower text))
    /\ Forall (fun k =>
                 exists token,
                   In token (findall false word_pattern (lower text))
                   /\ az_word token
                   /\ JobFieldRecommender.word k = title token)
              (extract_keywords text)
    /\ (forall name,
          In name (map JobFieldRecommender.word (extract_keywords text)) ->
          name <> EmptyString /\ all_chars isletter name = true)
    /\ (forall name,
          all_chars isletter name = false ->
          ~ In name (map JobFieldRecommender.word (extract_keywords text)))
    /\ Forall (fun name =>
                 In name all_skills
                 /\ ~ In name (map JobFieldRecommender.word
                                   (extract_keywords text)))
              ["Machine Learning"; "C++"; "Node.js"; "HTML5"].
Proof.
  intros text.
  assert (Hnot : forall name,
             all_chars isletter name = false ->
             ~ In name (map JobFieldRecommender.word
                            (extract_keywords text))).
  { intros name Hname Hin. apply extract_keywords_letters in Hin.
    destruct Hin as [_ Hl]. congruence. }
  split; [apply words_are_az|].
  split; [apply Forall_forall; intros k; apply extract_keywords_tokens|].
  split; [apply extract_keywords_letters|].
  split; [exact Hnot|].
  repeat (apply Forall_cons;
          [split; [apply mem_In; vm_compute; reflexivity
                  |apply Hnot; vm_compute; reflexivity]|]).
  apply Forall_nil.
Qed.

Lemma keyword_words_are_title_cased_letter_runs_witness :
  all_chars isletter "C++" = false
  /\ ~ In "C++"
         (map JobFieldRecommender.word
              (extract_keywords "Senior C++ developer, Node.js and HTML5")).
Proof.
  assert (H : all_chars isletter "C++" = false) by (vm_compute; reflexivity).
  split; [exact H|].
  exact (proj1 (proj2 (proj2 (proj2
           (keyword_words_are_title_cased_letter_runs
              "Senior C++ developer, Node.js and HTML5")))) "C++" H).
Defined.

End Keywords.

(* ================================================================== *)
(** * The extractors and [parse_resume] *)
(* ================================================================== *)

Section Parsing.
Import Py ResumeParser Samples.
Local Open Scope py_scope.

(** ** C9 *)

(** C9.  On the text of the scenario the experience extractor returns
    one entry, the boundary line and the line after it joined by a
    space; the scan stops at the education line: whatever follows that
    line, the result is the same. *)
Theorem work_history_gives_one_entry :
  extract_experience work_history
  = ["Software Engineer at Acme Inc 2019-2021 Built backend services"]
  /\ forall later : string,
       extract_experience (work_history_head ++ later)
       = ["Software Engineer at Acme Inc 2019-2021 Built backend services"].
Proof.
  split.
  - vm_compute. reflexivity.
  - intros later. vm_compute. reflexivity.
Qed.

(** ** The extractors raise nothing *)

Lemma truthy_nonempty s : truthy s = true -> s <> EmptyString.
Proof. destruct s; [discriminate|discriminate]. Qed.

Lemma stripped_lines_nonempty text :
  Forall (fun line => line <> EmptyString) (stripped_lines text).
Proof.
  unfold stripped_lines. apply Forall_forall. intros line Hin.
  apply in_map_iff in Hin. destruct Hin as [raw [<- Hraw]].
  apply filter_In in Hraw. apply truthy_nonempty, Hraw.
Qed.

Lemma find_name_total lines :
  Forall (fun line => line <> EmptyString) lines ->
  exists found, find_name lines = inr found.
Proof.
  induction 1 as [|line lines Hline _ IH]; cbn [find_name].
  - eexists. reflexivity.
  - destruct (existsb _ _); [exact IH|].
    destruct (_ || _)%bool; [exact IH|].
    destruct (_ && _)%bool; [|exact IH].
    destruct line as [|c line']; [congruence|].
    cbn [first_char bind ret].
    destruct (isupper c); [eexists; reflexivity|exact IH].
Qed.

Lemma Forall_firstn {A} (P : A -> Prop) n l :
  Forall P l -> Forall P (firstn n l).
Proof.
  intros H. apply Forall_forall. intros x Hx.
  rewrite Forall_forall in H. apply H. eapply firstn_incl. exact Hx.
Qed.

Lemma extract_contact_info_total text :
  exists c, extract_contact_info text = inr c.
Proof.
  unfold extract_contact_info.
  destruct (find_name_total (firstn 5 (stripped_lines text)))
    as [found Hfound].
  - apply Forall_firstn, stripped_lines_nonempty.
  - rewrite Hfound. eexists. reflexivity.
Qed.

Lemma extract_experience_length text :
  (List.length (extract_experience text) <= 5)%nat.
Proof. unfold extract_experience. apply firstn_le_length. Qed.

Lemma extract_education_length text :
  (List.length (extract_education text) <= 3)%nat.
Proof. unfold extract_education. apply firstn_le_length. Qed.

Lemma extract_keywords_length text :
  (List.length (extract_keywords text) <= 20)%nat.
Proof.
  unfold extract_keywords, most_common. rewrite length_map.
  apply firstn_le_length.
Qed.

Variable list_of_set : list string -> list string.
Variable extract_text_from_pdf : string -> result string.
Variable extract_text_from_docx : string -> result string.
Variable extract_text_from_txt : string -> result string.

Lemma parse_resume_nonblank self file_path filename text log :
  read_text extract_text_from_pdf extract_text_from_docx
            extract_text_from_txt file_path filename = inr text ->
  strip text <> EmptyString ->
  parse_resume extract_text_from_pdf extract_text_from_docx
               extract_text_from_txt self file_path filename log
  = t_bind (call ContactInfo (call_contact_info self text)) (fun c =>
    t_bind (call Skills (call_skills self text)) (fun s =>
    t_bind (call Experience (call_experience self text)) (fun x =>
    t_bind (call Education (call_education self text)) (fun e =>
    t_bind (call Keywords (call_keywords self text)) (fun k =>
    t_ret {| p_contact_info := c;
             p_skills := s;
             p_experience := x;
             p_education := e;
             p_keywords := k;
             p_raw_text := take 1000 text |}))))) log.
Proof.
  intros Hread Hstrip. unfold parse_resume.
  unfold t_bind at 1. unfold t_lift. rewrite Hread.
  destruct (strip text); [congruence|]. reflexivity.
Qed.

Lemma parse_resume_parser file_path filename text log :
  read_text extract_text_from_pdf extract_text_from_docx
            extract_text_from_txt file_path filename = inr text ->
  strip text <> EmptyString ->
  exists c,
    extract_contact_info text = inr c
    /\ parse_resume extract_text_from_pdf extract_text_from_docx
                    extract_text_from_txt (parser list_of_set)
                    file_path filename log
       = (inr {| p_contact_info := c;
                 p_skills := extract_skills list_of_set text;
                 p_experience := extract_experience text;
                 p_education := extract_education text;
                 p_keywords := extract_keywords text;
                 p_raw_text := take 1000 text |},
          log ++ all_extractors).
Proof.
  intros Hread Hstrip.
  destruct (extract_contact_info_total text) as [c Hc].
  exists c. split; [exact Hc|].
  rewrite (parse_resume_nonblank _ _ _ _ _ Hread Hstrip).
  unfold t_bind, call, t_ret, parser. cbn [call_contact_info call_skills
    call_experience call_education call_keywords].
  rewrite Hc. cbn [ret]. f_equal.
  unfold all_extractors. rewrite <- !app_assoc. reflexivity.
Qed.

(** ** C2 *)

(** C2.  When the text read from the file is not blank, [parse_resume]
    raises nothing: it enters the five extractors and returns a record
    with at most 5 experience entries, at most 3 education entries and
    at most 20 keyword entries. *)
Theorem nonblank_text_parses_within_caps :
  forall (file_path filename text : string),
    read_text extract_text_from_pdf extract_text_from_docx
              extract_text_from_txt file_path filename = inr text ->
    strip text <> EmptyString ->
    exists r,
      parse_resume extract_text_from_pdf extract_text_from_docx
                   extract_text_from_txt (parser list_of_set)
                   file_path filename []
      = (inr r, all_extractors)
      /\ (List.length (p_experience r) <= 5)%nat
      /\ (List.length (p_education r) <= 3)%nat
      /\ (List.length (p_keywords r) <= 20)%nat.
Proof.
  intros file_path filename text Hread Hstrip.
  destruct (parse_resume_parser file_path filename text [] Hread Hstrip)
    as [c [_ Hparse]].
  eexists. split; [exact Hparse|]. cbn [p_experience p_education p_keywords].
  split; [apply extract_experience_length|].
  split; [apply extract_education_length|apply extract_keywords_length].
Qed.

(** ** C3 *)

(** C3.  When the text read from the file is blank, the empty string
    included, [parse_resume] raises the error of the empty document,
    [ValueError("Could not extract text from file")], whatever the
    extractors are; no extractor has been entered and no record, whole
    or partial, is returned. *)
Theorem blank_text_raises_before_any_extractor :
  forall (self : methods) (file_path filename text : string)
         (log : list extractor),
    read_text extract_text_from_pdf extract_text_from_docx
              extract_text_from_txt file_path filename = inr text ->
    strip text = EmptyString ->
    parse_resume extract_text_from_pdf extract_text_from_docx
                 extract_text_from_txt self file_path filename log
    = (inl (ValueError "Could not extract text from file"), log).
Proof.
  intros self file_path filename text log Hread Hstrip.
  unfold parse_resume, t_bind, t_lift. rewrite Hread, Hstrip. reflexivity.
Qed.

(** ** C5 *)

(** C5, amended.  On a text that is not blank [parse_resume] catches
    nothing: the extractors are entered in the order contact, skills,
    experience, education, keywords; the first exception one of them
    raises leaves [parse_resume] as it is, the extractors after it are
    not entered and no record is returned; when none raises, all five
    have run and the record holds their results.  The extractors of the
    program itself raise on no text, so its parser returns a record. *)
Theorem extractor_exception_leaves_parse_resume :
  forall (self : methods) (file_path filename text : string)
         (log : list extractor),
    read_text extract_text_from_pdf extract_text_from_docx
              extract_text_from_txt file_path filename = inr text ->
    strip text <> EmptyString ->
    let run := parse_resume extract_text_from_pdf extract_text_from_docx
                 extract_text_from_txt in
    (forall err,
       call_contact_info self text = inl err ->
       run self file_path filename log = (inl err, log ++ [ContactInfo]))
    /\ (forall c err,
          call_contact_info self text = inr c ->
          call_skills self text = inl err ->
          run self file_path filename log
          = (inl err, log ++ [ContactInfo; Skills]))
    /\ (forall c s err,
          call_contact_info self text = inr c ->
          call_skills self text = inr s ->
          call_experience self text = inl err ->
          run self file_path filename log
          = (inl err, log ++ [ContactInfo; Skills; Experience]))
    /\ (forall c s x err,
          call_contact_info self text = inr c ->
          call_skills self text = inr s ->
          call_experience self text = inr x ->
          call_education self text = inl err ->
          run self file_path filename log
          = (inl err, log ++ [ContactInfo; Skills; Experience; Education]))
    /\ (forall c s x e err,
          call_contact_info self text = inr c ->
          call_skills self text = inr s ->
          call_experience self text = inr x ->
          call_education self text = inr e ->
          call_keywords self text = inl err ->
          run self file_path filename log = (inl err, log ++ all_extractors))
    /\ (forall c s x e k,
          call_contact_info self text = inr c ->
          call_skills self text = inr s ->
          call_experience self text = inr x ->
          call_education self text = inr e ->
          call_keywords self text = inr k ->
          run self file_path filename log
          = (inr {| p_contact_info := c;
                    p_skills := s;
                    p_experience := x;
                    p_education := e;
                    p_keywords := k;
                    p_raw_text := take 1000 text |},
             log ++ all_extractors))
    /\ exists r,
         run (parser list_of_set) file_path filename log
         = (inr r, log ++ all_extractors).
Proof.
  intros self file_path filename text log Hread Hstrip run.
  unfold run.
  repeat split.
  - intros err H1.
    rewrite (parse_resume_nonblank _ _ _ _ _ Hread Hstrip).
    unfold t_bind, call. rewrite H1. reflexivity.
  - intros c err H1 H2.
    rewrite (parse_resume_nonblank _ _ _ _ _ Hread Hstrip).
    unfold t_bind, call. rewrite H1, H2, <- !app_assoc. reflexivity.
  - intros c s err H1 H2 H3.
    rewrite (parse_resume_nonblank _ _ _ _ _ Hread Hstrip).
    unfold t_bind, call. rewrite H1, H2, H3, <- !app_assoc. reflexivity.
  - intros c s x err H1 H2 H3 H4.
    rewrite (parse_resume_nonblank _ _ _ _ _ Hread Hstrip).
    unfold t_bind, call. rewrite H1, H2, H3, H4, <- !app_assoc. reflexivity.
  - intros c s x e err H1 H2 H3 H4 H5.
    rewrite (parse_resume_nonblank _ _ _ _ _ Hread Hstrip).
    unfold t_bind, call.
    rewrite H1, H2, H3, H4, H5, <- !app_assoc. reflexivity.
  - intros c s x e k H1 H2 H3 H4 H5.
    rewrite (parse_resume_nonblank _ _ _ _ _ Hread Hstrip).
    unfold t_bind, call, t_ret.
    rewrite H1, H2, H3, H4, H5, <- !app_assoc. reflexivity.
  - destruct (parse_resume_parser file_path filename text log Hread Hstrip)
      as [c [_ Hparse]].
    eexists. exact Hparse.
Qed.

End Parsing.

Section ParsingSamples.
Import Py ResumeParser Samples.

Lemma nonblank_text_parses_within_caps_witness :
  read_text unsupported unsupported (reads work_history) "/tmp/cv.txt" "cv.txt"
  = inr work_history
  /\ strip work_history <> EmptyString
  /\ exists r,
       parse_resume unsupported unsupported (reads work_history)
                    (parser (nodup string_dec)) "/tmp/cv.txt" "cv.txt" []
       = (inr r, all_extractors)
       /\ (List.length (p_experience r) <= 5)%nat
       /\ (List.length (p_education r) <= 3)%nat
       /\ (List.length (p_keywords r) <= 20)%nat.
Proof.
  assert (H1 : read_text unsupported unsupported (reads work_history)
                 "/tmp/cv.txt" "cv.txt" = inr work_history)
    by (vm_compute; reflexivity).
  assert (H2 : strip work_history <> EmptyString)
    by (vm_compute; discriminate).
  split; [exact H1|]. split; [exact H2|].
  exact (nonblank_text_parses_within_caps (nodup string_dec)
           unsupported unsupported (reads work_history)
           "/tmp/cv.txt" "cv.txt" work_history H1 H2).
Defined.

Lemma blank_text_raises_before_any_extractor_witness :
  read_text unsupported unsupported (reads EmptyString) "/tmp/cv.txt" "cv.txt"
  = inr EmptyString
  /\ strip EmptyString = EmptyString
  /\ parse_resume unsupported unsupported (reads EmptyString)
                  (parser (nodup string_dec)) "/tmp/cv.txt" "cv.txt" []
     = (inl (ValueError "Could not extract text from file"), []).
Proof.
  assert (H1 : read_text unsupported unsupported (reads EmptyString)
                 "/tmp/cv.txt" "cv.txt" = inr EmptyString)
    by (vm_compute; reflexivity).
  assert (H2 : strip EmptyString = EmptyString) by reflexivity.
  split; [exact H1|]. split; [exact H2|].
  exact (blank_text_raises_before_any_extractor
           unsupported unsupported (reads EmptyString)
           (parser (nodup string_dec)) "/tmp/cv.txt" "cv.txt" EmptyString []
           H1 H2).
Defined.

(** C5, as the claim states it, fails: when the skill extractor raises
    on a text that is not blank, [parse_resume] ends with that exception;
    the skill result is not replaced by an empty one, no record is
    returned, and the experience, education and keyword extractors are
    never entered. *)
Lemma raising_extractor_aborts_parse_resume :
  strip work_history <> EmptyString
  /\ parse_resume unsupported unsupported (reads work_history)
                  failing_skills "/tmp/cv.txt" "cv.txt" []
     = (inl (Exception "skills"), [ContactInfo; Skills]).
Proof.
  split; [vm_compute; discriminate|vm_compute; reflexivity].
Qed.

Lemma extractor_exception_leaves_parse_resume_witness :
  read_text unsupported unsupported (reads work_history) "/tmp/cv.txt" "cv.txt"
  = inr work_history
  /\ strip work_history <> EmptyString
  /\ (forall c err,
        call_contact_info failing_skills work_history = inr c ->
        call_skills failing_skills work_history = inl err ->
        parse_resume unsupported unsupported (reads work_history)
                     failing_skills "/tmp/cv.txt" "cv.txt" []
        = (inl err, [ContactInfo; Skills])).
Proof.
  assert (H1 : read_text unsupported unsupported (reads work_history)
                 "/tmp/cv.txt" "cv.txt" = inr work_history)
    by (vm_compute; reflexivity).
  assert (H2 : strip work_history <> EmptyString)
    by (vm_compute; discriminate).
  split; [exact H1|]. split; [exact H2|].
  exact (proj1 (proj2 (extractor_exception_leaves_parse_resume
           (nodup string_dec) unsupported unsupported (reads work_history)
           failing_skills "/tmp/cv.txt" "cv.txt" work_history [] H1 H2))).
Defined.

End ParsingSamples.

(* ================================================================== *)
(** * More on the recommender *)
(* ================================================================== *)

Section SearchUrls.
Import Py JobFieldRecommender.






End SearchUrls.

Section Bonus.
Import Py JobFieldRecommender Counts.
Local Open Scope py_scope.
Local Open Scope Z_scope.

Lemma Forall2_In_r {A B} (P : A -> B -> Prop) l l' y :
  Forall2 P l l' -> In y l' -> exists x, In x l /\ P x y.
Proof.
  induction 1 as [|x0 y0 l l' H0 _ IH]; intros Hin; [contradiction|].
  destruct Hin as [<-|Hin].
  - exists x0. split; [left; reflexivity|exact H0].
  - destruct (IH Hin) as [x [Hx HP]]. exists x. split; [right|]; assumption.
Qed.

Lemma Forall2_In_l {A B} (P : A -> B -> Prop) l l' x :
  Forall2 P l l' -> In x l -> exists y, In y l' /\ P x y.
Proof.
  induction 1 as [|x0 y0 l l' H0 _ IH]; intros Hin; [contradiction|].
  destruct Hin as [<-|Hin].
  - exists y0. split; [left; reflexivity|exact H0].
  - destruct (IH Hin) as [y [Hy HP]]. exists y. split; [right|]; assumption.
Qed.

(** The entry of one field, from its score. *)
Lemma field_match_entry user_skills user_keywords experience_text item :
  exists s,
    calculate_match_score user_skills user_keywords (snd item) = inr s
    /\ 0 <= s <= 100
    /\ field_match user_skills user_keywords experience_text item
       = inr {| field := fst item;
                match_percentage :=
                  if (truthy experience_text
                      && contains (lower (fst item))
                                  (lower experience_text))%bool
                  then Z.min (s + 10) 100 else s;
                job_search_url := get_job_search_url (fst item) |}.
Proof.
  destruct (calculate_match_score_defined user_skills user_keywords (snd item))
    as [s [Hs Hrange]].
  exists s. split; [exact Hs|]. split; [exact Hrange|].
  destruct item as [field_name field_data]. cbn [fst snd] in *.
  unfold field_match. rewrite Hs. cbn [bind ret].
  destruct (truthy experience_text); cbn [andb]; [|reflexivity].
  destruct (contains _ _); reflexivity.
Qed.

Lemma collect_matches_entries user_skills user_keywords experience_text :
  exists unsorted,
    collect_matches user_skills user_keywords experience_text = inr unsorted
    /\ Forall2 (fun item r =>
                  field_match user_skills user_keywords experience_text item
                  = inr r)
               job_fields unsorted.
Proof.
  unfold collect_matches. apply for_each_ok.
  apply Forall_forall. intros item _.
  destruct (field_match_entry user_skills user_keywords experience_text item)
    as [s [_ [_ H]]].
  eexists. split; [exact H|exact H].
Qed.

(** Every entry of the list returned is the entry of a field of the
    taxonomy. *)
Lemma recommendations_entries user_skills user_keywords experience_text :
  exists ranked,
    get_job_recommendations user_skills user_keywords experience_text
    = inr ranked
    /\ (forall r, In r ranked ->
          exists item,
            In item job_fields
            /\ field_match user_skills user_keywords experience_text item
               = inr r)
    /\ (forall item, In item job_fields ->
          exists r,
            In r ranked
            /\ field_match user_skills user_keywords experience_text item
               = inr r).
Proof.
  destruct (collect_matches_entries user_skills user_keywords experience_text)
    as [unsorted [Hc HF]].
  unfold get_job_recommendations. rewrite Hc. cbn [bind ret].
  eexists. split; [reflexivity|]. split.
  - intros r Hr.
    apply (Permutation_in r
             (Permutation_sym (sort_desc_perm match_percentage unsorted)))
      in Hr.
    exact (Forall2_In_r _ _ _ _ HF Hr).
  - intros item Hitem.
    destruct (Forall2_In_l _ _ _ _ HF Hitem) as [r [Hr H]].
    exists r. split; [|exact H].
    exact (Permutation_in r (sort_desc_perm match_percentage unsorted) Hr).
Qed.

(** X2.  The experience bonus.  Take the list returned with an
    experience text and the list returned without one.  Each entry of
    the first has its field in the second; its score is the score
    without the text when the text does not hold the field name, letter
    case apart, and that score plus 10, at most 100, when it does: the
    bonus never lowers a score and adds at most 10. *)
Theorem experience_bonus_adds_at_most_10 :
  forall (user_skills : list string) (user_keywords : list keyword)
         (experience_text : string),
  exists ranked plain,
    get_job_recommendations user_skills user_keywords experience_text
    = inr ranked
    /\ get_job_recommendations user_skills user_keywords "" = inr plain
    /\ Forall (fun r =>
                 exists r0,
                   In r0 plain /\ field r0 = field r
                   /\ match_percentage r
                      = (if contains (lower (field r)) (lower experience_text)
                         then Z.min (match_percentage r0 + 10) 100
                         else match_percentage r0)
                   /\ match_percentage r0 <= match_percentage r
                      <= match_percentage r0 + 10)
              ranked.
Proof.
  intros user_skills user_keywords experience_text.
  destruct (recommendations_entries user_skills user_keywords experience_text)
    as [ranked [Hr [Hall _]]].
  destruct (recommendations_entries user_skills user_keywords "")
    as [plain [Hp [_ Hex]]].
  exists ranked, plain. split; [exact Hr|]. split; [exact Hp|].
  apply Forall_forall. intros r Hin.
  destruct (Hall r Hin) as [item [Hitem Hm]].
  destruct (Hex item Hitem) as [r0 [Hin0 Hm0]].
  destruct (field_match_entry user_skills user_keywords experience_text item)
    as [s [Hs [Hrange He]]].
  destruct (field_match_entry user_skills user_keywords "" item)
    as [s0 [Hs0 [_ He0]]].
  rewrite Hs in Hs0. injection Hs0 as <-.
  rewrite He in Hm. injection Hm as <-.
  rewrite He0 in Hm0. injection Hm0 as <-.
  exists {| field := fst item; match_percentage := s;
            job_search_url := get_job_search_url (fst item) |}.
  cbn [truthy andb field match_percentage].
  split; [exact Hin0|]. split; [reflexivity|].
  assert (Hname : fst item <> EmptyString).
  { intros Heq.
    assert (Hn : forallb (fun it => truthy (fst it)) job_fields = true)
      by (vm_compute; reflexivity).
    rewrite forallb_forall in Hn. specialize (Hn item Hitem).
    rewrite Heq in Hn. discriminate. }
  destruct experience_text as [|c text].
  - cbn [truthy andb lower map_str].
    destruct (fst item) as [|c0 name0]; [congruence|].
    cbn. split; [reflexivity|lia].
  - cbn [truthy andb].
    destruct (contains _ _); split; try reflexivity; lia.
Qed.

End Bonus.

Section ScoreInputs.
Import Py JobFieldRecommender Counts.
Local Open Scope py_scope.
Local Open Scope Z_scope.

Lemma mem_ext x l1 l2 :
  (forall y, In y l1 <-> In y l2) -> mem x l1 = mem x l2.
Proof.
  intros H. destruct (mem x l2) eqn:H2.
  - apply mem_In, H, mem_In, H2.
  - destruct (mem x l1) eqn:H1; [|reflexivity].
    apply mem_In, H, mem_In in H1. congruence.
Qed.

Lemma hits_same_members user1 user2 items :
  (forall y, In y user1 <-> In y user2) ->
  hits user1 items = hits user2 items.
Proof.
  intros H. unfold hits. f_equal. apply filter_ext.
  intros item. apply mem_ext, H.
Qed.

Lemma for_each_ext {A B} (f g : A -> result B) l :
  (forall x, f x = g x) -> for_each f l = for_each g l.
Proof.
  intros H. induction l as [|x l IH]; cbn [for_each]; [reflexivity|].
  rewrite H, IH. reflexivity.
Qed.

(** X3.  The score only reads which lowercased skills and which
    lowercased keyword words the candidate has: two candidates whose
    skills are the same up to order, repetition and letter case, and
    whose keyword words are the same in that sense, whatever the counts
    of the keywords, get the same score for every field definition and
    the same list of recommendations. *)
Theorem score_ignores_order_case_and_counts :
  forall (skills1 skills2 : list string) (keywords1 keywords2 : list keyword)
         (experience_text : string),
    (forall x, In x (map lower skills1) <-> In x (map lower skills2)) ->
    (forall x, In x (map (fun k => lower (word k)) keywords1)
               <-> In x (map (fun k => lower (word k)) keywords2)) ->
    (forall fd, calculate_match_score skills1 keywords1 fd
                = calculate_match_score skills2 keywords2 fd)
    /\ get_job_recommendations skills1 keywords1 experience_text
       = get_job_recommendations skills2 keywords2 experience_text.
Proof.
  intros skills1 skills2 keywords1 keywords2 experience_text Hs Hk.
  assert (Hscore : forall fd, calculate_match_score skills1 keywords1 fd
                              = calculate_match_score skills2 keywords2 fd).
  { intros fd. rewrite !calculate_match_score_counts.
    rewrite (hits_same_members _ _ _ Hs), (hits_same_members _ _ _ Hk).
    reflexivity. }
  split; [exact Hscore|].
  unfold get_job_recommendations, collect_matches.
  rewrite (for_each_ext
             (field_match skills1 keywords1 experience_text)
             (field_match skills2 keywords2 experience_text)).
  - reflexivity.
  - intros [field_name field_data]. unfold field_match.
    rewrite Hscore. reflexivity.
Qed.

End ScoreInputs.

Section NoMatch.
Import Py JobFieldRecommender Counts Scenario.
Local Open Scope py_scope.
Local Open Scope Z_scope.

Lemma hits_none user items :
  (forall item, In item items -> ~ In item user) -> hits user items = 0%nat.
Proof.
  intros H. unfold hits.
  induction items as [|item items IH]; [reflexivity|].
  cbn [filter]. destruct (mem item user) eqn:Hm.
  - apply mem_In in Hm. exfalso. apply (H item); [left; reflexivity|exact Hm].
  - apply IH. intros x Hx. apply H. right. exact Hx.
Qed.

(** A loop without a match leaves the score as it is. *)
Lemma half_no_hit P n score max_score :
  0 < P <= 64 ->
  exists max_score',
    half P n 0 (score, max_score) = inr (score, max_score').
Proof.
  intros HP. unfold half. destruct n as [|n].
  - exists max_score. reflexivity.
  - destruct (int_truediv_repr P (S n) HP ltac:(lia)) as (x & X & -> & _).
    cbn [bind ret add_times fst snd]. eexists. reflexivity.
Qed.

Lemma finish_zero_score max_score :
  finish (Float.zero, max_score) = inr 0.
Proof. destruct max_score as [[]|[]| |[] m e]; reflexivity. Qed.

Lemma score_of_counts_no_hit n m : score_of_counts n m 0 0 = inr 0.
Proof.
  unfold score_of_counts.
  destruct (half_no_hit 60 n Float.zero Float.zero ltac:(lia)) as [mx ->].
  cbn [bind].
  destruct (half_no_hit 40 m Float.zero mx ltac:(lia)) as [mx' ->].
  cbn [bind]. apply finish_zero_score.
Qed.

Lemma calculate_match_score_unmatched user_skills user_keywords fd :
  (forall s, In s (skills fd) -> ~ In (lower s) (map lower user_skills)) ->
  (forall k, In k (keywords fd) ->
             ~ In (lower k) (map (fun u => lower (word u)) user_keywords)) ->
  calculate_match_score user_skills user_keywords fd = inr 0.
Proof.
  intros Hs Hk.
  rewrite calculate_match_score_counts.
  rewrite !hits_none.
  - apply score_of_counts_no_hit.
  - intros item Hitem. apply in_map_iff in Hitem.
    destruct Hitem as [k [<- Hk']]. apply Hk, Hk'.
  - intros item Hitem. apply in_map_iff in Hitem.
    destruct Hitem as [s [<- Hs']]. apply Hs, Hs'.
Qed.

(** X4.  For every field definition, whatever the lengths of its lists:
    when no skill of the field is among the candidate's skills and no
    keyword of the field among the candidate's keyword words, letter
    case apart, the score is 0. *)
Theorem no_match_scores_0 :
  forall (user_skills : list string) (user_keywords : list keyword)
         (fd : job_field),
    (forall s, In s (skills fd) -> ~ In (lower s) (map lower user_skills)) ->
    (forall k, In k (keywords fd) ->
               ~ In (lower k) (map (fun u => lower (word u)) user_keywords)) ->
    calculate_match_score user_skills user_keywords fd = inr 0.
Proof.
  intros user_skills user_keywords fd.
  apply calculate_match_score_unmatched.
Qed.

Lemma no_match_scores_0_witness :
  (forall s, In s (skills software_engineer) ->
             ~ In (lower s) (map lower ["Excel"; "Tableau"]))
  /\ (forall k, In k (keywords software_engineer) ->
                ~ In (lower k)
                     (map (fun u => lower (word u))
                          [{| word := "Reporting"; count := 2 |}]))
  /\ calculate_match_score ["Excel"; "Tableau"]
       [{| word := "Reporting"; count := 2 |}] software_engineer = inr 0.
Proof.
  assert (H1 : forall s, In s (skills software_engineer) ->
                         ~ In (lower s) (map lower ["Excel"; "Tableau"])).
  { intros s Hin Hmem. apply mem_In in Hmem.
    assert (Hall : forallb (fun s => negb (mem (lower s)
                                             (map lower ["Excel"; "Tableau"])))
                           (skills software_engineer) = true)
      by (vm_compute; reflexivity).
    rewrite forallb_forall in Hall. specialize (Hall s Hin).
    rewrite Hmem in Hall. discriminate. }
  assert (H2 : forall k, In k (keywords software_engineer) ->
                 ~ In (lower k)
                      (map (fun u => lower (word u))
                           [{| word := "Reporting"; count := 2 |}])).
  { intros k Hin Hmem. apply mem_In in Hmem.
    assert (Hall : forallb
                     (fun k => negb (mem (lower k)
                                (map (fun u => lower (word u))
                                     [{| word := "Reporting"; count := 2 |}])))
                     (keywords software_engineer) = true)
      by (vm_compute; reflexivity).
    rewrite forallb_forall in Hall. specialize (Hall k Hin).
    rewrite Hmem in Hall. discriminate. }
  split; [exact H1|]. split; [exact H2|].
  exact (no_match_scores_0 ["Excel"; "Tableau"]
           [{| word := "Reporting"; count := 2 |}] software_engineer H1 H2).
Defined.

Lemma sort_desc_constant {A} (key : A -> Z) (v : Z) (l : list A) :
  Forall (fun x => key x = v) l -> sort_desc key l = l.
Proof.
  induction 1 as [|x l Hx Hl IH]; cbn [sort_desc]; [reflexivity|].
  rewrite IH. destruct Hl as [|y l Hy Hl]; cbn [insert_desc]; [reflexivity|].
  rewrite Hx, Hy, Z.ltb_irrefl. reflexivity.
Qed.

Lemma for_each_map {A B} (f : A -> result B) (g : A -> B) l :
  (forall x, In x l -> f x = inr (g x)) -> for_each f l = inr (map g l).
Proof.
  induction l as [|x l IH]; intros H; cbn [for_each map]; [reflexivity|].
  rewrite (H x (or_introl eq_refl)), IH.
  - reflexivity.
  - intros y Hy. apply H. right. exact Hy.
Qed.

(** X6.  A candidate without any skill or keyword of any field of the
    taxonomy, and whose experience text names no field, gets the ten
    fields back in the order of the taxonomy, each with the score 0 and
    its search URLs; so does the empty candidate. *)
Theorem unmatched_candidate_gets_taxonomy_order :
  forall (user_skills : list string) (user_keywords : list keyword)
         (experience_text : string),
    (forall item, In item job_fields ->
       (forall s, In s (skills (snd item)) ->
                  ~ In (lower s) (map lower user_skills))
       /\ (forall k, In k (keywords (snd item)) ->
                     ~ In (lower k)
                          (map (fun u => lower (word u)) user_keywords))
       /\ contains (lower (fst item)) (lower experience_text) = false) ->
    get_job_recommendations user_skills user_keywords experience_text
    = inr (map (fun item =>
                  {| field := fst item;
                     match_percentage := 0;
                     job_search_url := get_job_search_url (fst item) |})
               job_fields).
Proof.
  intros user_skills user_keywords experience_text H.
  unfold get_job_recommendations, collect_matches.
  rewrite (for_each_map _
             (fun item =>
                {| field := fst item;
                   match_percentage := 0;
                   job_search_url := get_job_search_url (fst item) |})).
  - cbn [bind]. unfold ret. apply f_equal. apply (sort_desc_constant _ 0).
    apply Forall_forall. intros r Hr. apply in_map_iff in Hr.
    destruct Hr as [item [<- _]]. reflexivity.
  - intros [field_name field_data] Hin.
    destruct (H _ Hin) as [Hs [Hk Hc]]. cbn [fst snd] in *.
    unfold field_match.
    rewrite (calculate_match_score_unmatched user_skills user_keywords
               field_data Hs Hk).
    cbn [bind ret]. rewrite Hc.
    destruct (truthy experience_text); reflexivity.
Qed.

End NoMatch.

Section RecommenderSamples.
Import Py JobFieldRecommender Counts Scenario.
Local Open Scope Z_scope.

Lemma score_ignores_order_case_and_counts_witness :
  (forall x, In x (map lower ["Python"; "DOCKER"; "python"])
             <-> In x (map lower ["docker"; "PYTHON"]))
  /\ (forall x, In x (map (fun k => lower (word k))
                          [{| word := "Developer"; count := 3 |}])
                <-> In x (map (fun k => lower (word k))
                              [{| word := "developer"; count := 1 |};
                               {| word := "DEVELOPER"; count := 7 |}]))
  /\ (forall fd,
        calculate_match_score ["Python"; "DOCKER"; "python"]
          [{| word := "Developer"; count := 3 |}] fd
        = calculate_match_score ["docker"; "PYTHON"]
            [{| word := "developer"; count := 1 |};
             {| word := "DEVELOPER"; count := 7 |}] fd)
  /\ get_job_recommendations ["Python"; "DOCKER"; "python"]
       [{| word := "Developer"; count := 3 |}] "Software Engineer at Acme"
     = get_job_recommendations ["docker"; "PYTHON"]
         [{| word := "developer"; count := 1 |};
          {| word := "DEVELOPER"; count := 7 |}] "Software Engineer at Acme".
Proof.
  assert (H1 : forall x, In x (map lower ["Python"; "DOCKER"; "python"])
                         <-> In x (map lower ["docker"; "PYTHON"])).
  { intros x.
    replace (map lower ["Python"; "DOCKER"; "python"])
      with ["python"; "docker"; "python"] by (vm_compute; reflexivity).
    replace (map lower ["docker"; "PYTHON"])
      with ["docker"; "python"] by (vm_compute; reflexivity).
    cbn [In]. tauto. }
  assert (H2 : forall x,
             In x (map (fun k => lower (word k))
                       [{| word := "Developer"; count := 3 |}])
             <-> In x (map (fun k => lower (word k))
                           [{| word := "developer"; count := 1 |};
                            {| word := "DEVELOPER"; count := 7 |}])).
  { intros x.
    replace (map (fun k => lower (word k))
                 [{| word := "Developer"; count := 3 |}])
      with ["developer"] by (vm_compute; reflexivity).
    replace (map (fun k => lower (word k))
                 [{| word := "developer"; count := 1 |};
                  {| word := "DEVELOPER"; count := 7 |}])
      with ["developer"; "developer"] by (vm_compute; reflexivity).
    cbn [In]. tauto. }
  split; [exact H1|]. split; [exact H2|].
  exact (score_ignores_order_case_and_counts _ _ _ _
           "Software Engineer at Acme" H1 H2).
Defined.

Lemma unmatched_candidate_gets_taxonomy_order_witness :
  (forall item, In item job_fields ->
     (forall s, In s (skills (snd item)) -> ~ In (lower s) (map lower []))
     /\ (forall k, In k (keywords (snd item)) ->
                   ~ In (lower k) (map (fun u => lower (word u)) []))
     /\ contains (lower (fst item)) (lower "") = false)
  /\ get_job_recommendations [] [] ""
     = inr (map (fun item =>
                   {| field := fst item;
                      match_percentage := 0;
                      job_search_url := get_job_search_url (fst item) |})
                job_fields).
Proof.
  assert (H : forall item, In item job_fields ->
     (forall s, In s (skills (snd item)) -> ~ In (lower s) (map lower []))
     /\ (forall k, In k (keywords (snd item)) ->
                   ~ In (lower k) (map (fun u => lower (word u)) []))
     /\ contains (lower (fst item)) (lower "") = false).
  { intros item Hin.
    split; [intros s _ []|]. split; [intros k _ []|].
    assert (Hall : forallb (fun item =>
                              negb (contains (lower (fst item)) (lower "")))
                           job_fields = true) by (vm_compute; reflexivity).
    rewrite forallb_forall in Hall. specialize (Hall item Hin).
    apply negb_true_iff in Hall. exact Hall. }
  split; [exact H|].
  exact (unmatched_candidate_gets_taxonomy_order [] [] "" H).
Defined.

End RecommenderSamples.

(* ================================================================== *)
(** * More matches never lower the score of a taxonomy field *)
(* ================================================================== *)

Section MoreMatches.
Import Py JobFieldRecommender Counts Grid.
Local Open Scope py_scope.
Local Open Scope Z_scope.

Lemma not_above_spec a b :
  not_above a b = true ->
  exists x y, a = inr x /\ b = inr y /\ x <= y.
Proof.
  destruct a as [e|x]; [discriminate|].
  destruct b as [e|y]; [discriminate|].
  cbn [not_above]. intros H. apply Z.leb_le in H.
  exists x, y. repeat split. exact H.
Qed.

Lemma chain_map_seq {A} (R : A -> A -> bool) (f : nat -> A) len : forall a i,
  chain R (map f (seq a len)) = true ->
  (a <= i)%nat -> (S i < a + len)%nat ->
  R (f i) (f (S i)) = true.
Proof.
  induction len as [|len IH]; intros a i H Ha Hi; [lia|].
  destruct len as [|len]; [lia|].
  cbn [seq map chain] in H. apply andb_true_iff in H. destruct H as [H1 H2].
  destruct (Nat.eq_dec a i) as [->|Hne]; [exact H1|].
  apply (IH (S a) i); [exact H2 | lia | lia].
Qed.

Lemma all2_map {A B} (R : A -> A -> bool) (f g : B -> A) l :
  all2 R (map f l) (map g l) = true ->
  forall x, In x l -> R (f x) (g x) = true.
Proof.
  induction l as [|y l IH]; intros H x Hx; [destruct Hx|].
  cbn [map all2] in H. apply andb_true_iff in H. destruct H as [H1 H2].
  destruct Hx as [->|Hx]; [exact H1 | exact (IH H2 x Hx)].
Qed.

Lemma steps_up_cell n m k j :
  steps_up n m = true -> (k <= n)%nat -> (j <= m)%nat ->
  ((k < n)%nat ->
   not_above (score_of_counts n m k j) (score_of_counts n m (S k) j) = true)
  /\ ((j < m)%nat ->
      not_above (score_of_counts n m k j) (score_of_counts n m k (S j)) = true).
Proof.
  unfold steps_up, scores. cbv zeta. intros H Hk Hj.
  apply andb_true_iff in H. destruct H as [Hrows Hcols].
  split; intros Hlt.
  - assert (Hpair := chain_map_seq _ _ (S n) 0%nat k Hcols).
    specialize (Hpair ltac:(lia) ltac:(lia)).
    apply (all2_map _ _ _ _ Hpair j). apply in_seq. lia.
  - rewrite forallb_forall in Hrows.
    assert (Hin : In k (seq 0 (S n))) by (apply in_seq; lia).
    specialize (Hrows _ (in_map _ _ k Hin)). cbv beta in Hrows.
    assert (Hpair := chain_map_seq _ _ (S m) 0%nat j Hrows).
    exact (Hpair ltac:(lia) ltac:(lia)).
Qed.

(** More matched skills, the matched keywords being the same. *)
Lemma steps_up_skills n m j d : forall k,
  steps_up n m = true -> (k + d <= n)%nat -> (j <= m)%nat ->
  exists s s',
    score_of_counts n m k j = inr s
    /\ score_of_counts n m (k + d) j = inr s' /\ s <= s'.
Proof.
  induction d as [|d IH]; intros k H Hk Hj.
  - rewrite Nat.add_0_r.
    destruct (score_of_counts_defined n m k j ltac:(lia) Hj) as (s & Hs & _).
    exists s, s. repeat split; [exact Hs | exact Hs | lia].
  - destruct (steps_up_cell n m k j H ltac:(lia) Hj) as [Hstep _].
    destruct (not_above_spec _ _ (Hstep ltac:(lia))) as (s & t & Hs & Ht & Hst).
    destruct (IH (S k) H ltac:(lia) Hj) as (t' & s' & Ht' & Hs' & Hts).
    rewrite Ht in Ht'. injection Ht' as <-.
    exists s, s'. replace (k + S d)%nat with (S k + d)%nat by lia.
    repeat split; [exact Hs | exact Hs' | lia].
Qed.

(** More matched keywords, the matched skills being the same. *)
Lemma steps_up_keywords n m k d : forall j,
  steps_up n m = true -> (k <= n)%nat -> (j + d <= m)%nat ->
  exists s s',
    score_of_counts n m k j = inr s
    /\ score_of_counts n m k (j + d) = inr s' /\ s <= s'.
Proof.
  induction d as [|d IH]; intros j H Hk Hj.
  - rewrite Nat.add_0_r.
    destruct (score_of_counts_defined n m k j Hk ltac:(lia)) as (s & Hs & _).
    exists s, s. repeat split; [exact Hs | exact Hs | lia].
  - destruct (steps_up_cell n m k j H Hk ltac:(lia)) as [_ Hstep].
    destruct (not_above_spec _ _ (Hstep ltac:(lia))) as (s & t & Hs & Ht & Hst).
    destruct (IH (S j) H Hk ltac:(lia)) as (t' & s' & Ht' & Hs' & Hts).
    rewrite Ht in Ht'. injection Ht' as <-.
    exists s, s'. replace (j + S d)%nat with (S j + d)%nat by lia.
    repeat split; [exact Hs | exact Hs' | lia].
Qed.

Lemma steps_up_counts n m k k' j j' :
  steps_up n m = true ->
  (k <= k')%nat -> (k' <= n)%nat -> (j <= j')%nat -> (j' <= m)%nat ->
  exists s s',
    score_of_counts n m k j = inr s
    /\ score_of_counts n m k' j' = inr s' /\ s <= s'.
Proof.
  intros H Hk Hk' Hj Hj'.
  destruct (steps_up_skills n m j (k' - k) k H ltac:(lia) ltac:(lia))
    as (s & t & Hs & Ht & Hst).
  replace (k + (k' - k))%nat with k' in Ht by lia.
  destruct (steps_up_keywords n m k' (j' - j) j H Hk' ltac:(lia))
    as (t' & s' & Ht' & Hs' & Hts).
  replace (j + (j' - j))%nat with j' in Hs' by lia.
  rewrite Ht in Ht'. injection Ht' as <-.
  exists s, s'. repeat split; [exact Hs | exact Hs' | lia].
Qed.

(** The ten fields of the taxonomy, each with all its numbers of
    matches. *)
Lemma taxonomy_steps_up :
  forallb
    (fun item =>
       steps_up (List.length (skills (snd item)))
                (List.length (keywords (snd item))))
    job_fields = true.
Proof. vm_compute. reflexivity. Qed.

Lemma hits_incl user user' items :
  incl user user' -> (hits user items <= hits user' items)%nat.
Proof.
  intros Hincl. unfold hits.
  induction items as [|item items IH]; [apply Nat.le_refl|].
  cbn [filter]. destruct (mem item user) eqn:Hm.
  - apply mem_In in Hm. apply Hincl in Hm. apply mem_In in Hm.
    rewrite Hm. cbn [List.length]. lia.
  - destruct (mem item user'); cbn [List.length]; lia.
Qed.

Lemma calculate_match_score_incl name fd
    user_skills user_keywords user_skills' user_keywords' :
  In (name, fd) job_fields ->
  incl (map lower user_skills) (map lower user_skills') ->
  incl (map (fun u => lower (word u)) user_keywords)
       (map (fun u => lower (word u)) user_keywords') ->
  exists s s',
    calculate_match_score user_skills user_keywords fd = inr s
    /\ calculate_match_score user_skills' user_keywords' fd = inr s'
    /\ s <= s'.
Proof.
  intros Hin Hs Hk.
  pose proof taxonomy_steps_up as Hup.
  rewrite forallb_forall in Hup. specialize (Hup _ Hin). cbn [snd] in Hup.
  rewrite !calculate_match_score_counts.
  apply steps_up_counts.
  - exact Hup.
  - apply hits_incl, Hs.
  - rewrite <- (length_map lower (skills fd)). apply hits_le.
  - apply hits_incl, Hk.
  - rewrite <- (length_map lower (keywords fd)). apply hits_le.
Qed.

(** X5.  For each of the ten fields of the taxonomy: a candidate whose
    skills and keyword words include, letter case apart, those of
    another candidate gets a score that is not below the other's; both
    scores are computed. *)
Theorem more_matches_never_lower_the_score :
  forall (name : string) (fd : job_field)
         (user_skills user_skills' : list string)
         (user_keywords user_keywords' : list keyword),
    In (name, fd) job_fields ->
    incl (map lower user_skills) (map lower user_skills') ->
    incl (map (fun u => lower (word u)) user_keywords)
         (map (fun u => lower (word u)) user_keywords') ->
    exists s s',
      calculate_match_score user_skills user_keywords fd = inr s
      /\ calculate_match_score user_skills' user_keywords' fd = inr s'
      /\ s <= s'.
Proof.
  intros name fd user_skills user_skills' user_keywords user_keywords'.
  apply calculate_match_score_incl.
Qed.

End MoreMatches.

Section MoreMatchesSamples.
Import Py JobFieldRecommender Counts Scenario.
Local Open Scope Z_scope.

Lemma more_matches_never_lower_the_score_witness :
  In ("Software Engineer", software_engineer) job_fields
  /\ incl (map lower ["python"]) (map lower ["Docker"; "Python"])
  /\ incl (map (fun u => lower (word u)) [{| word := "agile"; count := 1 |}])
          (map (fun u => lower (word u))
               [{| word := "Agile"; count := 3 |};
                {| word := "backend"; count := 2 |}])
  /\ exists s s',
       calculate_match_score ["python"] [{| word := "agile"; count := 1 |}]
         software_engineer = inr s
       /\ calculate_match_score ["Docker"; "Python"]
            [{| word := "Agile"; count := 3 |};
             {| word := "backend"; count := 2 |}]
            software_engineer = inr s'
       /\ s <= s'.
Proof.
  assert (H1 : In ("Software Engineer", software_engineer) job_fields)
    by (left; reflexivity).
  assert (H2 : incl (map lower ["python"]) (map lower ["Docker"; "Python"])).
  { intros x [<-|[]]. right. left. reflexivity. }
  assert (H3 : incl (map (fun u => lower (word u))
                         [{| word := "agile"; count := 1 |}])
                    (map (fun u => lower (word u))
                         [{| word := "Agile"; count := 3 |};
                          {| word := "backend"; count := 2 |}])).
  { intros x [<-|[]]. left. reflexivity. }
  split; [exact H1|]. split; [exact H2|]. split; [exact H3|].
  exact (more_matches_never_lower_the_score
           "Software Engineer" software_engineer
           ["python"] ["Docker"; "Python"]
           [{| word := "agile"; count := 1 |}]
           [{| word := "Agile"; count := 3 |};
            {| word := "backend"; count := 2 |}]
           H1 H2 H3).
Defined.

End MoreMatchesSamples.

(* ================================================================== *)
(** * What a match holds *)
(* ================================================================== *)

Section CountBounds.
Import Py Re Lang Bounds.

Lemma all_ascii_complete c : In c all_ascii.
Proof.
  unfold all_ascii. rewrite <- (ascii_nat_embedding c).
  apply in_map, in_seq. pose proof (nat_ascii_bounded c). lia.
Qed.

Lemma all_in_spec test q x :
  all_in test q = true -> test x = true -> q x = true.
Proof.
  unfold all_in. rewrite forallb_forall. intros H Ht.
  specialize (H x (all_ascii_complete x)). rewrite Ht in H. exact H.
Qed.

Lemma none_in_spec test q x :
  none_in test q = true -> test x = true -> q x = false.
Proof.
  unfold none_in. rewrite forallb_forall. intros H Ht.
  specialize (H x (all_ascii_complete x)). rewrite Ht in H.
  destruct (q x); [discriminate|reflexivity].
Qed.

Lemma count_append q s1 s2 :
  count q (s1 ++ s2)%string = (count q s1 + count q s2)%nat.
Proof.
  induction s1 as [|c s1 IH]; cbn [append count]; [reflexivity|].
  rewrite IH. lia.
Qed.

Lemma count_le_length q s : (count q s <= String.length s)%nat.
Proof.
  induction s as [|c s IH]; cbn [count String.length]; [lia|].
  destruct (q c); lia.
Qed.

Lemma count_all s : count (fun _ => true) s = String.length s.
Proof. induction s as [|c s IH]; cbn; congruence. Qed.

Lemma at_least_sound ignorecase q r g :
  matches ignorecase r g -> (at_least ignorecase q r <= count q g)%nat.
Proof.
  induction 1 as [|c x Hc|p x Hc|r1 r2 s1 s2 _ IH1 _ IH2|r1 r2 s1 _ IH
                  |r1 r2 s2 _ IH| |r s1 s2 _ _ _ _|]; cbn [at_least count].
  - lia.
  - destruct (all_in _ _) eqn:Ha; [|lia].
    rewrite (all_in_spec _ _ _ Ha Hc). lia.
  - destruct (all_in _ _) eqn:Ha; [|lia].
    rewrite (all_in_spec _ _ _ Ha Hc). lia.
  - rewrite count_append. lia.
  - lia.
  - lia.
  - lia.
  - lia.
  - lia.
Qed.

Lemma at_most_sound ignorecase q r g :
  matches ignorecase r g ->
  forall n, at_most ignorecase q r = Some n -> (count q g <= n)%nat.
Proof.
  induction 1 as [|c x Hc|p x Hc|r1 r2 s1 s2 _ IH1 _ IH2|r1 r2 s1 _ IH
                  |r1 r2 s2 _ IH|r|r s1 s2 _ IH1 _ IH2|];
    cbn [at_most count]; intros n Hn.
  - injection Hn as <-. lia.
  - injection Hn as <-. destruct (none_in _ _) eqn:Ha.
    + rewrite (none_in_spec _ _ _ Ha Hc). lia.
    + destruct (q x); lia.
  - injection Hn as <-. destruct (none_in _ _) eqn:Ha.
    + rewrite (none_in_spec _ _ _ Ha Hc). lia.
    + destruct (q x); lia.
  - destruct (at_most ignorecase q r1) as [n1|]; [|discriminate].
    destruct (at_most ignorecase q r2) as [n2|]; [|discriminate].
    injection Hn as <-. rewrite count_append.
    specialize (IH1 _ eq_refl). specialize (IH2 _ eq_refl). lia.
  - destruct (at_most ignorecase q r1) as [n1|]; [|discriminate].
    destruct (at_most ignorecase q r2) as [n2|]; [|discriminate].
    injection Hn as <-. specialize (IH _ eq_refl). lia.
  - destruct (at_most ignorecase q r1) as [n1|]; [|discriminate].
    destruct (at_most ignorecase q r2) as [n2|]; [|discriminate].
    injection Hn as <-. specialize (IH _ eq_refl). lia.
  - lia.
  - rewrite count_append.
    cbn [at_most] in IH2.
    destruct (at_most ignorecase q r) as [[|n1]|] eqn:Hr; try discriminate.
    injection Hn as <-.
    specialize (IH1 _ eq_refl). specialize (IH2 _ eq_refl). lia.
  - injection Hn as <-. lia.
Qed.

End CountBounds.

Section Occurrences.
Import Py Re Lang Bounds.

Lemma match_here_split ignorecase r must_advance prev rest prev' rest' :
  match_here ignorecase r must_advance prev rest = Some (prev', rest') ->
  rest = (take (String.length rest - String.length rest') rest ++ rest')%string.
Proof.
  intros Hm. apply match_here_sound in Hm. destruct Hm as [g [-> _]].
  rewrite take_append. reflexivity.
Qed.

Lemma scan_occurs ignorecase r rest :
  forall must_advance prev g prev' rest',
    scan ignorecase r must_advance prev rest = Some (g, (prev', rest')) ->
    exists before, rest = (before ++ g ++ rest')%string.
Proof.
  induction rest as [|c rest IH]; intros must_advance prev g prev' rest' H;
    cbn [scan] in H.
  - destruct (match_here ignorecase r must_advance prev EmptyString)
      as [[p1 r1]|] eqn:Hm; [|discriminate].
    injection H as <- <- <-.
    exists EmptyString.
      exact (match_here_split _ _ _ _ _ _ _ Hm).
  - destruct (match_here ignorecase r must_advance prev (String c rest))
      as [[p1 r1]|] eqn:Hm.
    + injection H as <- <- <-.
      exists EmptyString.
      exact (match_here_split _ _ _ _ _ _ _ Hm).
    + apply IH in H. destruct H as [before ->].
      exists (String c before). reflexivity.
Qed.

(** A match is a text of the pattern and stands in the subject. *)
Lemma search_occurs ignorecase r text g :
  search ignorecase r text = Some g ->
  matches ignorecase r g
  /\ exists before after, occurs before g after text.
Proof.
  unfold search. intros H.
  destruct (scan ignorecase r false None text) as [[g' [prev' rest']]|] eqn:Hs;
    [|discriminate].
  injection H as <-. split.
  - eapply scan_sound. exact Hs.
  - apply scan_occurs in Hs. destruct Hs as [before Hb].
    exists before, rest'. exact Hb.
Qed.

Lemma occurs_count q before part after text :
  occurs before part after text -> (count q part <= count q text)%nat.
Proof.
  unfold occurs. intros ->. rewrite !count_append. lia.
Qed.

End Occurrences.

(* ================================================================== *)
(** * The contact details *)
(* ================================================================== *)

Section ContactInfo.
Import Py Re Lang ResumeParser Bounds.
Local Open Scope py_scope.

Lemma chr_match_exact c x : chr_match false c x = true -> x = c.
Proof.
  unfold chr_match. intros H. apply Ascii.eqb_eq in H. congruence.
Qed.

Lemma lower_append s1 s2 :
  lower (s1 ++ s2)%string = (lower s1 ++ lower s2)%string.
Proof.
  unfold lower. induction s1 as [|c s1 IH]; cbn; [reflexivity|].
  rewrite IH. reflexivity.
Qed.






Lemma first_phone_pattern patterns text p :
  first_phone patterns text = Some p ->
  exists pattern, In pattern patterns /\ search false pattern text = Some p.
Proof.
  induction patterns as [|pattern patterns IH]; cbn [first_phone];
    [discriminate|].
  destruct (search false pattern text) as [g|] eqn:Hs.
  - intros H. injection H as <-. exists pattern.
    split; [left; reflexivity|exact Hs].
  - intros H. destruct (IH H) as [q [Hq Hsq]].
    exists q. split; [right; exact Hq|exact Hsq].
Qed.

Lemma contact_info_fields text c :
  extract_contact_info text = inr c ->
  email c = search false email_pattern text
  /\ phone c = first_phone phone_patterns text
  /\ linkedin c = search true linkedin_pattern text
  /\ find_name (firstn 5 (stripped_lines text)) = inr (name c).
Proof.
  unfold extract_contact_info. intros H.
  destruct (find_name _) as [e|found]; [discriminate|].
  injection H as <-. repeat split.
Qed.

(** X7.  An email address, when one is returned, stands in the text; it
    holds exactly one [@], at least one dot, and at least six
    characters.  A text without [@] gives no email address. *)
Theorem email_stands_in_the_text :
  forall (text : string) (c : contact_info) (e : string),
    extract_contact_info text = inr c ->
    email c = Some e ->
    (exists before after, occurs before e after text)
    /\ count (Ascii.eqb "@") e = 1
    /\ 1 <= count (Ascii.eqb ".") e
    /\ 6 <= String.length e
    /\ 1 <= count (Ascii.eqb "@") text.
Proof.
  intros text c e Hc He.
  apply contact_info_fields in Hc. destruct Hc as [Hemail _].
  rewrite Hemail in He. apply search_occurs in He.
  destruct He as [Hm [before [after Hocc]]].
  assert (Hat : count (Ascii.eqb "@") e = 1).
  { pose proof (at_least_sound false (Ascii.eqb "@") _ _ Hm) as Hlo.
    pose proof (at_most_sound false (Ascii.eqb "@") _ _ Hm 1 eq_refl) as Hhi.
    change (at_least false (Ascii.eqb "@") email_pattern) with 1 in Hlo.
    lia. }
  split; [exists before, after; exact Hocc|].
  split; [exact Hat|]. split; [|split].
  - exact (at_least_sound false (Ascii.eqb ".") _ _ Hm).
  - rewrite <- count_all.
    exact (at_least_sound false (fun _ => true) _ _ Hm).
  - rewrite <- Hat. eapply occurs_count. exact Hocc.
Qed.

Lemma phone_bounds :
  forallb (fun r =>
             Nat.eqb (at_least false isdecimal r) 10
             && match at_most false isdecimal r with
                | Some n => Nat.leb n 11
                | None => false
                end
             && match at_most false (fun _ => true) r with
                | Some n => Nat.leb n 17
                | None => false
                end)
          phone_patterns = true.
Proof. vm_compute. reflexivity. Qed.

(** X8.  A phone number, when one is returned, stands in the text; it
    holds ten or eleven decimal digits and at most seventeen
    characters.  A text with fewer than ten digits gives no phone
    number. *)
Theorem phone_holds_ten_or_eleven_digits :
  forall (text : string) (c : contact_info) (p : string),
    extract_contact_info text = inr c ->
    phone c = Some p ->
    (exists before after, occurs before p after text)
    /\ 10 <= count isdecimal p <= 11
    /\ String.length p <= 17
    /\ 10 <= count isdecimal text.
Proof.
  intros text c p Hc Hp.
  apply contact_info_fields in Hc. destruct Hc as [_ [Hphone _]].
  rewrite Hphone in Hp. apply first_phone_pattern in Hp.
  destruct Hp as [pattern [Hin Hs]].
  apply search_occurs in Hs. destruct Hs as [Hm [before [after Hocc]]].
  pose proof phone_bounds as Hb. rewrite forallb_forall in Hb.
  specialize (Hb pattern Hin).
  apply andb_true_iff in Hb. destruct Hb as [Hb Hlen].
  apply andb_true_iff in Hb. destruct Hb as [Hlo Hhi].
  apply Nat.eqb_eq in Hlo.
  pose proof (at_least_sound false isdecimal _ _ Hm) as Hlo'.
  rewrite Hlo in Hlo'.
  destruct (at_most false isdecimal pattern) as [n|] eqn:Hn; [|discriminate].
  apply Nat.leb_le in Hhi.
  pose proof (at_most_sound false isdecimal _ _ Hm n Hn) as Hhi'.
  destruct (at_most false (fun _ => true) pattern) as [k|] eqn:Hk;
    [|discriminate].
  apply Nat.leb_le in Hlen.
  pose proof (at_most_sound false (fun _ => true) _ _ Hm k Hk) as Hlen'.
  rewrite count_all in Hlen'.
  split; [exists before, after; exact Hocc|].
  split; [lia|]. split; [lia|].
  pose proof (occurs_count isdecimal _ _ _ _ Hocc). lia.
Qed.



Lemma find_name_found lines n :
  find_name lines = inr (Some n) ->
  In n lines
  /\ existsb (fun header => contains header (lower n))
             ["objective"; "summary"; "experience"; "education"] = false
  /\ has_char "@" n = false
  /\ search false three_digits n = None
  /\ List.length (split_ws n) <= 4
  /\ String.length n < 50
  /\ exists c rest, n = String c rest /\ isupper c = true.
Proof.
  induction lines as [|line lines IH]; cbn [find_name]; [discriminate|].
  intros H.
  assert (Hskip : find_name lines = inr (Some n) ->
                  In n (line :: lines)
                  /\ existsb (fun header => contains header (lower n))
                        ["objective"; "summary"; "experience"; "education"]
                     = false
                  /\ has_char "@" n = false
                  /\ search false three_digits n = None
                  /\ List.length (split_ws n) <= 4
                  /\ String.length n < 50
                  /\ exists c rest, n = String c rest /\ isupper c = true).
  { intros H'. destruct (IH H') as [Hin Hrest].
    split; [right; exact Hin|exact Hrest]. }
  clear IH.
  destruct (existsb (fun header => contains header (lower line)) _) eqn:Hh;
    [exact (Hskip H)|].
  destruct (has_char "@" line) eqn:Hat; cbn [orb] in H; [exact (Hskip H)|].
  destruct (search false three_digits line) as [g|] eqn:Hd; cbn [found] in H;
    [exact (Hskip H)|].
  destruct (Nat.leb (List.length (split_ws line)) 4) eqn:Hw; cbn [andb] in H;
    [|exact (Hskip H)].
  destruct (Nat.ltb (String.length line) 50) eqn:Hl; [|exact (Hskip H)].
  destruct line as [|c rest]; [discriminate|].
  cbn [first_char bind ret] in H.
  destruct (isupper c) eqn:Hu; [|exact (Hskip H)].
  injection H as <-.
  split; [left; reflexivity|]. split; [exact Hh|]. split; [exact Hat|].
  split; [exact Hd|]. split; [apply Nat.leb_le; exact Hw|].
  split; [apply Nat.ltb_lt; exact Hl|].
  exists c, rest. split; [reflexivity|exact Hu].
Qed.

Lemma stripped_lines_spec text n :
  In n (stripped_lines text) ->
  exists line, In line (split "010" text) /\ n = strip line.
Proof.
  unfold stripped_lines. intros H. apply in_map_iff in H.
  destruct H as [line [<- Hin]]. apply filter_In in Hin.
  exists line. split; [apply Hin|reflexivity].
Qed.

(** X10.  [extract_contact_info] raises nothing, whatever the text: the
    first character of a line is only read on lines that are not empty.
    A name, when one is returned, is one of the first five lines that
    are not blank, with the blanks around it removed; it begins with an
    uppercase letter, holds at most four words and fewer than 50
    characters, no [@], no three digits in a row, and none of the words
    objective, summary, experience and education in any letter case. *)
Theorem name_is_a_short_capitalized_line :
  forall text : string,
  exists c,
    extract_contact_info text = inr c
    /\ forall n, name c = Some n ->
         In n (firstn 5 (stripped_lines text))
         /\ (exists line, In line (split "010" text) /\ n = strip line)
         /\ (exists first rest, n = String first rest /\ isupper first = true)
         /\ List.length (split_ws n) <= 4
         /\ String.length n < 50
         /\ has_char "@" n = false
         /\ search false three_digits n = None
         /\ Forall (fun header => contains header (lower n) = false)
                   ["objective"; "summary"; "experience"; "education"].
Proof.
  intros text.
  destruct (extract_contact_info_total text) as [c Hc].
  exists c. split; [exact Hc|].
  intros n Hn.
  apply contact_info_fields in Hc. destruct Hc as [_ [_ [_ Hname]]].
  rewrite Hn in Hname. apply find_name_found in Hname.
  destruct Hname as [Hin [Hh [Hat [Hd [Hw [Hl Hu]]]]]].
  split; [exact Hin|]. split.
  { apply stripped_lines_spec. eapply firstn_incl. exact Hin. }
  split; [exact Hu|]. split; [exact Hw|]. split; [exact Hl|].
  split; [exact Hat|]. split; [exact Hd|].
  apply Forall_forall. intros header Hheader.
  destruct (contains header (lower n)) eqn:Hc; [|reflexivity].
  assert (Hex : existsb (fun header => contains header (lower n))
                        ["objective"; "summary"; "experience"; "education"]
                = true).
  { apply existsb_exists. exists header. split; assumption. }
  congruence.
Qed.

End ContactInfo.

Section ContactSamples.
Import Py Re Lang ResumeParser Bounds.

Lemma email_stands_in_the_text_witness :
  extract_contact_info "Jane Doe
jane.doe@example.com | (555) 123-4567
LinkedIn.com/in/jane-doe"
  = inr {| email := Some "jane.doe@example.com";
           phone := Some " (555) 123-4567";
           linkedin := Some "LinkedIn.com/in/jane-doe";
           name := Some "Jane Doe" |}
  /\ count (Ascii.eqb "@") "jane.doe@example.com" = 1.
Proof.
  assert (H : extract_contact_info "Jane Doe
jane.doe@example.com | (555) 123-4567
LinkedIn.com/in/jane-doe"
  = inr {| email := Some "jane.doe@example.com";
           phone := Some " (555) 123-4567";
           linkedin := Some "LinkedIn.com/in/jane-doe";
           name := Some "Jane Doe" |}) by (vm_compute; reflexivity).
  split; [exact H|].
  exact (proj1 (proj2 (email_stands_in_the_text _ _ _ H eq_refl))).
Defined.

Lemma phone_holds_ten_or_eleven_digits_witness :
  extract_contact_info "Jane Doe
jane.doe@example.com | (555) 123-4567
LinkedIn.com/in/jane-doe"
  = inr {| email := Some "jane.doe@example.com";
           phone := Some " (555) 123-4567";
           linkedin := Some "LinkedIn.com/in/jane-doe";
           name := Some "Jane Doe" |}
  /\ 10 <= count isdecimal " (555) 123-4567" <= 11.
Proof.
  assert (H : extract_contact_info "Jane Doe
jane.doe@example.com | (555) 123-4567
LinkedIn.com/in/jane-doe"
  = inr {| email := Some "jane.doe@example.com";
           phone := Some " (555) 123-4567";
           linkedin := Some "LinkedIn.com/in/jane-doe";
           name := Some "Jane Doe" |}) by (vm_compute; reflexivity).
  split; [exact H|].
  exact (proj1 (proj2 (phone_holds_ten_or_eleven_digits _ _ _ H eq_refl))).
Defined.


End ContactSamples.

(* ================================================================== *)
(** * The skills *)
(* ================================================================== *)

Section WholeWords.
Import Py Re Lang ResumeParser Bounds.

Lemma startswith_split t : forall rest,
  startswith t rest = true -> rest = (t ++ drop (String.length t) rest)%string.
Proof.
  induction t as [|c t IH]; intros rest H; cbn [startswith] in H.
  - reflexivity.
  - destruct rest as [|x rest]; [discriminate|].
    apply andb_true_iff in H. destruct H as [Hc Ht].
    apply Ascii.eqb_eq in Hc. subst x.
    cbn [String.length drop append]. f_equal. apply IH, Ht.
Qed.

Lemma startswith_append t after : startswith t (t ++ after) = true.
Proof.
  induction t as [|c t IH]; cbn [startswith append]; [reflexivity|].
  rewrite Ascii.eqb_refl, IH. reflexivity.
Qed.

Lemma drop_append t after : drop (String.length t) (t ++ after) = after.
Proof. induction t as [|c t IH]; cbn; [reflexivity|exact IH]. Qed.

Lemma last_char_cons c t :
  t <> EmptyString -> last_char (String c t) = last_char t.
Proof. destruct t; [congruence|reflexivity]. Qed.

Lemma last_char_some t : t <> EmptyString -> exists c, last_char t = Some c.
Proof.
  induction t as [|c t IH]; [congruence|]. intros _.
  destruct t as [|c' t'].
  - exists c. reflexivity.
  - destruct IH as [x Hx]; [discriminate|]. exists x. exact Hx.
Qed.

Lemma last_char_append s t :
  last_char (s ++ t) = prev_after (last_char s) t.
Proof.
  unfold prev_after. induction s as [|c s IH]; cbn [append].
  - destruct (last_char t); reflexivity.
  - destruct s as [|c' s'].
    + cbn [append]. destruct t as [|x t']; [reflexivity|].
      rewrite (last_char_cons c (String x t')) by discriminate.
      destruct (last_char_some (String x t')) as [y Hy]; [discriminate|].
      rewrite Hy. reflexivity.
    + change (String c (String c' s' ++ t))
        with (String c (String c' (s' ++ t))).
      rewrite (last_char_cons c (String c' (s' ++ t))) by discriminate.
      rewrite (last_char_cons c (String c' s')) by discriminate.
      exact IH.
Qed.

(** Matching a literal, letter case kept: the literal has to stand
    there. *)
Lemma exec_lit A t : forall (k : option ascii -> string -> option A) prev rest,
  exec false A (lit t) k prev rest
  = if startswith t rest
    then k (prev_after prev t) (drop (String.length t) rest)
    else None.
Proof.
  unfold prev_after.
  induction t as [|c t IH]; intros k prev rest.
  - reflexivity.
  - destruct t as [|c' t'].
    + cbn [lit exec startswith last_char String.length drop].
      destruct rest as [|x rest]; [reflexivity|].
      unfold chr_match. destruct (Ascii.eqb_spec c x) as [->|Hne].
      * reflexivity.
      * reflexivity.
    + change (lit (String c (String c' t')))
        with (Seq (Chr c) (lit (String c' t'))).
      cbn [exec]. destruct rest as [|x rest]; [reflexivity|].
      unfold chr_match.
      change (startswith (String c (String c' t')) (String x rest))
        with (Ascii.eqb c x && startswith (String c' t') rest)%bool.
      destruct (Ascii.eqb_spec c x) as [->|Hne]; [|reflexivity].
      rewrite IH. cbn [andb].
      rewrite (last_char_cons x (String c' t')) by discriminate.
      destruct (last_char_some (String c' t')) as [y Hy]; [discriminate|].
      rewrite Hy. reflexivity.
Qed.

(** A whole word stands at a position. *)
Lemma match_here_whole_word t prev rest :
  match_here false (whole_word t) false prev rest
  = if (at_boundary prev rest && startswith t rest
        && at_boundary (prev_after prev t) (drop (String.length t) rest))%bool
    then Some (prev_after prev t, drop (String.length t) rest)
    else None.
Proof.
  unfold match_here, whole_word, escape. cbn [seq exec].
  destruct (at_boundary prev rest); [|reflexivity].
  rewrite exec_lit.
  destruct (startswith t rest); [|reflexivity].
  cbn [exec andb].
  destruct (at_boundary _ _); reflexivity.
Qed.

Lemma prev_after_append prev s t :
  prev_after prev (s ++ t) = prev_after (prev_after prev s) t.
Proof.
  unfold prev_after at 1 2. rewrite last_char_append.
  unfold prev_after. destruct (last_char t); [reflexivity|].
  reflexivity.
Qed.

Lemma prev_after_cons prev c s :
  prev_after prev (String c s) = prev_after (Some c) s.
Proof.
  unfold prev_after. destruct s as [|x s']; [reflexivity|].
  rewrite (last_char_cons c (String x s')) by discriminate.
  destruct (last_char_some (String x s')) as [y Hy]; [discriminate|].
  rewrite Hy. reflexivity.
Qed.

Lemma prev_after_None s : prev_after None s = last_char s.
Proof. unfold prev_after. destruct (last_char s); reflexivity. Qed.

Lemma scan_whole_word t rest : forall prev,
  found (option_map fst (scan false (whole_word t) false prev rest)) = true
  <-> exists before after,
        rest = (before ++ t ++ after)%string
        /\ at_boundary (prev_after prev before) (t ++ after) = true
        /\ at_boundary (prev_after prev (before ++ t)) after = true.
Proof.
  induction rest as [|c rest IH]; intros prev; cbn [scan];
    rewrite match_here_whole_word.
  - destruct (_ && _)%bool eqn:Hb.
    + split; [intros _|reflexivity].
      apply andb_true_iff in Hb. destruct Hb as [Hb H3].
      apply andb_true_iff in Hb. destruct Hb as [H1 H2].
      exists EmptyString, (drop (String.length t) EmptyString).
      cbn [append]. rewrite <- (startswith_split _ _ H2).
      split; [reflexivity|]. split; [exact H1|exact H3].
    + split; [discriminate|].
      intros [before [after [Heq [H1 H2]]]].
      destruct before as [|x before]; [|discriminate].
      cbn [append] in *. subst.
      destruct t as [|y t]; [|discriminate].
      cbn [append] in Heq. subst after.
      cbn in Hb. unfold prev_after in H1, H2. cbn in H1, H2.
      rewrite H1 in Hb. discriminate.
  - destruct (_ && _)%bool eqn:Hb.
    + split; [intros _|reflexivity].
      apply andb_true_iff in Hb. destruct Hb as [Hb H3].
      apply andb_true_iff in Hb. destruct Hb as [H1 H2].
      exists EmptyString, (drop (String.length t) (String c rest)).
      cbn [append]. rewrite <- (startswith_split _ _ H2).
      split; [reflexivity|]. split; [exact H1|exact H3].
    + rewrite IH. split.
      * intros [before [after [-> [H1 H2]]]].
        exists (String c before), after. split; [reflexivity|].
        cbn [append]. rewrite !prev_after_cons.
        split; [exact H1|exact H2].
      * intros [before [after [Heq [H1 H2]]]].
        destruct before as [|x before].
        -- exfalso. cbn [append] in Heq, H1, H2.
           change (prev_after prev EmptyString) with prev in H1.
           rewrite Heq, H1, startswith_append, drop_append, H2 in Hb.
           discriminate.
        -- cbn [append] in Heq, H2. injection Heq as <- ->.
           exists before, after. split; [reflexivity|].
           rewrite !prev_after_cons in H1, H2.
           split; [exact H1|exact H2].
Qed.

(** [re.search(r'\b' + re.escape(t) + r'\b', text)] finds something
    exactly when [t] stands in [text] between two word boundaries. *)
Lemma search_whole_word t text :
  found (search false (whole_word t) text) = true
  <-> exists before after,
        occurs before t after text /\ whole_word_at before t after.
Proof.
  unfold search. rewrite scan_whole_word. unfold occurs, whole_word_at.
  split; intros [before [after [Heq [H1 H2]]]]; exists before, after;
    rewrite !prev_after_None in *; repeat split; assumption.
Qed.

End WholeWords.

Section Skills.
Import Py Re Lang ResumeParser Bounds.

Lemma found_skills_spec text skill :
  In skill (found_skills text)
  <-> In skill all_skills
      /\ exists before after,
           occurs before (lower skill) after (lower text)
           /\ whole_word_at before (lower skill) after.
Proof.
  unfold found_skills. rewrite filter_In, search_whole_word. reflexivity.
Qed.

(** X11.  Whatever order a set is listed in: a skill is returned exactly
    when it is a skill of the database and its name stands in the text,
    both in lower case, with a word boundary before it and one after
    it. *)
Theorem skill_found_iff_its_name_stands_as_a_word :
  forall list_of_set : list string -> list string,
    (forall l x, In x (list_of_set l) <-> In x l) ->
    forall text skill : string,
      In skill (extract_skills list_of_set text)
      <-> In skill all_skills
          /\ exists before after,
               occurs before (lower skill) after (lower text)
               /\ whole_word_at before (lower skill) after.
Proof.
  intros list_of_set Hset text skill.
  unfold extract_skills. rewrite Hset. apply found_skills_spec.
Qed.

Lemma all_skills_named :
  forallb (fun skill => truthy (lower skill)) all_skills = true.
Proof. vm_compute. reflexivity. Qed.

Lemma word_after_cons after :
  word_after after = true ->
  exists c rest, after = String c rest /\ isword c = true.
Proof.
  destruct after as [|c rest]; [discriminate|].
  intros H. exists c, rest. split; [reflexivity|exact H].
Qed.

(** X12.  The skills whose name ends with a character that is not a word
    character are C++, C# and F#; such a skill is only returned when its
    name stands in the text right before a word character (a letter, a
    digit or an underscore): before a blank, before punctuation or at
    the end of the text it is not found. *)
Theorem skill_ending_in_a_symbol_needs_a_word_character_after :
  forall list_of_set : list string -> list string,
    (forall l x, In x (list_of_set l) <-> In x l) ->
    forall text skill : string,
      word_before (last_char (lower skill)) = false ->
      In skill (extract_skills list_of_set text) ->
      In skill ["C++"; "C#"; "F#"]
      /\ exists before next after,
           lower text
           = (before ++ lower skill ++ String next after)%string
           /\ isword next = true.
Proof.
  intros list_of_set Hset text skill Hlast Hin.
  unfold extract_skills in Hin. rewrite Hset in Hin.
  apply found_skills_spec in Hin.
  destruct Hin as [Hskill [before [after [Hocc [_ Hb]]]]].
  split.
  - assert (Hf : filter (fun s => negb (word_before (last_char (lower s))))
                        all_skills = ["C++"; "C#"; "F#"])
      by (vm_compute; reflexivity).
    rewrite <- Hf. apply filter_In. split; [exact Hskill|].
    rewrite Hlast. reflexivity.
  - pose proof all_skills_named as Hn. rewrite forallb_forall in Hn.
    specialize (Hn skill Hskill).
    rewrite last_char_append in Hb. unfold prev_after in Hb.
    destruct (last_char_some (lower skill)) as [c Hc].
    { destruct (lower skill); [discriminate|discriminate]. }
    rewrite Hc in Hb, Hlast. unfold at_boundary in Hb.
    rewrite Hlast in Hb. cbn [xorb] in Hb.
    destruct (word_after_cons _ Hb) as [next [rest [-> Hw]]].
    exists before, next, rest. split; [exact Hocc|exact Hw].
Qed.

End Skills.

Section SkillSamples.
Import Py Re Lang ResumeParser Bounds.

Lemma skill_found_iff_its_name_stands_as_a_word_witness :
  (forall l x, In x (nodup string_dec l) <-> In x l)
  /\ (In "Python" (extract_skills (nodup string_dec)
                     "Built APIs in Python, C++ and Go.")
      <-> In "Python" all_skills
          /\ exists before after,
               occurs before (lower "Python") after
                      (lower "Built APIs in Python, C++ and Go.")
               /\ whole_word_at before (lower "Python") after).
Proof.
  assert (H : forall l x, In x (nodup string_dec l) <-> In x l)
    by (intros l x; apply nodup_In).
  split; [exact H|].
  exact (skill_found_iff_its_name_stands_as_a_word
           (nodup string_dec) H
           "Built APIs in Python, C++ and Go." "Python").
Defined.

Lemma cpp_before_a_digit :
  In "C++" (found_skills "Modern C++11 and C++").
Proof.
  apply (proj2 (found_skills_spec "Modern C++11 and C++" "C++")). split.
  - exact (proj1 (mem_In "C++" all_skills) eq_refl).
  - exists "modern ", "11 and c++". split; [reflexivity|].
    split; reflexivity.
Qed.

Lemma skill_ending_in_a_symbol_needs_a_word_character_after_witness :
  (forall l x, In x (nodup string_dec l) <-> In x l)
  /\ word_before (last_char (lower "C++")) = false
  /\ In "C++" (extract_skills (nodup string_dec) "Modern C++11 and C++")
  /\ exists before next after,
       lower "Modern C++11 and C++"
       = (before ++ lower "C++" ++ String next after)%string
       /\ isword next = true.
Proof.
  assert (H : forall l x, In x (nodup string_dec l) <-> In x l)
    by (intros l x; apply nodup_In).
  assert (H1 : word_before (last_char (lower "C++")) = false)
    by reflexivity.
  assert (H2 : In "C++" (extract_skills (nodup string_dec)
                           "Modern C++11 and C++")).
  { unfold extract_skills.
    exact (proj2 (H (found_skills "Modern C++11 and C++") "C++")
                 cpp_before_a_digit). }
  split; [exact H|]. split; [exact H1|]. split; [exact H2|].
  exact (proj2 (skill_ending_in_a_symbol_needs_a_word_character_after
                  (nodup string_dec) H "Modern C++11 and C++" "C++" H1 H2)).
Defined.

End SkillSamples.

(* ================================================================== *)
(** * Experience and education *)
(* ================================================================== *)

Section Substrings.
Import Py Re Lang ResumeParser Bounds.

Lemma occurs_contains before part after text :
  occurs before part after text -> contains part text = true.
Proof.
  unfold occurs. intros ->.
  induction before as [|c before IH]; cbn [append].
  - destruct (part ++ after)%string eqn:Heq; cbn [contains];
      rewrite <- Heq, startswith_append; reflexivity.
  - cbn [contains]. rewrite IH. apply orb_true_r.
Qed.

Lemma occurs_trans b1 a1 b2 a2 part mid text :
  occurs b1 mid a1 text -> occurs b2 part a2 mid ->
  occurs (b1 ++ b2) part (a2 ++ a1) text.
Proof.
  unfold occurs. intros -> ->. rewrite !append_assoc_s. reflexivity.
Qed.

Lemma occurs_lower before part after text :
  occurs before part after text ->
  occurs (lower before) (lower part) (lower after) (lower text).
Proof. unfold occurs. intros ->. rewrite !lower_append. reflexivity. Qed.










End Substrings.

Section Experience.
Import Py Re Lang ResumeParser Bounds.




End Experience.

Section Education.
Import Py Re Lang ResumeParser Bounds.

Lemma education_loop_entries lines : forall edu_started education e,
  In e (education_loop lines edu_started education) ->
  In e education
  \/ (exists raw, In raw lines /\ e = strip raw)
     /\ e <> EmptyString
     /\ found (search true education_header e) = false
     /\ (existsb (fun keyword => contains keyword (lower e)) edu_keywords
         || has_degree e)%bool = true.
Proof.
  induction lines as [|raw lines IH]; intros edu_started education e;
    cbn [education_loop].
  - intros H. left. exact H.
  - assert (Hnext : forall started acc,
              In e (education_loop lines started acc) ->
              (In e acc -> In e education
                 \/ (exists raw0, In raw0 (raw :: lines) /\ e = strip raw0)
                    /\ e <> EmptyString
                    /\ found (search true education_header e) = false
                    /\ (existsb (fun keyword => contains keyword (lower e))
                                edu_keywords
                        || has_degree e)%bool = true) ->
              In e education
              \/ (exists raw0, In raw0 (raw :: lines) /\ e = strip raw0)
                 /\ e <> EmptyString
                 /\ found (search true education_header e) = false
                 /\ (existsb (fun keyword => contains keyword (lower e))
                             edu_keywords
                     || has_degree e)%bool = true).
    { intros started acc H Hacc. apply IH in H.
      destruct H as [H|[[raw0 [Hin ->]] Hrest]].
      - apply Hacc, H.
      - right. split; [|exact Hrest].
        exists raw0. split; [right; exact Hin|reflexivity]. }
    destruct (truthy (strip raw)) eqn:Ht; cbn [negb].
    2:{ intros H. apply (Hnext _ _ H). intros Hacc. left. exact Hacc. }
    destruct (found (search true education_header (strip raw))) eqn:Hh.
    { intros H. apply (Hnext _ _ H). intros Hacc. left. exact Hacc. }
    destruct (edu_started
              && found (search true education_stop (strip raw)))%bool.
    { intros H. left. exact H. }
    destruct (edu_started || has_degree (strip raw))%bool.
    2:{ intros H. apply (Hnext _ _ H). intros Hacc. left. exact Hacc. }
    destruct (existsb _ edu_keywords || has_degree (strip raw))%bool eqn:Hk.
    2:{ intros H. apply (Hnext _ _ H). intros Hacc. left. exact Hacc. }
    intros H. apply (Hnext _ _ H). intros Hacc.
    apply in_app_or in Hacc. destruct Hacc as [Hacc|[<-|[]]].
    + left. exact Hacc.
    + right. split; [exists raw; split; [left|]; reflexivity|].
      split; [apply truthy_nonempty, Ht|]. split; [exact Hh|exact Hk].
Qed.

(** X14.  Every education entry is a line of the text, with the blanks
    around it removed, that is not blank; it holds one of the words
    university, college, institute, school and academy, in any letter
    case, or a degree; and it is not a line on which the header word
    education is found. *)
Theorem education_entries_are_school_or_degree_lines :
  forall text : string,
    Forall (fun e =>
              (exists raw, In raw (split "010" text) /\ e = strip raw)
              /\ e <> EmptyString
              /\ found (search true education_header e) = false
              /\ (existsb (fun keyword => contains keyword (lower e))
                          edu_keywords
                  || has_degree e)%bool = true)
           (extract_education text).
Proof.
  intros text. apply Forall_forall. intros e H.
  unfold extract_education in H. apply firstn_incl in H.
  apply education_loop_entries in H. destruct H as [[]|H]. exact H.
Qed.

End Education.

(* ================================================================== *)
(** * The keyword counts *)
(* ================================================================== *)

Section Counting.
Import Py Re Lang ResumeParser Bounds.
Local Open Scope Z_scope.

Lemma counter_add_keys_in word counts w :
  In w (map fst (counter_add word counts))
  <-> w = word \/ In w (map fst counts).
Proof.
  induction counts as [|[k c] counts IH]; cbn [counter_add map fst In].
  - intuition congruence.
  - destruct (String.eqb_spec k word) as [->|Hne]; cbn [map fst In].
    + intuition congruence.
    + rewrite IH. intuition congruence.
Qed.

Lemma counter_add_NoDup word counts :
  NoDup (map fst counts) -> NoDup (map fst (counter_add word counts)).
Proof.
  induction counts as [|[k c] counts IH]; cbn [counter_add map fst];
    intros H.
  - repeat constructor. intros [].
  - inversion H as [|x l Hnotin Hrest]; subst.
    destruct (String.eqb_spec k word) as [->|Hne]; cbn [map fst].
    + constructor; assumption.
    + constructor; [|apply IH, Hrest].
      rewrite counter_add_keys_in. intros [->|Hin]; [congruence|].
      apply Hnotin, Hin.
Qed.

Lemma in_keys {A} (w : string) (n : A) counts :
  In (w, n) counts -> In w (map fst counts).
Proof. intros H. apply (in_map fst) in H. exact H. Qed.

(** What an entry of the counter is after one more word. *)
Lemma counter_add_entry word counts w n :
  NoDup (map fst counts) ->
  In (w, n) (counter_add word counts) ->
  (w <> word /\ In (w, n) counts)
  \/ (w = word
      /\ ((exists m, In (word, m) counts /\ n = m + 1)
          \/ (~ In word (map fst counts) /\ n = 1))).
Proof.
  induction counts as [|[k c] counts IH]; cbn [counter_add map fst];
    intros Hnd H.
  - destruct H as [H|[]]. injection H as <- <-.
    right. split; [reflexivity|]. right. split; [intros []|reflexivity].
  - inversion Hnd as [|x l Hnotin Hrest]; subst.
    destruct (String.eqb_spec k word) as [->|Hne].
    + destruct H as [H|H].
      * injection H as <- <-. right. split; [reflexivity|].
        left. exists c. split; [left; reflexivity|reflexivity].
      * left. split; [|right; exact H].
        intros ->. apply Hnotin. eapply in_keys. exact H.
    + destruct H as [H|H].
      * injection H as <- <-. left. split; [exact Hne|left; reflexivity].
      * destruct (IH Hrest H) as [[Hw Hin]|[-> [[m [Hin ->]]|[Hnot ->]]]].
        -- left. split; [exact Hw|right; exact Hin].
        -- right. split; [reflexivity|]. left. exists m.
           split; [right; exact Hin|reflexivity].
        -- right. split; [reflexivity|]. right.
           split; [|reflexivity].
           cbn [In]. intros [Heq|Hin]; [congruence|]. apply Hnot, Hin.
Qed.

Lemma count_occ_snoc (seen : list string) x w :
  count_occ string_dec (seen ++ [x]) w
  = (count_occ string_dec seen w + (if string_dec x w then 1 else 0))%nat.
Proof.
  rewrite count_occ_app. cbn [count_occ].
  destruct (string_dec x w); lia.
Qed.

(** The counter after the words [seen], whatever it held for them. *)
Lemma fold_counter words : forall counts seen,
  NoDup (map fst counts) ->
  (forall w, In w seen -> In w (map fst counts)) ->
  (forall w n, In (w, n) counts ->
               n = Z.of_nat (count_occ string_dec seen w) /\ In w seen) ->
  let final := fold_left (fun c x => counter_add x c) words counts in
  NoDup (map fst final)
  /\ (forall w, In w (seen ++ words) -> In w (map fst final))
  /\ (forall w n, In (w, n) final ->
        n = Z.of_nat (count_occ string_dec (seen ++ words) w)
        /\ In w (seen ++ words)).
Proof.
  induction words as [|x words IH]; intros counts seen Hnd Hall Hcount;
    cbn [fold_left].
  - rewrite app_nil_r. split; [exact Hnd|]. split; [exact Hall|exact Hcount].
  - replace (seen ++ x :: words) with ((seen ++ [x]) ++ words)
      by (rewrite <- app_assoc; reflexivity).
    apply IH.
    + apply counter_add_NoDup, Hnd.
    + intros w Hw. apply counter_add_keys_in.
      apply in_app_or in Hw. destruct Hw as [Hw|[<-|[]]].
      * right. apply Hall, Hw.
      * left. reflexivity.
    + intros w n Hin. rewrite count_occ_snoc.
      destruct (counter_add_entry _ _ _ _ Hnd Hin)
        as [[Hw Hin']|[-> [[m [Hin' ->]]|[Hnot ->]]]].
      * destruct (Hcount _ _ Hin') as [-> Hseen].
        destruct (string_dec x w) as [Heq|_]; [congruence|].
        split; [f_equal; lia|apply in_or_app; left; exact Hseen].
      * destruct (Hcount _ _ Hin') as [-> Hseen].
        destruct (string_dec x x) as [_|Hne]; [|congruence].
        split; [lia|apply in_or_app; left; exact Hseen].
      * destruct (string_dec x x) as [_|Hne]; [|congruence].
        assert (H0 : count_occ string_dec seen x = 0%nat).
        { apply count_occ_not_In. intros Hseen. apply Hnot, Hall, Hseen. }
        rewrite H0. split; [reflexivity|].
        apply in_or_app. right. left. reflexivity.
Qed.

Lemma Counter_spec words :
  NoDup (map fst (Counter words))
  /\ (forall w, In w words -> In w (map fst (Counter words)))
  /\ (forall w n, In (w, n) (Counter words) ->
        n = Z.of_nat (count_occ string_dec words w) /\ In w words).
Proof.
  unfold Counter.
  apply (fold_counter words [] []).
  - constructor.
  - intros w [].
  - intros w n [].
Qed.

Lemma StronglySorted_firstn {A} (R : A -> A -> Prop) n l :
  StronglySorted R l -> StronglySorted R (firstn n l).
Proof.
  revert l. induction n as [|n IH]; intros l H; cbn [firstn].
  - constructor.
  - destruct H as [|x l Hl Hx]; [constructor|].
    constructor; [apply IH, Hl|].
    apply Forall_forall. intros y Hy. rewrite Forall_forall in Hx.
    apply Hx. eapply firstn_incl. exact Hy.
Qed.

Lemma StronglySorted_weaken {A} (R R' : A -> A -> Prop) l :
  (forall a b, R a b -> R' a b) ->
  StronglySorted R l -> StronglySorted R' l.
Proof.
  intros HR. induction 1 as [|x l _ IH Hx]; constructor; [exact IH|].
  eapply Forall_impl; [|exact Hx]. intros b. apply HR.
Qed.

Lemma StronglySorted_map {A B} (R : B -> B -> Prop) (f : A -> B) l :
  StronglySorted (fun a b => R (f a) (f b)) l -> StronglySorted R (map f l).
Proof.
  induction 1 as [|x l _ IH Hx]; cbn [map]; constructor; [exact IH|].
  apply Forall_forall. intros y Hy. apply in_map_iff in Hy.
  destruct Hy as [a [<- Ha]]. rewrite Forall_forall in Hx. apply Hx, Ha.
Qed.

Lemma NoDup_firstn {A} n (l : list A) : NoDup l -> NoDup (firstn n l).
Proof.
  revert l. induction n as [|n IH]; intros l H; cbn [firstn].
  - constructor.
  - destruct H as [|x l Hx Hl]; constructor.
    + intros Hin. apply Hx. eapply firstn_incl. exact Hin.
    + apply IH, Hl.
Qed.

Lemma az_lower_upper c : is_az c = true -> lower_char (upper_char c) = c.
Proof.
  destruct c as [[] [] [] [] [] [] [] []]; vm_compute;
    intros; solve [reflexivity | discriminate].
Qed.

Lemma lower_az s : all_chars is_az s = true -> lower s = s.
Proof.
  unfold lower. induction s as [|c s IH]; cbn [all_chars map_str];
    [reflexivity|].
  intros H. apply andb_true_iff in H. destruct H as [Hc Hs].
  rewrite (is_az_lower c Hc), (IH Hs). reflexivity.
Qed.

(** Title case and then lower case gives a token back. *)
Lemma lower_title_token token : az_word token -> lower (title token) = token.
Proof.
  intros [Hne Haz]. destruct token as [|c s]; [congruence|].
  cbn [all_chars] in Haz. apply andb_true_iff in Haz.
  destruct Haz as [Hc Hs].
  unfold title. cbn [title_from].
  rewrite (is_az_cased c Hc), (title_from_az s Hs).
  change (lower (String (upper_char c) s))
    with (String (lower_char (upper_char c)) (lower s)).
  rewrite (az_lower_upper c Hc), (lower_az s Hs). reflexivity.
Qed.

(** The counted words: the tokens of the lowercased text that pass the
    test of the loop. *)
Lemma counted_words_az text w :
  In w (filter relevant (findall false word_pattern (lower text))) ->
  az_word w.
Proof.
  intros H. apply filter_In in H. destruct H as [H _].
  pose proof (words_are_az (lower text)) as Haz.
  rewrite Forall_forall in Haz. apply Haz, H.
Qed.

Lemma most_common_spec n words :
  let top := most_common n (Counter words) in
  StronglySorted (desc snd) top
  /\ NoDup (map fst top)
  /\ Forall (fun entry =>
               In (fst entry) words
               /\ snd entry
                  = Z.of_nat (count_occ string_dec words (fst entry))
               /\ 1 <= snd entry) top.
Proof.
  destruct (Counter_spec words) as [Hnd [_ Hcount]].
  unfold most_common. split; [|split].
  - apply StronglySorted_firstn, sort_desc_sorted.
  - rewrite <- firstn_map. apply NoDup_firstn.
    eapply Permutation_NoDup; [|exact Hnd].
    apply Permutation_map, sort_desc_perm.
  - apply Forall_forall. intros [w c] Hin. cbn [fst snd].
    apply firstn_incl in Hin.
    apply (Permutation_in _ (Permutation_sym (sort_desc_perm snd _))) in Hin.
    destruct (Hcount _ _ Hin) as [-> Hw].
    split; [exact Hw|]. split; [reflexivity|].
    apply (count_occ_In string_dec) in Hw. lia.
Qed.

(** X15.  The keyword list is in descending order of count; every count
    is at least 1; no word is listed twice. *)
Theorem keywords_are_ranked_by_count :
  forall text : string,
    StronglySorted (desc JobFieldRecommender.count) (extract_keywords text)
    /\ Forall (fun k => 1 <= JobFieldRecommender.count k)
              (extract_keywords text)
    /\ NoDup (map JobFieldRecommender.word (extract_keywords text)).
Proof.
  intros text. unfold extract_keywords.
  set (words := filter relevant (findall false word_pattern (lower text))).
  destruct (most_common_spec 20 words) as [Hsorted [Hnd Hall]].
  split; [|split].
  - apply StronglySorted_map.
    eapply StronglySorted_weaken; [|exact Hsorted].
    intros [w1 c1] [w2 c2] H. exact H.
  - apply Forall_forall. intros k Hk. apply in_map_iff in Hk.
    destruct Hk as [[w c] [<- Hin]]. cbn.
    rewrite Forall_forall in Hall. apply (Hall _ Hin).
  - rewrite map_map.
    rewrite Forall_forall in Hall.
    assert (Hinj : forall l,
              (forall e, In e l -> az_word (fst e)) ->
              NoDup (map fst l) ->
              NoDup (map (fun x : string * Z =>
                            JobFieldRecommender.word
                              (let '(word, count) := x in
                               {| JobFieldRecommender.word := title word;
                                  JobFieldRecommender.count := count |})) l)).
    { induction l as [|[w c] l IHl]; intros Haz Hn; cbn [map]; [constructor|].
      cbn [map fst] in Hn. inversion Hn as [|x l' Hnotin Hrest]; subst.
      constructor.
      - intros Hin. apply in_map_iff in Hin.
        destruct Hin as [[w' c'] [Heq Hin']]. cbn in Heq.
        apply Hnotin.
        assert (Hw : w' = w).
        { rewrite <- (lower_title_token w'), <- (lower_title_token w).
          - rewrite Heq. reflexivity.
          - apply (Haz (w, c)). left. reflexivity.
          - apply (Haz (w', c')). right. exact Hin'. }
        subst w'. eapply in_keys. exact Hin'.
      - apply IHl; [|exact Hrest].
        intros e He. apply Haz. right. exact He. }
    apply Hinj; [|exact Hnd].
    intros e He. eapply counted_words_az. apply (Hall _ He).
Qed.

(** X16.  The count of a listed word is the number of times its
    lowercase form occurs among the tokens of the lowercased text, and
    that lowercase form passes the test of the loop: it is a job keyword
    of more than three letters or the lowercase form of a skill. *)
Theorem keyword_count_is_the_number_of_occurrences :
  forall (text : string) (k : JobFieldRecommender.keyword),
    In k (extract_keywords text) ->
    relevant (lower (JobFieldRecommender.word k)) = true
    /\ JobFieldRecommender.count k
       = Z.of_nat (count_occ string_dec
                     (findall false word_pattern (lower text))
                     (lower (JobFieldRecommender.word k))).
Proof.
  intros text k Hk. unfold extract_keywords in Hk.
  apply in_map_iff in Hk. destruct Hk as [[w c] [<- Hin]].
  cbn [JobFieldRecommender.word JobFieldRecommender.count].
  set (words := filter relevant (findall false word_pattern (lower text)))
    in *.
  destruct (most_common_spec 20 words) as [_ [_ Hall]].
  rewrite Forall_forall in Hall. destruct (Hall _ Hin) as [Hw [Hc _]].
  cbn [fst snd] in Hw, Hc.
  rewrite (lower_title_token w (counted_words_az _ _ Hw)).
  pose proof Hw as Hrel. apply filter_In in Hrel.
  split; [apply Hrel|].
  rewrite Hc. f_equal. unfold words.
  clear -Hrel. destruct Hrel as [_ Hrel].
  induction (findall false word_pattern (lower text)) as [|x l IH];
    [reflexivity|].
  cbn [filter]. destruct (relevant x) eqn:Hx; cbn [count_occ].
  - destruct (string_dec x w); rewrite IH; reflexivity.
  - destruct (string_dec x w) as [->|_]; [congruence|exact IH].
Qed.

(** X17.  When the text has at most 20 different counted words, every
    one of them is listed: a token of the lowercased text that passes
    the test of the loop has its title-cased form in the list. *)
Theorem every_counted_word_is_listed :
  forall (text token : string),
    In token (findall false word_pattern (lower text)) ->
    relevant token = true ->
    (List.length
       (nodup string_dec
          (filter relevant (findall false word_pattern (lower text))))
     <= 20)%nat ->
    exists k,
      In k (extract_keywords text)
      /\ JobFieldRecommender.word k = title token.
Proof.
  intros text token Htoken Hrel Hlen. unfold extract_keywords.
  set (words := filter relevant (findall false word_pattern (lower text)))
    in *.
  assert (Hw : In token words) by (apply filter_In; split; assumption).
  destruct (Counter_spec words) as [Hnd [Hall Hcount]].
  assert (Hshort : (List.length (Counter words) <= 20)%nat).
  { rewrite <- (length_map fst).
    etransitivity; [|exact Hlen].
    apply NoDup_incl_length; [exact Hnd|].
    intros w Hin. apply nodup_In. apply in_map_iff in Hin.
    destruct Hin as [[w' n] [<- Hin]]. apply (Hcount _ _ Hin). }
  apply Hall in Hw. apply in_map_iff in Hw.
  destruct Hw as [[w n] [Heq Hin]]. cbn [fst] in Heq. subst w.
  exists {| JobFieldRecommender.word := title token;
            JobFieldRecommender.count := n |}.
  split; [|reflexivity].
  apply in_map_iff. exists (token, n). split; [reflexivity|].
  unfold most_common. rewrite firstn_all2.
  - apply (Permutation_in _ (sort_desc_perm snd _)), Hin.
  - rewrite <- (Permutation_length (sort_desc_perm snd (Counter words))).
    exact Hshort.
Qed.

End Counting.

Section KeywordSamples.
Import Py Re Lang ResumeParser Bounds.
Local Open Scope Z_scope.

Lemma keyword_count_is_the_number_of_occurrences_witness :
  In {| JobFieldRecommender.word := "Developer";
        JobFieldRecommender.count := 2 |}
     (extract_keywords
        "Senior developer. Python developer and team lead; python 3")
  /\ relevant (lower "Developer") = true
  /\ 2 = Z.of_nat
           (count_occ string_dec
              (findall false word_pattern
                 (lower "Senior developer. Python developer and team lead; python 3"))
              (lower "Developer")).
Proof.
  assert (H : In {| JobFieldRecommender.word := "Developer";
                    JobFieldRecommender.count := 2 |}
                 (extract_keywords
                    "Senior developer. Python developer and team lead; python 3"))
    by (left; reflexivity).
  split; [exact H|].
  exact (keyword_count_is_the_number_of_occurrences _ _ H).
Defined.

Lemma every_counted_word_is_listed_witness :
  In "team"
     (findall false word_pattern
        (lower "Senior developer. Python developer and team lead; python 3"))
  /\ relevant "team" = true
  /\ (List.length
        (nodup string_dec
           (filter relevant
              (findall false word_pattern
                 (lower "Senior developer. Python developer and team lead; python 3"))))
      <= 20)%nat
  /\ exists k,
       In k (extract_keywords
               "Senior developer. Python developer and team lead; python 3")
       /\ JobFieldRecommender.word k = title "team".
Proof.
  assert (H1 : In "team"
     (findall false word_pattern
        (lower "Senior developer. Python developer and team lead; python 3")))
    by (apply mem_In; reflexivity).
  assert (H2 : relevant "team" = true) by reflexivity.
  assert (H3 : (List.length
        (nodup string_dec
           (filter relevant
              (findall false word_pattern
                 (lower "Senior developer. Python developer and team lead; python 3"))))
      <= 20)%nat) by (apply Nat.leb_le; vm_compute; reflexivity).
  split; [exact H1|]. split; [exact H2|]. split; [exact H3|].
  exact (every_counted_word_is_listed _ _ H1 H2 H3).
Defined.

End KeywordSamples.

(* ================================================================== *)
(** * The file name, and the upload *)
(* ================================================================== *)

Section Extension.
Import Py ResumeParser Samples Bounds.
Local Open Scope py_scope.

(** The fields of [s.split(sep)]: there is a last one, it holds no
    separator, and it is what follows the last separator of [s]. *)
Lemma split_last sep s :
  exists init ext,
    split sep s = init ++ [ext]
    /\ has_char sep ext = false
    /\ (init = [] -> s = ext)
    /\ (init <> [] -> exists stem, s = (stem ++ String sep ext)%string).
Proof.
  induction s as [|c s (init & ext & Hs & Hext & Hnil & Hcons)];
    cbn [split].
  - exists [], EmptyString. repeat split; try reflexivity. congruence.
  - destruct (Ascii.eqb_spec c sep) as [->|Hne].
    + exists (EmptyString :: init), ext. rewrite Hs.
      split; [reflexivity|]. split; [exact Hext|].
      split; [discriminate|]. intros _.
      destruct init as [|w init'].
      * exists EmptyString. rewrite (Hnil eq_refl). reflexivity.
      * destruct Hcons as [stem ->]; [discriminate|].
        exists (String sep stem). reflexivity.
    + rewrite Hs. destruct init as [|w init']; cbn [app].
      * exists [], (String c ext). split; [reflexivity|].
        split.
        { cbn [has_char]. rewrite Hext, orb_false_r.
          apply Ascii.eqb_neq. congruence. }
        split; [intros _; rewrite (Hnil eq_refl); reflexivity|congruence].
      * exists (String c w :: init'), ext. split; [reflexivity|].
        split; [exact Hext|]. split; [discriminate|]. intros _.
        destruct Hcons as [stem ->]; [discriminate|].
        exists (String c stem). reflexivity.
Qed.

Lemma last_item_snoc {A} (init : list A) x : last_item (init ++ [x]) = inr x.
Proof. unfold last_item. rewrite rev_app_distr. reflexivity. Qed.

(** [filename.lower().split('.')[-1]] raises nothing. *)
Lemma file_extension_total filename :
  exists ext,
    last_item (split "." (lower filename)) = inr ext
    /\ has_char "." ext = false
    /\ (lower filename = ext
        \/ exists stem, lower filename = (stem ++ String "." ext)%string).
Proof.
  destruct (split_last "." (lower filename))
    as (init & ext & Hs & Hext & Hnil & Hcons).
  exists ext. rewrite Hs, last_item_snoc.
  split; [reflexivity|]. split; [exact Hext|].
  destruct init as [|w init'].
  - left. apply Hnil. reflexivity.
  - right. apply Hcons. discriminate.
Qed.

Variable list_of_set : list string -> list string.
Variable extract_text_from_pdf : string -> result string.
Variable extract_text_from_docx : string -> result string.
Variable extract_text_from_txt : string -> result string.

(** X18.  The reader is chosen by what follows the last dot of the
    lowercased file name, the whole name when it has no dot; reading
    that extension raises no [IndexError].  A name whose extension is
    none of pdf, docx, doc and txt makes [parse_resume] raise the
    [ValueError] that names the extension, whatever the readers and the
    extractors are, and before any extractor is entered. *)
Theorem reader_is_chosen_by_the_last_extension :
  forall file_path filename : string,
  exists ext,
    has_char "." ext = false
    /\ (lower filename = ext
        \/ exists stem, lower filename = (stem ++ String "." ext)%string)
    /\ read_text extract_text_from_pdf extract_text_from_docx
                 extract_text_from_txt file_path filename
       = (if String.eqb ext "pdf" then extract_text_from_pdf file_path
          else if mem ext ["docx"; "doc"]
          then extract_text_from_docx file_path
          else if String.eqb ext "txt" then extract_text_from_txt file_path
          else inl (ValueError ("Unsupported file format: " ++ ext)))
    /\ (mem ext ["pdf"; "docx"; "doc"; "txt"] = false ->
        forall (self : methods) (log : list extractor),
          parse_resume extract_text_from_pdf extract_text_from_docx
                       extract_text_from_txt self file_path filename log
          = (inl (ValueError ("Unsupported file format: " ++ ext)), log)).
Proof.
  intros file_path filename.
  destruct (file_extension_total filename) as (ext & Hlast & Hdot & Hname).
  exists ext. split; [exact Hdot|]. split; [exact Hname|].
  assert (Hread :
    read_text extract_text_from_pdf extract_text_from_docx
              extract_text_from_txt file_path filename
    = (if String.eqb ext "pdf" then extract_text_from_pdf file_path
       else if mem ext ["docx"; "doc"]
       then extract_text_from_docx file_path
       else if String.eqb ext "txt" then extract_text_from_txt file_path
       else inl (ValueError ("Unsupported file format: " ++ ext)))).
  { unfold read_text. rewrite Hlast. reflexivity. }
  split; [exact Hread|].
  intros Hmem self log. unfold parse_resume, t_bind, t_lift.
  rewrite Hread. unfold mem in Hmem |- *. cbn [existsb] in Hmem |- *.
  apply orb_false_iff in Hmem. destruct Hmem as [Hpdf Hmem].
  apply orb_false_iff in Hmem. destruct Hmem as [Hdocx Hmem].
  apply orb_false_iff in Hmem. destruct Hmem as [Hdoc Hmem].
  apply orb_false_iff in Hmem. destruct Hmem as [Htxt _].
  rewrite Hpdf, Hdocx, Hdoc, Htxt. reflexivity.
Qed.

End Extension.

Section Upload.
Import Py ResumeParser Samples Bounds Routes.
Local Open Scope py_scope.
Local Open Scope Z_scope.

Variable list_of_set : list string -> list string.
Variable extract_text_from_pdf : string -> result string.
Variable extract_text_from_docx : string -> result string.
Variable extract_text_from_txt : string -> result string.

(** X19.  A file name that passes the checks of [upload_resume] is not
    empty, and [parse_resume], which is given the same name, hands the
    file to one of the three readers: its error for an unsupported
    format cannot occur in an upload. *)
Theorem accepted_upload_reaches_a_reader :
  forall filename file_path : string,
    upload_checks list_of_set (Some filename) = inr None ->
    filename <> EmptyString
    /\ (read_text extract_text_from_pdf extract_text_from_docx
                  extract_text_from_txt file_path filename
        = extract_text_from_pdf file_path
        \/ read_text extract_text_from_pdf extract_text_from_docx
                     extract_text_from_txt file_path filename
           = extract_text_from_docx file_path
        \/ read_text extract_text_from_pdf extract_text_from_docx
                     extract_text_from_txt file_path filename
           = extract_text_from_txt file_path).
Proof.
  intros filename file_path H. unfold upload_checks in H.
  destruct (String.eqb_spec filename "") as [->|Hne]; [discriminate|].
  split; [exact Hne|].
  unfold read_text.
  destruct (file_extension_total filename) as (ext & Hlast & _).
  rewrite Hlast in H |- *. cbn [bind] in H |- *.
  destruct (mem ext allowed_extensions) eqn:Hmem; [|discriminate].
  unfold mem, allowed_extensions in Hmem. cbn [existsb] in Hmem.
  unfold mem. cbn [existsb].
  destruct (String.eqb ext "pdf"); [left; reflexivity|].
  destruct (String.eqb ext "docx"); [right; left; reflexivity|].
  destruct (String.eqb ext "doc"); [right; left; reflexivity|].
  destruct (String.eqb ext "txt"); [right; right; reflexivity|].
  discriminate.
Qed.

(** The list of recommendations, whatever the candidate. *)
Lemma recommendations_ranked user_skills user_keywords experience_text :
  exists ranked,
    JobFieldRecommender.get_job_recommendations
      user_skills user_keywords experience_text = inr ranked
    /\ List.length ranked = 10%nat
    /\ Forall (fun r => 0 <= JobFieldRecommender.match_percentage r <= 100)
              ranked
    /\ StronglySorted (desc JobFieldRecommender.match_percentage) ranked.
Proof.
  destruct (collect_matches_taxonomy user_skills user_keywords
              experience_text) as [unsorted [Hc HF]].
  pose proof (Forall2_length HF) as Hlen.
  apply Forall2_fields in HF. destruct HF as [_ HF].
  unfold JobFieldRecommender.get_job_recommendations.
  rewrite Hc. cbn [bind ret]. eexists. split; [reflexivity|].
  split; [|split].
  - rewrite <- (Permutation_length
                  (sort_desc_perm JobFieldRecommender.match_percentage
                     unsorted)).
    rewrite <- Hlen. reflexivity.
  - apply (Permutation_Forall
             (sort_desc_perm JobFieldRecommender.match_percentage unsorted)).
    exact HF.
  - apply sort_desc_sorted.
Qed.

(** X20.  The analysis of an upload whose text is not blank raises
    nothing: the five extractors are entered, and the ten fields are
    ranked from the skills and the keywords of the record and from its
    experience entries joined by spaces; each score is between 0 and
    100 and the list is in descending order of score. *)
Theorem upload_analysis_ranks_the_ten_fields :
  forall (file_path filename text : string),
    read_text extract_text_from_pdf extract_text_from_docx
              extract_text_from_txt file_path filename = inr text ->
    strip text <> EmptyString ->
    exists parsed_data job_recommendations,
      analyse list_of_set extract_text_from_pdf extract_text_from_docx
              extract_text_from_txt file_path filename []
      = (inr (parsed_data, job_recommendations), all_extractors)
      /\ p_skills parsed_data = extract_skills list_of_set text
      /\ p_keywords parsed_data = extract_keywords text
      /\ experience_text parsed_data = join " " (extract_experience text)
      /\ JobFieldRecommender.get_job_recommendations
           (p_skills parsed_data) (p_keywords parsed_data)
           (experience_text parsed_data)
         = inr job_recommendations
      /\ List.length job_recommendations = 10%nat
      /\ Forall (fun r =>
                   0 <= JobFieldRecommender.match_percentage r <= 100)
                job_recommendations
      /\ StronglySorted (desc JobFieldRecommender.match_percentage)
                        job_recommendations.
Proof.
  intros file_path filename text Hread Hstrip.
  destruct (parse_resume_parser list_of_set _ _ _ file_path filename text []
              Hread Hstrip) as [c [_ Hparse]].
  match type of Hparse with _ = (inr ?r, _) => set (parsed_data := r) in * end.
  destruct (recommendations_ranked (p_skills parsed_data)
              (p_keywords parsed_data) (experience_text parsed_data))
    as [ranked [Hr [Hlen [Hrange Hsorted]]]].
  exists parsed_data, ranked.
  split.
  { unfold analyse, t_bind, t_lift, t_ret. rewrite Hparse, Hr. reflexivity. }
  split; [reflexivity|]. split; [reflexivity|].
  split.
  { unfold experience_text. cbn [p_experience parsed_data].
    destruct (extract_experience text); reflexivity. }
  split; [exact Hr|]. split; [exact Hlen|]. split; assumption.
Qed.

End Upload.

Section UploadSamples.
Import Py ResumeParser Samples Bounds Routes.

Lemma accepted_upload_reaches_a_reader_witness :
  upload_checks (nodup string_dec) (Some "Jane.Doe.CV.DOCX") = inr None
  /\ "Jane.Doe.CV.DOCX" <> EmptyString
  /\ (read_text unsupported (reads "Jane Doe") unsupported
                "uploads/cv" "Jane.Doe.CV.DOCX"
      = unsupported "uploads/cv"
      \/ read_text unsupported (reads "Jane Doe") unsupported
                   "uploads/cv" "Jane.Doe.CV.DOCX"
         = reads "Jane Doe" "uploads/cv"
      \/ read_text unsupported (reads "Jane Doe") unsupported
                   "uploads/cv" "Jane.Doe.CV.DOCX"
         = unsupported "uploads/cv").
Proof.
  assert (H : upload_checks (nodup string_dec) (Some "Jane.Doe.CV.DOCX")
              = inr None) by reflexivity.
  split; [exact H|].
  exact (accepted_upload_reaches_a_reader (nodup string_dec)
           unsupported (reads "Jane Doe") unsupported
           "Jane.Doe.CV.DOCX" "uploads/cv" H).
Defined.

Lemma upload_analysis_ranks_the_ten_fields_witness :
  read_text unsupported unsupported (reads work_history) "uploads/cv" "cv.txt"
  = inr work_history
  /\ strip work_history <> EmptyString
  /\ exists parsed_data job_recommendations,
       analyse (nodup string_dec) unsupported unsupported
               (reads work_history) "uploads/cv" "cv.txt" []
       = (inr (parsed_data, job_recommendations), all_extractors)
       /\ List.length job_recommendations = 10%nat.
Proof.
  assert (H1 : read_text unsupported unsupported (reads work_history)
                         "uploads/cv" "cv.txt" = inr work_history)
    by reflexivity.
  assert (H2 : strip work_history <> EmptyString)
    by (vm_compute; discriminate).
  split; [exact H1|]. split; [exact H2|].
  destruct (upload_analysis_ranks_the_ten_fields (nodup string_dec)
              unsupported unsupported (reads work_history)
              "uploads/cv" "cv.txt" work_history H1 H2)
    as (parsed_data & recs & Ha & _ & _ & _ & _ & Hlen & _).
  exists parsed_data, recs. split; [exact Ha|exact Hlen].
Defined.

End UploadSamples.

(* ================================================================== *)
(** * The fast scraper *)
(* ================================================================== *)

Section Relevance.
Import Py Bounds Scraper.

Lemma startswith_occurs p : forall s,
  startswith p s = true -> exists after, s = (p ++ after)%string.
Proof.
  intros s H. exists (drop (String.length p) s).
  apply startswith_split, H.
Qed.

Lemma contains_occurs p s :
  contains p s = true -> exists before after, occurs before p after s.
Proof.
  unfold occurs. induction s as [|c s IH]; cbn [contains].
  - rewrite orb_false_r. intros H.
    destruct (startswith_occurs _ _ H) as [after Ha].
    exists EmptyString, after. exact Ha.
  - intros H. apply orb_true_iff in H. destruct H as [H|H].
    + destruct (startswith_occurs _ _ H) as [after Ha].
      exists EmptyString, after. exact Ha.
    + destruct (IH H) as [before [after ->]].
      exists (String c before), after. reflexivity.
Qed.

(** A text that holds [p] holds what [p] holds. *)
Lemma contains_trans q p s :
  contains q p = true -> contains p s = true -> contains q s = true.
Proof.
  intros Hq Hp.
  destruct (contains_occurs _ _ Hq) as [b1 [a1 H1]].
  destruct (contains_occurs _ _ Hp) as [b2 [a2 H2]].
  eapply occurs_contains. eapply occurs_trans; eassumption.
Qed.

Lemma get_In {V} (d : dict V) key v : get d key = Some v -> In (key, v) d.
Proof.
  induction d as [|[k x] d IH]; cbn [get]; [discriminate|].
  destruct (String.eqb_spec k key) as [->|_].
  - intros H. injection H as <-. left. reflexivity.
  - intros H. right. apply IH, H.
Qed.

(** Each field of the table has a keyword in its own name. *)
Lemma field_keywords_name_themselves :
  forallb (fun entry =>
             existsb (fun keyword => contains keyword (lower (fst entry)))
                     (snd entry))
          field_keywords = true.
Proof. vm_compute. reflexivity. Qed.

Lemma named_title_is_relevant job_field before after :
  is_relevant_job (before ++ job_field ++ after) job_field = true.
Proof.
  unfold is_relevant_job.
  assert (Hname : contains (lower job_field)
                           (lower (before ++ job_field ++ after)) = true).
  { eapply occurs_contains. apply occurs_lower. reflexivity. }
  unfold get_or. destruct (get field_keywords job_field) as [keywords|] eqn:Hg.
  - apply get_In in Hg.
    pose proof field_keywords_name_themselves as Hall.
    rewrite forallb_forall in Hall. specialize (Hall _ Hg).
    cbn [fst snd] in Hall. apply existsb_exists in Hall.
    destruct Hall as [keyword [Hin Hk]].
    apply existsb_exists. exists keyword. split; [exact Hin|].
    eapply contains_trans; eassumption.
  - cbn [existsb]. rewrite Hname. reflexivity.
Qed.


Lemma relevant_among_all job_field jobs :
  Forall (fun job =>
            exists before after,
              get job "title" = Some (before ++ job_field ++ after)%string)
         jobs ->
  relevant_among job_field jobs = inr jobs.
Proof.
  induction 1 as [|job jobs [before [after Ht]] _ IH]; cbn [relevant_among].
  - reflexivity.
  - unfold item. rewrite Ht. cbn [bind ret].
    rewrite named_title_is_relevant, IH. reflexivity.
Qed.

Lemma base_jobs_titles job_field :
  Forall (fun job =>
            exists before after,
              get job "title" = Some (before ++ job_field ++ after)%string)
         (base_jobs job_field).
Proof.
  unfold base_jobs.
  repeat (apply Forall_cons; [|]); try apply Forall_nil; cbn [get String.eqb].
  - exists "Senior ", EmptyString. cbn.
    f_equal. clear. induction job_field; cbn; congruence.
  - exists EmptyString, " - Remote". reflexivity.
  - exists "Lead ", EmptyString. cbn.
    f_equal. clear. induction job_field; cbn; congruence.
  - exists "Junior ", EmptyString. cbn.
    f_equal. clear. induction job_field; cbn; congruence.
  - exists EmptyString, " Intern". reflexivity.
  - exists "Principal ", EmptyString. cbn.
    f_equal. clear. induction job_field; cbn; congruence.
Qed.

(** The six jobs are the jobs matched, whatever the field. *)
Lemma relevant_jobs_all job_field :
  relevant_jobs job_field = inr (base_jobs job_field).
Proof.
  unfold relevant_jobs.
  rewrite (relevant_among_all _ _ (base_jobs_titles job_field)).
  reflexivity.
Qed.

End Relevance.

Section SimpleScore.
Import Py Bounds Scraper.
Local Open Scope py_scope.
Local Open Scope Z_scope.

Variable entropy : nat -> Z.
Variable hash : string -> Z.

Lemma randint_range a b n :
  a <= b ->
  exists r, randint entropy a b n = inr (r, S n) /\ a <= r <= b.
Proof.
  intros Hab. unfold randint. eexists. split; [reflexivity|].
  pose proof (Z.mod_pos_bound (entropy n) (b - a + 1) ltac:(lia)). lia.
Qed.

Lemma matching_strings job_text words :
  exists found,
    matching job_text (map Some words) = inr found
    /\ (List.length found <= List.length words)%nat.
Proof.
  induction words as [|w words [found [Hf Hlen]]]; cbn [map matching].
  - exists []. split; [reflexivity|cbn; lia].
  - rewrite Hf. cbn [bind ret].
    destruct (contains (lower w) job_text); eexists;
      (split; [reflexivity|cbn [List.length]; lia]).
Qed.

Lemma matching_not_a_string job_text items :
  In None items ->
  matching job_text items
  = inl (Exception
           "AttributeError: 'dict' object has no attribute 'lower'").
Proof.
  induction items as [|[w|] items IH]; cbn [matching]; intros H.
  - contradiction.
  - destruct H as [H|H]; [discriminate|]. rewrite (IH H). reflexivity.
  - reflexivity.
Qed.

Lemma all_strings (items : list (option string)) :
  ~ In None items -> exists words, items = map Some words.
Proof.
  induction items as [|[w|] items IH]; intros H.
  - exists []. reflexivity.
  - destruct IH as [words ->]; [intros Hin; apply H; right; exact Hin|].
    exists (w :: words). reflexivity.
  - exfalso. apply H. left. reflexivity.
Qed.

Lemma simple_score_strings job resume_skills words n :
  exists score,
    calculate_simple_match_score entropy job resume_skills (map Some words) n
    = inr (score, S n)
    /\ 50 <= score <= 100.
Proof.
  unfold calculate_simple_match_score, g_bind, g_lift, g_ret.
  match goal with
  | |- context [matching ?t _] =>
      destruct (matching_strings t words) as [found [-> _]]
  end.
  cbn [bind ret].
  destruct (randint_range (-10) 15 n ltac:(lia)) as [r [-> Hr]].
  cbn [bind ret]. eexists. split; [reflexivity|]. lia.
Qed.

Lemma simple_score_not_a_string job resume_skills resume_keywords n :
  In None resume_keywords ->
  calculate_simple_match_score entropy job resume_skills resume_keywords n
  = inl (Exception
           "AttributeError: 'dict' object has no attribute 'lower'").
Proof.
  intros H. unfold calculate_simple_match_score, g_bind, g_lift.
  rewrite (matching_not_a_string _ _ H). reflexivity.
Qed.

(** X22.  The simple match score.  When every keyword is a string, the
    score is computed with one draw and lies between 50 and 100,
    whatever is drawn; when a keyword is a dict without the key
    ['word'], the computation raises. *)
Theorem simple_score_between_50_and_100 :
  forall (job : dict string) (resume_skills : list string)
         (resume_keywords : list (option string)) (draws : nat),
    (~ In None resume_keywords ->
     exists score,
       calculate_simple_match_score entropy job resume_skills
         resume_keywords draws
       = inr (score, S draws)
       /\ 50 <= score <= 100)
    /\ (In None resume_keywords ->
        exists e,
          calculate_simple_match_score entropy job resume_skills
            resume_keywords draws
          = inl e).
Proof.
  intros job resume_skills resume_keywords draws. split.
  - intros H. destruct (all_strings _ H) as [words ->].
    apply simple_score_strings.
  - intros H. eexists. apply simple_score_not_a_string, H.
Qed.


Lemma match_job_strings resume_skills words job n :
  exists m,
    match_job entropy hash resume_skills (map Some words) job n
    = inr (m, S n)
    /\ matched resume_skills job m.
Proof.
  unfold match_job, g_bind, g_ret.
  destruct (simple_score_strings job resume_skills words n)
    as [score [-> Hrange]].
  cbn [bind ret]. eexists. split; [reflexivity|].
  unfold matched.
  cbn [j_match_score j_title j_company j_location j_experience_level
       j_remote_type j_matching_skills j_missing_skills j_recommendation].
  split; [exact Hrange|].
  repeat (split; [reflexivity|]).
  destruct (80 <=? score); reflexivity.
Qed.

Lemma match_job_not_a_string resume_skills resume_keywords job n :
  In None resume_keywords ->
  exists e,
    match_job entropy hash resume_skills resume_keywords job n = inl e.
Proof.
  intros H. unfold match_job, g_bind.
  rewrite (simple_score_not_a_string _ _ _ _ H). eexists. reflexivity.
Qed.

Lemma g_for_each_ok {A B} (f : A -> gen B) (P : A -> B -> Prop) l :
  (forall x n, In x l -> exists y, f x n = inr (y, S n) /\ P x y) ->
  forall n,
    exists ys,
      g_for_each f l n = inr (ys, (n + List.length l)%nat)
      /\ Forall2 P l ys.
Proof.
  induction l as [|x l IH]; intros H n; cbn [g_for_each].
  - exists []. unfold g_ret, ret. rewrite Nat.add_0_r.
    split; [reflexivity|constructor].
  - destruct (H x n (or_introl eq_refl)) as [y [Hy HP]].
    destruct (IH (fun x' n' Hin => H x' n' (or_intror Hin)) (S n))
      as [ys [Hys HF]].
    exists (y :: ys). unfold g_bind, g_ret. rewrite Hy. cbn [bind].
    rewrite Hys. cbn [bind ret List.length].
    rewrite Nat.add_succ_r. split; [reflexivity|].
    constructor; assumption.
Qed.

Lemma g_for_each_raises {A B} (f : A -> gen B) x l n :
  (exists e, f x n = inl e) -> exists e, g_for_each f (x :: l) n = inl e.
Proof.
  intros [e He]. exists e. cbn [g_for_each]. unfold g_bind.
  rewrite He. reflexivity.
Qed.

Lemma option_string_dec (x y : option string) : {x = y} + {x <> y}.
Proof. decide equality. apply string_dec. Qed.

(** The jobs as they are matched, when every keyword is a string. *)
Lemma match_jobs_strings jobs resume :
  ~ In None (map keyword_word
               (match r_keywords resume with Some l => l | None => [] end)) ->
  forall n,
    exists unsorted,
      match_jobs_to_resume entropy hash jobs resume n
      = inr (sort_desc j_match_score unsorted,
             (n + List.length jobs)%nat)
      /\ Forall2 (matched (match r_skills resume with
                           | Some l => l | None => [] end))
                 jobs unsorted.
Proof.
  intros Hk n. unfold match_jobs_to_resume.
  destruct (all_strings _ Hk) as [words ->].
  destruct (g_for_each_ok
              (match_job entropy hash
                 (match r_skills resume with Some l => l | None => [] end)
                 (map Some words))
              (matched (match r_skills resume with
                        | Some l => l | None => [] end))
              jobs
              (fun job n' _ => match_job_strings _ words job n') n)
    as [unsorted [Hu HF]].
  exists unsorted. unfold g_bind, g_ret. rewrite Hu.
  split; [reflexivity|exact HF].
Qed.

Lemma match_jobs_not_a_string job jobs resume n :
  In None (map keyword_word
             (match r_keywords resume with Some l => l | None => [] end)) ->
  exists e,
    match_jobs_to_resume entropy hash (job :: jobs) resume n = inl e.
Proof.
  intros Hk. unfold match_jobs_to_resume.
  destruct (g_for_each_raises
              (match_job entropy hash
                 (match r_skills resume with Some l => l | None => [] end)
                 (map keyword_word
                    (match r_keywords resume with
                     | Some l => l | None => [] end)))
              job jobs n (match_job_not_a_string _ _ job n Hk)) as [e He].
  exists e. unfold g_bind. rewrite He. reflexivity.
Qed.

(** X23.  When [match_jobs_to_resume] returns, it has drawn once for
    each job and returns one entry for each job, in descending order of
    score; each entry has a score between 50 and 100, reads
    "Excellent match for your skills" exactly when the score is at
    least 80, lists as matching skills those of the first three resume
    skills that stand in the title, letter case apart, and lists Docker
    and Kubernetes as missing skills. *)
Theorem matched_jobs_are_ranked_and_scored :
  forall (jobs : list (dict string)) (resume : resume_data)
         (draws draws' : nat) (matched_jobs : list matched_job),
    match_jobs_to_resume entropy hash jobs resume draws
    = inr (matched_jobs, draws') ->
    draws' = (draws + List.length jobs)%nat
    /\ List.length matched_jobs = List.length jobs
    /\ StronglySorted (desc j_match_score) matched_jobs
    /\ Forall (fun m =>
                 exists job,
                   In job jobs
                   /\ matched (match r_skills resume with
                               | Some l => l | None => [] end) job m)
              matched_jobs.
Proof.
  intros jobs resume draws draws' matched_jobs H.
  destruct (in_dec option_string_dec None
              (map keyword_word
                 (match r_keywords resume with
                  | Some l => l | None => [] end))) as [Hin|Hnot].
  - destruct jobs as [|job jobs].
    + unfold match_jobs_to_resume in H. cbn in H.
      injection H as <- <-. rewrite Nat.add_0_r.
      repeat split; constructor.
    + destruct (match_jobs_not_a_string job jobs resume draws Hin)
        as [e He].
      rewrite He in H. discriminate.
  - destruct (match_jobs_strings jobs resume Hnot draws)
      as [unsorted [Hu HF]].
    rewrite Hu in H. injection H as <- <-.
    split; [reflexivity|]. split.
    { rewrite <- (Permutation_length
                    (sort_desc_perm j_match_score unsorted)).
      symmetry. exact (Forall2_length HF). }
    split; [apply sort_desc_sorted|].
    apply Forall_forall. intros m Hm.
    apply (Permutation_in _
             (Permutation_sym (sort_desc_perm j_match_score unsorted)))
      in Hm.
    destruct (Forall2_In_r _ _ _ _ HF Hm) as [job [Hjob HP]].
    exists job. split; assumption.
Qed.

End SimpleScore.

Section GetJobsSync.
Import Py Bounds Scraper.
Local Open Scope py_scope.
Local Open Scope Z_scope.

Variable entropy : nat -> Z.
Variable hash : string -> Z.

Lemma StronglySorted_filter {A} (R : A -> A -> Prop) (p : A -> bool) l :
  StronglySorted R l -> StronglySorted R (filter p l).
Proof.
  induction 1 as [|x l _ IH Hx]; cbn [filter]; [constructor|].
  destruct (p x); [|exact IH].
  constructor; [exact IH|].
  apply Forall_forall. intros y Hy. apply filter_In in Hy.
  rewrite Forall_forall in Hx. apply Hx, Hy.
Qed.

Lemma slice_to_incl {A} n (l : list A) x : In x (slice_to n l) -> In x l.
Proof. unfold slice_to. destruct (0 <=? n); apply firstn_incl. Qed.

Lemma slice_to_sorted {A} (R : A -> A -> Prop) n l :
  StronglySorted R l -> StronglySorted R (slice_to n l).
Proof.
  unfold slice_to. destruct (0 <=? n); apply StronglySorted_firstn.
Qed.

Lemma slice_to_length {A} n (l : list A) :
  (List.length (slice_to n l) <= List.length l)%nat.
Proof.
  unfold slice_to. destruct (0 <=? n); rewrite length_firstn;
    apply Nat.le_min_r.
Qed.

Lemma slice_to_at_most {A} n (l : list A) :
  0 <= n -> (List.length (slice_to n l) <= Z.to_nat n)%nat.
Proof.
  intros Hn. unfold slice_to. apply Z.leb_le in Hn. rewrite Hn.
  rewrite length_firstn. apply Nat.le_min_l.
Qed.

Lemma slice_to_all {A} n (l : list A) :
  Z.of_nat (List.length l) <= n -> slice_to n l = l.
Proof.
  intros Hn. unfold slice_to.
  destruct (Z.leb_spec 0 n); [|lia]. apply firstn_all2. lia.
Qed.

Lemma filter_by_level_incl level l x :
  In x (filter_by_level level l) -> In x l.
Proof.
  unfold filter_by_level. destruct level as [level|]; [|exact (fun H => H)].
  destruct (truthy level); [|exact (fun H => H)].
  intros H. apply filter_In in H. apply H.
Qed.

Lemma filter_by_location_incl kind l x :
  In x (filter_by_location kind l) -> In x l.
Proof.
  unfold filter_by_location. destruct kind as [kind|]; [|exact (fun H => H)].
  destruct (String.eqb kind "remote").
  - intros H. apply filter_In in H. apply H.
  - destruct (String.eqb kind "onsite"); [|exact (fun H => H)].
    intros H. apply filter_In in H. apply H.
Qed.

Lemma cut_incl max l x : In x (cut max l) -> In x l.
Proof.
  unfold cut. destruct max as [[n|]|]; try apply slice_to_incl.
  exact (fun H => H).
Qed.

Lemma apply_filters_incl args l x : In x (apply_filters args l) -> In x l.
Proof.
  unfold apply_filters. intros H.
  apply cut_incl, filter_by_location_incl, filter_by_level_incl in H.
  exact H.
Qed.

Lemma apply_filters_sorted (R : matched_job -> matched_job -> Prop) args l :
  StronglySorted R l -> StronglySorted R (apply_filters args l).
Proof.
  intros H. unfold apply_filters.
  assert (H1 : StronglySorted R
                 (filter_by_level (experience_level args) l)).
  { unfold filter_by_level. destruct (experience_level args) as [level|];
      [|exact H].
    destruct (truthy level); [apply StronglySorted_filter|]; exact H. }
  assert (H2 : StronglySorted R
                 (filter_by_location (location_type args)
                    (filter_by_level (experience_level args) l))).
  { unfold filter_by_location. destruct (location_type args) as [kind|];
      [|exact H1].
    destruct (String.eqb kind "remote");
      [apply StronglySorted_filter; exact H1|].
    destruct (String.eqb kind "onsite");
      [apply StronglySorted_filter|]; exact H1. }
  unfold cut. destruct (max_jobs args) as [[n|]|];
    [apply slice_to_sorted| |apply slice_to_sorted]; exact H2.
Qed.

Lemma filter_by_level_length level l :
  (List.length (filter_by_level level l) <= List.length l)%nat.
Proof.
  unfold filter_by_level. destruct level as [level|]; [|lia].
  destruct (truthy level); [apply filter_length_le|lia].
Qed.

Lemma filter_by_location_length kind l :
  (List.length (filter_by_location kind l) <= List.length l)%nat.
Proof.
  unfold filter_by_location. destruct kind as [kind|]; [|lia].
  destruct (String.eqb kind "remote"); [apply filter_length_le|].
  destruct (String.eqb kind "onsite"); [apply filter_length_le|lia].
Qed.

Lemma cut_length max l : (List.length (cut max l) <= List.length l)%nat.
Proof.
  unfold cut. destruct max as [[n|]|]; try apply slice_to_length. lia.
Qed.

Lemma apply_filters_length args l :
  (List.length (apply_filters args l) <= List.length l)%nat.
Proof.
  unfold apply_filters.
  etransitivity; [apply cut_length|].
  etransitivity; [apply filter_by_location_length|].
  apply filter_by_level_length.
Qed.

(** What [get_jobs_sync] returns: nothing, or the six jobs, matched and
    filtered. *)
Lemma get_jobs_sync_cases job_field resume args draws :
  get_jobs_sync entropy hash job_field resume args draws = []
  \/ exists unsorted,
       get_jobs_sync entropy hash job_field resume args draws
       = apply_filters args (sort_desc j_match_score unsorted)
       /\ Forall2 (matched (match r_skills resume with
                            | Some l => l | None => [] end))
                  (base_jobs job_field) unsorted.
Proof.
  unfold get_jobs_sync, jobs_or_error, g_bind, g_lift, g_ret.
  rewrite relevant_jobs_all. cbn [bind ret].
  destruct (in_dec option_string_dec None
              (map keyword_word
                 (match r_keywords resume with
                  | Some l => l | None => [] end))) as [Hin|Hnot].
  - left.
    destruct (match_jobs_not_a_string entropy hash
                (hd [] (base_jobs job_field)) (tl (base_jobs job_field))
                resume draws Hin) as [e He].
    change (hd [] (base_jobs job_field) :: tl (base_jobs job_field))
      with (base_jobs job_field) in He.
    rewrite He. reflexivity.
  - right.
    destruct (match_jobs_strings entropy hash (base_jobs job_field) resume
                Hnot draws) as [unsorted [Hu HF]].
    exists unsorted. rewrite Hu. cbn [bind ret].
    split; [reflexivity|exact HF].
Qed.

(** One of the six jobs, once matched. *)
Lemma matched_base_job job_field resume_skills job m :
  In job (base_jobs job_field) ->
  matched resume_skills job m ->
  50 <= j_match_score m <= 100
  /\ In (j_title m, j_company m, j_location m, j_experience_level m)
        [ ("Senior " ++ job_field, "Google", "Mountain View, CA", "senior");
          (job_field ++ " - Remote", "Stripe", "Remote", "mid");
          ("Lead " ++ job_field, "Databricks", "San Francisco, CA",
           "senior");
          ("Junior " ++ job_field, "Airbnb", "Remote", "junior");
          (job_field ++ " Intern", "Meta", "Menlo Park, CA", "entry");
          ("Principal " ++ job_field, "Amazon", "Seattle, WA", "senior") ]
        %string
  /\ j_remote_type m
     = (if contains "remote" (lower (j_location m))
        then "Remote" else "On-site").
Proof.
  intros Hin (Hs & Ht & Hc & Hl & He & Hr & _).
  split; [exact Hs|].
  rewrite Ht, Hc, Hl, He, Hr.
  unfold base_jobs in Hin. cbn [In] in Hin.
  destruct Hin as [<-|[<-|[<-|[<-|[<-|[<-|[]]]]]]];
    (split; [cbn [In]; tauto|reflexivity]).
Qed.

Lemma get_jobs_sync_entries job_field resume args draws m :
  In m (get_jobs_sync entropy hash job_field resume args draws) ->
  exists job,
    In job (base_jobs job_field)
    /\ matched (match r_skills resume with Some l => l | None => [] end)
               job m.
Proof.
  destruct (get_jobs_sync_cases job_field resume args draws)
    as [->|[unsorted [-> HF]]]; [intros []|].
  intros H. apply apply_filters_incl in H.
  apply (Permutation_in _
           (Permutation_sym (sort_desc_perm j_match_score unsorted))) in H.
  exact (Forall2_In_r _ _ _ _ HF H).
Qed.

(** X24.  Whatever the job field, the resume, the arguments and the
    draws, [get_jobs_sync] returns at most six jobs, in descending
    order of score; each is one of the six jobs written in the
    function, with the field in its title, has a score between 50 and
    100, and is marked Remote exactly when its location holds the word
    remote. *)
Theorem get_jobs_sync_returns_ranked_base_jobs :
  forall (job_field : string) (resume : resume_data) (args : kwargs)
         (draws : nat),
    (List.length (get_jobs_sync entropy hash job_field resume args draws)
     <= 6)%nat
    /\ StronglySorted (desc j_match_score)
         (get_jobs_sync entropy hash job_field resume args draws)
    /\ Forall
         (fun m =>
            50 <= j_match_score m <= 100
            /\ In (j_title m, j_company m, j_location m,
                   j_experience_level m)
                  [ ("Senior " ++ job_field, "Google", "Mountain View, CA",
                     "senior");
                    (job_field ++ " - Remote", "Stripe", "Remote", "mid");
                    ("Lead " ++ job_field, "Databricks",
                     "San Francisco, CA", "senior");
                    ("Junior " ++ job_field, "Airbnb", "Remote", "junior");
                    (job_field ++ " Intern", "Meta", "Menlo Park, CA",
                     "entry");
                    ("Principal " ++ job_field, "Amazon", "Seattle, WA",
                     "senior") ]%string
            /\ j_remote_type m
               = (if contains "remote" (lower (j_location m))
                  then "Remote" else "On-site"))
         (get_jobs_sync entropy hash job_field resume args draws).
Proof.
  intros job_field resume args draws. split; [|split].
  - destruct (get_jobs_sync_cases job_field resume args draws)
      as [->|[unsorted [-> HF]]]; [cbn; lia|].
    etransitivity; [apply apply_filters_length|].
    rewrite <- (Permutation_length (sort_desc_perm j_match_score unsorted)).
    rewrite <- (Forall2_length HF). reflexivity.
  - destruct (get_jobs_sync_cases job_field resume args draws)
      as [->|[unsorted [-> HF]]]; [constructor|].
    apply apply_filters_sorted, sort_desc_sorted.
  - apply Forall_forall. intros m Hm.
    destruct (get_jobs_sync_entries _ _ _ _ _ Hm) as [job [Hjob Hmatched]].
    eapply matched_base_job; eassumption.
Qed.

Lemma apply_filters_level args level l :
  experience_level args = Some level -> level <> EmptyString ->
  Forall (fun m => j_experience_level m = level) (apply_filters args l).
Proof.
  intros Hl Hne. apply Forall_forall. intros m Hm.
  unfold apply_filters in Hm.
  apply cut_incl, filter_by_location_incl in Hm.
  unfold filter_by_level in Hm. rewrite Hl in Hm.
  destruct level as [|c level]; [congruence|]. cbn [truthy] in Hm.
  apply filter_In in Hm. destruct Hm as [_ Hm].
  apply String.eqb_eq, Hm.
Qed.

Lemma filter_by_level_filtered level p l :
  Forall (fun m => p m = true) l ->
  Forall (fun m => p m = true) (filter_by_level level l).
Proof.
  intros H. apply Forall_forall. intros m Hm.
  apply filter_by_level_incl in Hm. rewrite Forall_forall in H.
  apply H, Hm.
Qed.

Lemma apply_filters_location args kind l :
  location_type args = Some kind ->
  (kind = "remote" ->
   Forall (fun m => contains "remote" (lower (j_location m)) = true)
          (apply_filters args l))
  /\ (kind = "onsite" ->
      Forall (fun m => contains "remote" (lower (j_location m)) = false)
             (apply_filters args l)).
Proof.
  intros Hk. split; intros ->; apply Forall_forall; intros m Hm;
    unfold apply_filters in Hm; apply cut_incl in Hm;
    unfold filter_by_location in Hm; rewrite Hk in Hm; cbn in Hm;
    apply filter_In in Hm; destruct Hm as [_ Hm].
  - exact Hm.
  - apply negb_true_iff, Hm.
Qed.

(** X25.  The filters of [get_jobs_sync].  With an experience level
    that is not empty, every job returned has that level.  With the
    location type remote, every job returned has the word remote in its
    location, letter case apart, and is marked Remote; with onsite,
    none has it and each is marked On-site.  With a number of jobs that
    is not negative, no more jobs than that are returned. *)
Theorem get_jobs_sync_applies_its_filters :
  forall (job_field : string) (resume : resume_data) (args : kwargs)
         (draws : nat),
    (forall level,
       experience_level args = Some level -> level <> EmptyString ->
       Forall (fun m => j_experience_level m = level)
              (get_jobs_sync entropy hash job_field resume args draws))
    /\ (location_type args = Some "remote" ->
        Forall (fun m =>
                  contains "remote" (lower (j_location m)) = true
                  /\ j_remote_type m = "Remote")
               (get_jobs_sync entropy hash job_field resume args draws))
    /\ (location_type args = Some "onsite" ->
        Forall (fun m =>
                  contains "remote" (lower (j_location m)) = false
                  /\ j_remote_type m = "On-site")
               (get_jobs_sync entropy hash job_field resume args draws))
    /\ (forall n,
          max_jobs args = Some (Some n) -> 0 <= n ->
          (List.length
             (get_jobs_sync entropy hash job_field resume args draws)
           <= Z.to_nat n)%nat).
Proof.
  intros job_field resume args draws.
  assert (Hremote : forall m,
            In m (get_jobs_sync entropy hash job_field resume args draws) ->
            j_remote_type m
            = (if contains "remote" (lower (j_location m))
               then "Remote" else "On-site")).
  { intros m Hm.
    destruct (get_jobs_sync_entries _ _ _ _ _ Hm) as [job [Hjob Hmatched]].
    eapply matched_base_job; eassumption. }
  destruct (get_jobs_sync_cases job_field resume args draws)
    as [Hnil|[unsorted [Heq HF]]].
  - rewrite Hnil. repeat split; intros; try constructor. cbn. lia.
  - split; [|split; [|split]].
    + intros level Hl Hne. rewrite Heq.
      apply apply_filters_level; assumption.
    + intros Hk. apply Forall_forall. intros m Hm.
      pose proof (Hremote m Hm) as Hr. rewrite Heq in Hm.
      destruct (apply_filters_location args "remote"
                  (sort_desc j_match_score unsorted) Hk) as [H1 _].
      specialize (H1 eq_refl). rewrite Forall_forall in H1.
      specialize (H1 m Hm). rewrite H1 in Hr. split; assumption.
    + intros Hk. apply Forall_forall. intros m Hm.
      pose proof (Hremote m Hm) as Hr. rewrite Heq in Hm.
      destruct (apply_filters_location args "onsite"
                  (sort_desc j_match_score unsorted) Hk) as [_ H2].
      specialize (H2 eq_refl). rewrite Forall_forall in H2.
      specialize (H2 m Hm). rewrite H2 in Hr. split; assumption.
    + intros n Hn Hpos. rewrite Heq. unfold apply_filters, cut.
      rewrite Hn. apply slice_to_at_most, Hpos.
Qed.

(** X26.  A location type other than remote and onsite, such as hybrid,
    filters nothing: the jobs returned are those returned without a
    location type. *)
Theorem other_location_types_filter_nothing :
  forall (job_field : string) (resume : resume_data)
         (level : option string) (kind : string) (max : option (option Z))
         (draws : nat),
    kind <> "remote" -> kind <> "onsite" ->
    get_jobs_sync entropy hash job_field resume
      {| experience_level := level; location_type := Some kind;
         max_jobs := max |} draws
    = get_jobs_sync entropy hash job_field resume
        {| experience_level := level; location_type := None;
           max_jobs := max |} draws.
Proof.
  intros job_field resume level kind max draws Hr Ho.
  unfold get_jobs_sync, jobs_or_error, g_bind, g_ret.
  destruct (g_lift (relevant_jobs job_field) draws) as [e|[jobs n]];
    [reflexivity|].
  cbn [bind].
  destruct (match_jobs_to_resume entropy hash jobs resume n)
    as [e|[ms n']]; [reflexivity|].
  cbn [bind ret]. unfold apply_filters.
  cbn [experience_level location_type max_jobs]. unfold filter_by_location.
  apply String.eqb_neq in Hr. apply String.eqb_neq in Ho.
  rewrite Hr, Ho. reflexivity.
Qed.

(** X27.  A resume whose keywords hold a dict without the key ['word']
    gets no job: the error raised when the keywords are compared is
    caught and the empty list returned. *)
Theorem keyword_without_word_gives_no_job :
  forall (job_field : string) (resume : resume_data) (args : kwargs)
         (draws : nat) (items : list keyword_item),
    r_keywords resume = Some items ->
    In (KeywordDict None) items ->
    get_jobs_sync entropy hash job_field resume args draws = [].
Proof.
  intros job_field resume args draws items Hk Hin.
  unfold get_jobs_sync, jobs_or_error, g_bind, g_lift, g_ret.
  rewrite relevant_jobs_all. cbn [bind ret].
  destruct (match_jobs_not_a_string entropy hash
              (hd [] (base_jobs job_field)) (tl (base_jobs job_field))
              resume draws) as [e He].
  { rewrite Hk. apply in_map_iff. exists (KeywordDict None).
    split; [reflexivity|exact Hin]. }
  change (hd [] (base_jobs job_field) :: tl (base_jobs job_field))
    with (base_jobs job_field) in He.
  rewrite He. reflexivity.
Qed.

(** X28.  Without a filter and without a number of jobs, a resume whose
    keywords all have a word gets the six jobs: the titles returned are
    the six titles written in the function, in some order; no title is
    replaced, whatever the job field. *)
Theorem unfiltered_search_returns_the_six_jobs :
  forall (job_field : string) (resume : resume_data) (draws : nat),
    (forall items, r_keywords resume = Some items ->
                   ~ In (KeywordDict None) items) ->
    Permutation
      (map j_title
         (get_jobs_sync entropy hash job_field resume
            {| experience_level := None; location_type := None;
               max_jobs := None |} draws))
      [ "Senior " ++ job_field; job_field ++ " - Remote";
        "Lead " ++ job_field; "Junior " ++ job_field;
        job_field ++ " Intern"; "Principal " ++ job_field ]%string.
Proof.
  intros job_field resume draws Hk.
  assert (Hnot : ~ In None
                     (map keyword_word
                        (match r_keywords resume with
                         | Some l => l | None => [] end))).
  { intros Hin. apply in_map_iff in Hin. destruct Hin as [k [Hw Hin]].
    destruct (r_keywords resume) as [items|] eqn:Hr; [|contradiction].
    apply (Hk items eq_refl).
    destruct k as [[w|]|s]; try discriminate. exact Hin. }
  unfold get_jobs_sync, jobs_or_error, g_bind, g_lift, g_ret.
  rewrite relevant_jobs_all. cbn [bind ret].
  destruct (match_jobs_strings entropy hash (base_jobs job_field) resume
              Hnot draws) as [unsorted [Hu HF]].
  rewrite Hu. cbn [bind ret].
  pose proof (Forall2_length HF) as Hlen.
  unfold apply_filters, filter_by_level, filter_by_location, cut.
  cbn [experience_level location_type max_jobs].
  rewrite slice_to_all.
  2:{ rewrite <- (Permutation_length
                    (sort_desc_perm j_match_score unsorted)).
      rewrite <- Hlen. cbn. lia. }
  eapply perm_trans.
  { apply Permutation_map, Permutation_sym, sort_desc_perm. }
  assert (Ht : map j_title unsorted
               = map (fun job => get_or job "title" "Software Engineer")
                     (base_jobs job_field)).
  { clear -HF. induction HF as [|job m jobs ms Hm _ IH]; [reflexivity|].
    cbn [map]. rewrite IH. f_equal. apply Hm. }
  rewrite Ht. apply Permutation_refl.
Qed.

End GetJobsSync.

Section Levels.
Import Py Bounds Scraper.

(** X29.  [extract_experience_level] returns one of the five levels, mid
    when the title holds no keyword of any level.  The levels are tried
    in the order entry, junior, mid, senior, executive, and the first
    one with a keyword in the lowercased title wins: a title with the
    word junior is an entry title, and a title with the word senior is
    never a senior title, it is an entry, junior or mid title. *)
Theorem experience_level_is_the_first_level_that_matches :
  forall job_title : string,
    In (extract_experience_level job_title)
       ["entry"; "junior"; "mid"; "senior"; "executive"]
    /\ (contains "junior" (lower job_title) = true ->
        extract_experience_level job_title = "entry")
    /\ (contains "senior" (lower job_title) = true ->
        In (extract_experience_level job_title) ["entry"; "junior"; "mid"])
    /\ (Forall (fun level =>
                  Forall (fun keyword =>
                            contains keyword (lower job_title) = false)
                         (snd level))
               experience_levels ->
        extract_experience_level job_title = "mid").
Proof.
  intros job_title. unfold extract_experience_level, experience_levels.
  cbn [first_level].
  set (t := lower job_title).
  destruct (existsb (fun keyword => contains keyword t)
              ["intern"; "entry"; "junior"; "associate"; "new grad";
               "graduate"; "0-2 years"]) eqn:He.
  { split; [left; reflexivity|]. split; [reflexivity|].
    split; [intros _; left; reflexivity|].
    intros H. inversion H as [|x l Hx _]; subst. cbn [snd] in Hx.
    exfalso. apply existsb_exists in He. destruct He as [k [Hk Hc]].
    rewrite Forall_forall in Hx. rewrite (Hx k Hk) in Hc. discriminate. }
  assert (Hj : contains "junior" t = false).
  { cbn [existsb] in He. repeat (apply orb_false_iff in He; destruct He as [? He]).
    assumption. }
  destruct (existsb (fun keyword => contains keyword t)
              ["junior"; "associate"; "1-3 years"; "2-4 years"]) eqn:Hju.
  { split; [right; left; reflexivity|]. split; [congruence|].
    split; [intros _; right; left; reflexivity|].
    intros H. inversion H as [|x l _ H']; subst.
    inversion H' as [|x' l' Hx _]; subst. cbn [snd] in Hx.
    exfalso. apply existsb_exists in Hju. destruct Hju as [k [Hk Hc]].
    rewrite Forall_forall in Hx. rewrite (Hx k Hk) in Hc. discriminate. }
  destruct (existsb (fun keyword => contains keyword t)
              ["mid"; "senior"; "3-5 years"; "4-7 years"; "experienced"])
    eqn:Hm.
  { split; [right; right; left; reflexivity|]. split; [congruence|].
    split; [intros _; right; right; left; reflexivity|].
    intros _. reflexivity. }
  assert (Hs : contains "senior" t = false).
  { cbn [existsb] in Hm. repeat (apply orb_false_iff in Hm; destruct Hm as [? Hm]).
    assumption. }
  destruct (existsb (fun keyword => contains keyword t)
              ["senior"; "lead"; "principal"; "staff"; "5+ years";
               "7+ years"]) eqn:Hse.
  { split; [right; right; right; left; reflexivity|]. split; [congruence|].
    split; [congruence|].
    intros H. inversion H as [|x1 l1 _ H1]; subst.
    inversion H1 as [|x2 l2 _ H2]; subst.
    inversion H2 as [|x3 l3 _ H3]; subst.
    inversion H3 as [|x4 l4 Hx _]; subst. cbn [snd] in Hx.
    exfalso. apply existsb_exists in Hse. destruct Hse as [k [Hk Hc]].
    rewrite Forall_forall in Hx. rewrite (Hx k Hk) in Hc. discriminate. }
  destruct (existsb (fun keyword => contains keyword t)
              ["director"; "vp"; "head of"; "chief"; "executive";
               "manager"]) eqn:Hex.
  { split; [right; right; right; right; left; reflexivity|].
    split; [congruence|]. split; [congruence|].
    intros H. inversion H as [|x1 l1 _ H1]; subst.
    inversion H1 as [|x2 l2 _ H2]; subst.
    inversion H2 as [|x3 l3 _ H3]; subst.
    inversion H3 as [|x4 l4 _ H4]; subst.
    inversion H4 as [|x5 l5 Hx _]; subst. cbn [snd] in Hx.
    exfalso. apply existsb_exists in Hex. destruct Hex as [k [Hk Hc]].
    rewrite Forall_forall in Hx. rewrite (Hx k Hk) in Hc. discriminate. }
  split; [right; right; left; reflexivity|]. split; [congruence|].
  split; [congruence|]. intros _. reflexivity.
Qed.

End Levels.

Section Cache.
Import Py Bounds Scraper.

Lemma get_set_same {V} (d : dict V) key v : get (set d key v) key = Some v.
Proof.
  induction d as [|[k x] d IH]; cbn [set get].
  - rewrite String.eqb_refl. reflexivity.
  - destruct (String.eqb k key) eqn:Hk; cbn [get]; rewrite Hk.
    + reflexivity.
    + exact IH.
Qed.

Lemma get_set_other {V} (d : dict V) key v other :
  other <> key -> get (set d key v) other = get d other.
Proof.
  intros Hne. induction d as [|[k x] d IH]; cbn [set get].
  - destruct (String.eqb_spec key other) as [->|_]; [congruence|reflexivity].
  - destruct (String.eqb_spec k key) as [->|Hk]; cbn [get].
    + destruct (String.eqb_spec key other) as [->|_];
        [congruence|reflexivity].
    + rewrite IH. reflexivity.
Qed.

(** X30.  The job cache.  Jobs stored for a field come back for that
    field as long as less than 3600 seconds have passed since they were
    stored, and the empty list after that; storing them changes nothing
    for any other field; the age given to [get_cached_jobs] is not
    used. *)
Theorem cached_jobs_come_back_for_an_hour :
  forall (J : Type) (self : cache J) (now later : Float.float)
         (jobs : list J) (job_field : string) (max_age_hours : Z),
    get_cached_jobs (cache_jobs self now jobs job_field) later job_field
                    max_age_hours
    = (if fresh later now then jobs else [])
    /\ (forall other,
          other <> job_field ->
          get_cached_jobs (cache_jobs self now jobs job_field) later other
                          max_age_hours
          = get_cached_jobs self later other max_age_hours)
    /\ (forall other_age,
          get_cached_jobs self later job_field max_age_hours
          = get_cached_jobs self later job_field other_age).
Proof.
  intros J self now later jobs job_field max_age_hours.
  unfold get_cached_jobs, cache_jobs. split; [|split].
  - rewrite get_set_same. reflexivity.
  - intros other Hne. rewrite (get_set_other _ _ _ _ Hne). reflexivity.
  - reflexivity.
Qed.

End Cache.

Section ScraperSamples.
Import Py Bounds Scraper.

Lemma matched_jobs_are_ranked_and_scored_witness :
  exists matched_jobs draws',
    match_jobs_to_resume (fun n => Z.of_nat n) (fun _ => 0%Z)
      (base_jobs "Data Engineer")
      {| r_skills := Some ["Python"; "Lead"];
         r_keywords := Some [KeywordDict (Some "Engineer")] |} 0
    = inr (matched_jobs, draws')
    /\ draws' = (0 + List.length (base_jobs "Data Engineer"))%nat
    /\ List.length matched_jobs = List.length (base_jobs "Data Engineer").
Proof.
  destruct (match_jobs_to_resume (fun n => Z.of_nat n) (fun _ => 0%Z)
              (base_jobs "Data Engineer")
              {| r_skills := Some ["Python"; "Lead"];
                 r_keywords := Some [KeywordDict (Some "Engineer")] |} 0)
    as [e|[matched_jobs draws']] eqn:H.
  - vm_compute in H. discriminate H.
  - exists matched_jobs, draws'. split; [reflexivity|].
    destruct (matched_jobs_are_ranked_and_scored
                (fun n => Z.of_nat n) (fun _ => 0%Z) _ _ _ _ _ H)
      as [H1 [H2 _]].
    split; [exact H1|exact H2].
Defined.

Lemma other_location_types_filter_nothing_witness :
  "hybrid" <> "remote" /\ "hybrid" <> "onsite"
  /\ get_jobs_sync (fun n => Z.of_nat n) (fun _ => 0%Z) "Data Engineer"
       {| r_skills := None; r_keywords := None |}
       {| experience_level := None; location_type := Some "hybrid";
          max_jobs := None |} 0
     = get_jobs_sync (fun n => Z.of_nat n) (fun _ => 0%Z) "Data Engineer"
         {| r_skills := None; r_keywords := None |}
         {| experience_level := None; location_type := None;
            max_jobs := None |} 0.
Proof.
  assert (H1 : "hybrid" <> "remote") by discriminate.
  assert (H2 : "hybrid" <> "onsite") by discriminate.
  split; [exact H1|]. split; [exact H2|].
  exact (other_location_types_filter_nothing
           (fun n => Z.of_nat n) (fun _ => 0%Z) "Data Engineer"
           {| r_skills := None; r_keywords := None |}
           None "hybrid" None 0 H1 H2).
Defined.

Lemma keyword_without_word_gives_no_job_witness :
  r_keywords {| r_skills := Some ["Python"];
                r_keywords := Some [KeywordDict (Some "Python");
                                    KeywordDict None] |}
  = Some [KeywordDict (Some "Python"); KeywordDict None]
  /\ In (KeywordDict None) [KeywordDict (Some "Python"); KeywordDict None]
  /\ get_jobs_sync (fun n => Z.of_nat n) (fun _ => 0%Z) "Data Engineer"
       {| r_skills := Some ["Python"];
          r_keywords := Some [KeywordDict (Some "Python");
                              KeywordDict None] |}
       {| experience_level := None; location_type := None;
          max_jobs := None |} 0
     = [].
Proof.
  assert (H2 : In (KeywordDict None)
                  [KeywordDict (Some "Python"); KeywordDict None])
    by (right; left; reflexivity).
  split; [reflexivity|]. split; [exact H2|].
  exact (keyword_without_word_gives_no_job
           (fun n => Z.of_nat n) (fun _ => 0%Z) "Data Engineer"
           {| r_skills := Some ["Python"];
              r_keywords := Some [KeywordDict (Some "Python");
                                  KeywordDict None] |}
           {| experience_level := None; location_type := None;
              max_jobs := None |} 0 _ eq_refl H2).
Defined.

Lemma unfiltered_search_returns_the_six_jobs_witness :
  (forall items,
     r_keywords {| r_skills := Some ["Python"];
                   r_keywords := Some [KeywordDict (Some "Developer");
                                       KeywordStr "senior"] |}
     = Some items ->
     ~ In (KeywordDict None) items)
  /\ Permutation
       (map j_title
          (get_jobs_sync (fun n => Z.of_nat n) (fun _ => 0%Z) "Data Engineer"
             {| r_skills := Some ["Python"];
                r_keywords := Some [KeywordDict (Some "Developer");
                                    KeywordStr "senior"] |}
             {| experience_level := None; location_type := None;
                max_jobs := None |} 0))
       [ "Senior " ++ "Data Engineer"; "Data Engineer" ++ " - Remote";
         "Lead " ++ "Data Engineer"; "Junior " ++ "Data Engineer";
         "Data Engineer" ++ " Intern"; "Principal " ++ "Data Engineer" ]
       %string.
Proof.
  assert (H : forall items,
     r_keywords {| r_skills := Some ["Python"];
                   r_keywords := Some [KeywordDict (Some "Developer");
                                       KeywordStr "senior"] |}
     = Some items ->
     ~ In (KeywordDict None) items).
  { intros items Heq. cbn [r_keywords] in Heq. injection Heq as <-.
    intros [Hin|[Hin|[]]]; discriminate Hin. }
  split; [exact H|].
  exact (unfiltered_search_returns_the_six_jobs
           (fun n => Z.of_nat n) (fun _ => 0%Z) "Data Engineer"
           {| r_skills := Some ["Python"];
              r_keywords := Some [KeywordDict (Some "Developer");
                                  KeywordStr "senior"] |}
           0 H).
Defined.

End ScraperSamples.
